(** * The ReAct agent runtime of [agent/react_agent.py]

    A shallow embedding of the reply parser ([_parse_react_output]), the
    redaction pass ([_clean_email_data]), the action dispatcher
    ([_execute_tool]) and the loop driver ([run_streaming]) of the class
    [ReActAgent], followed by the properties proved about them. The
    embedding goes on with [run], with the generator of [run_streaming]
    read step by step, and with the loop of [LeadResearchController.run]
    in [agent/controller.py], which consumes that generator.

    Conventions of the embedding:
    - a Python [str] is a list of Unicode code points ([list N]);
    - a JSON-like Python object is a [value]; a [dict] is an association
      list in insertion order, updated the way [d[k] = v] does;
    - the language model, the tools, the callbacks and the clock are
      external: they act on an abstract world state [W] that is threaded
      through every call;
    - a generator is read as the list of the steps it yields when it is
      consumed to the end, together with the way it ends (the value it
      returns, or the exception that leaves it); the callbacks are taken
      to return; for a consumer that stops early the generator is read as
      a computation that waits at each [yield], and the two readings agree
      when it is consumed to the end;
    - logging is left out;
    - [json.loads] raises more than [json.JSONDecodeError], and the
      handlers of the agent tell the exceptions apart: an integer literal
      of more than 4300 digits (the default digit limit of integer
      conversion) raises [ValueError], and a container nested deeper than
      the interpreter allows raises [RecursionError], when the decoder
      meets it. [nesting_limit] is the number of containers that the
      interpreter lets the decoder open inside the outermost one; the
      outermost one is taken to fit, like the calls that the code and the
      decoder themselves make (to build a [json.JSONDecodeError], for
      one). An exception that no handler catches leaves the parser, the
      generator and the loop that consumes it. *)

From Stdlib Require Import Ascii String.
From Stdlib Require Import List NArith ZArith Bool Lia.
From Stdlib Require DecimalString.
Import ListNotations.

Set Implicit Arguments.
Local Open Scope N_scope.
Local Open Scope list_scope.

(** ** Python strings *)

Definition char := N.
Definition str := list char.

(** [py "text"] is the Python literal ['text'] (ASCII literals only). *)
Definition py (s : string) : str :=
  List.map N_of_ascii (list_ascii_of_string s).

Arguments py : simpl never.

Definition dquote : str := [34].
Definition newline : char := 10.

Fixpoint str_eqb (a b : str) : bool :=
  match a, b with
  | [], [] => true
  | x :: a', y :: b' => (x =? y) && str_eqb a' b'
  | _, _ => false
  end.

(** [sep.join(parts)] *)
Fixpoint join (sep : str) (parts : list str) : str :=
  match parts with
  | [] => []
  | [p] => p
  | p :: rest => p ++ sep ++ join sep rest
  end.

(** [needle in s], by trying every start position. *)
Fixpoint starts_with (needle s : str) : bool :=
  match needle, s with
  | [], _ => true
  | x :: n', y :: s' => (x =? y) && starts_with n' s'
  | _ :: _, [] => false
  end.

Fixpoint contains (needle s : str) : bool :=
  starts_with needle s ||
  match s with
  | [] => false
  | _ :: s' => contains needle s'
  end.

(** [str.isspace] on one code point; it is also the class [\s] of a
    [str] pattern. *)
Definition isspace (c : char) : bool :=
  ((9 <=? c) && (c <=? 13)) || ((28 <=? c) && (c <=? 32)) ||
  (c =? 133) || (c =? 160) || (c =? 5760) ||
  ((8192 <=? c) && (c <=? 8202)) || (c =? 8232) || (c =? 8233) ||
  (c =? 8239) || (c =? 8287) || (c =? 12288).

Fixpoint lstrip_by (drop : char -> bool) (s : str) : str :=
  match s with
  | c :: s' => if drop c then lstrip_by drop s' else s
  | [] => []
  end.

Definition rstrip_by (drop : char -> bool) (s : str) : str :=
  rev (lstrip_by drop (rev s)).

(** [s.strip()] and [s.strip(chars)]. *)
Definition strip_by (drop : char -> bool) (s : str) : str :=
  rstrip_by drop (lstrip_by drop s).

Definition strip (s : str) : str := strip_by isspace s.

Definition mem_char (chars : str) (c : char) : bool :=
  existsb (N.eqb c) chars.

Definition strip_chars (chars s : str) : str := strip_by (mem_char chars) s.

(** [s.split(sep)[0]] for a one-character separator. *)
Fixpoint split_head (sep : char) (s : str) : str :=
  match s with
  | [] => []
  | c :: s' => if c =? sep then [] else c :: split_head sep s'
  end.

(** Decimal rendering of an integer, as [str(n)] and f-strings do. *)
Definition str_of_Z (z : Z) : str :=
  py (DecimalString.NilZero.string_of_int (Z.to_int z)).

(** ** JSON-like values *)

Definition dict (V : Type) := list (str * V).

Unset Elimination Schemes.
Inductive value : Type :=
| VNone
| VBool (b : bool)
| VInt (z : Z)
| VFloat (lexeme : str)
| VStr (s : str)
| VList (items : list value)
| VDict (items : dict value).
Set Elimination Schemes.

Section Dict.
Variable V : Type.

Definition keys (d : dict V) : list str := List.map fst d.

(** [d.get(k)] / [d[k]] *)
Fixpoint dict_get (k : str) (d : dict V) : option V :=
  match d with
  | [] => None
  | (k', v) :: d' => if str_eqb k' k then Some v else dict_get k d'
  end.

(** [d[k] = v]: an existing key keeps its position, a new key goes last. *)
Fixpoint dict_set (k : str) (v : V) (d : dict V) : dict V :=
  match d with
  | [] => [(k, v)]
  | (k', v') :: d' =>
      if str_eqb k' k then (k', v) :: d' else (k', v') :: dict_set k v d'
  end.

(** [dict(pairs)] *)
Definition dict_of_pairs (pairs : list (str * V)) : dict V :=
  fold_left (fun d kv => dict_set (fst kv) (snd kv) d) pairs [].
End Dict.

(** Keys of a Python dict are pairwise distinct, at every depth. *)
Fixpoint distinct (ks : list str) : bool :=
  match ks with
  | [] => true
  | k :: ks' => negb (existsb (str_eqb k) ks') && distinct ks'
  end.

Fixpoint well_formed (v : value) : bool :=
  match v with
  | VList items => forallb well_formed items
  | VDict items =>
      distinct (keys items) && forallb (fun kv => well_formed (snd kv)) items
  | _ => true
  end.

(** ** [_clean_email_data] *)

Definition body_html : str := py "body_html".

Fixpoint _clean_email_data (data : value) : value :=
  match data with
  | VList items => VList (List.map _clean_email_data items)
  | VDict items =>
      VDict
        (fold_left
           (fun cleaned kv =>
              let key := fst kv in
              let val := snd kv in
              if str_eqb key body_html then cleaned
              else
                match val with
                | VDict _ => dict_set key (_clean_email_data val) cleaned
                | VList _ => dict_set key (_clean_email_data val) cleaned
                | _ => dict_set key val cleaned
                end)
           items [])
  | _ => data
  end.

(** ** Regular expressions

    A pattern is read as a backtracking matcher in continuation style: a
    matcher receives the text from the current position on and hands the
    rest to its continuation; a greedy repetition tries the longer match
    first, a lazy one the shorter. Every pattern of the parser is compiled
    with [re.IGNORECASE]. *)

Definition ascii_lower (c : char) : char :=
  if (65 <=? c) && (c <=? 90) then c + 32 else c.

(** Does the text character [c] match the ASCII pattern character [p] under
    [re.IGNORECASE]? Besides the two ASCII cases, U+0130 and U+0131 match
    [i], U+017F matches [s] and U+212A matches [k]. *)
Definition lit_ignorecase (p c : char) : bool :=
  let lo := ascii_lower p in
  (ascii_lower c =? lo)
  || ((lo =? 105) && ((c =? 304) || (c =? 305)))
  || ((lo =? 115) && (c =? 383))
  || ((lo =? 107) && (c =? 8490)).

Section Matchers.
Variable A : Type.
Implicit Type k : str -> option A.

Fixpoint lit (pat : str) k (s : str) : option A :=
  match pat with
  | [] => k s
  | p :: pat' =>
      match s with
      | c :: s' => if lit_ignorecase p c then lit pat' k s' else None
      | [] => None
      end
  end.

(** [cls*] *)
Fixpoint star_greedy (cls : char -> bool) k (s : str) : option A :=
  match s with
  | c :: s' =>
      if cls c then
        match star_greedy cls k s' with
        | Some r => Some r
        | None => k s
        end
      else k s
  | [] => k s
  end.

(** [cls+] *)
Definition plus_greedy (cls : char -> bool) k (s : str) : option A :=
  match s with
  | c :: s' => if cls c then star_greedy cls k s' else None
  | [] => None
  end.

(** [cls*?] *)
Fixpoint star_lazy (cls : char -> bool) k (s : str) : option A :=
  match k s with
  | Some r => Some r
  | None =>
      match s with
      | c :: s' => if cls c then star_lazy cls k s' else None
      | [] => None
      end
  end.

(** [$] under [re.MULTILINE]: at the end of the text or before a newline. *)
Definition end_of_line k (s : str) : option A :=
  match s with
  | [] => k s
  | c :: _ => if c =? newline then k s else None
  end.

(** [re.search]: the leftmost start position at which the pattern matches. *)
Fixpoint search (m : str -> option A) (s : str) : option A :=
  match m s with
  | Some r => Some r
  | None =>
      match s with
      | [] => None
      | _ :: s' => search m s'
      end
  end.
End Matchers.

(** The end of a match: the text left after it. *)
Definition accept (s : str) : option str := Some s.

(** A group that runs to the end of the match (as group 1 does in each
    pattern of the parser): the text it consumed. *)
Definition group (inner : str -> option str) (s : str) : option str :=
  match inner s with
  | Some rest => Some (firstn (length s - length rest) s)
  | None => None
  end.

Definition any_char (c : char) : bool := true.
Definition not_char (x : char) (c : char) : bool := negb (c =? x).

(** [re.search(r'Final Answer:\s*(.+)', text, re.DOTALL | re.IGNORECASE)],
    group 1 *)
Definition re_final_answer : str -> option str :=
  search (lit (py "Final Answer:")
            (star_greedy isspace (group (plus_greedy any_char accept)))).

(** [re.search(r'Thought:\s*([^\n]+)', text, re.IGNORECASE)], group 1 *)
Definition re_thought : str -> option str :=
  search (lit (py "Thought:")
            (star_greedy isspace
               (group (plus_greedy (not_char newline) accept)))).

(** [re.search(r'Action:\s*([^\n]+)', text, re.IGNORECASE)], group 1 *)
Definition re_action : str -> option str :=
  search (lit (py "Action:")
            (star_greedy isspace
               (group (plus_greedy (not_char newline) accept)))).

(** [re.search(r'Action Input:\s*(\{.*?\}\s*$)', text,
               re.IGNORECASE | re.DOTALL | re.MULTILINE)], group 1 *)
Definition re_action_input_strict : str -> option str :=
  search (lit (py "Action Input:")
            (star_greedy isspace
               (group
                  (lit (py "{")
                     (star_lazy any_char
                        (lit (py "}")
                           (star_greedy isspace (end_of_line accept)))))))).

(** [re.search(r'Action Input:\s*(\{[^}]+\})', text, re.IGNORECASE)],
    group 1 *)
Definition re_action_input_loose : str -> option str :=
  search (lit (py "Action Input:")
            (star_greedy isspace
               (group
                  (lit (py "{")
                     (plus_greedy (not_char 125) (lit (py "}") accept)))))).

(** [re.sub(r'[\x00-\x1f\x7f-\x9f]', ' ', s)] *)
Definition is_control (c : char) : bool :=
  (c <=? 31) || ((127 <=? c) && (c <=? 159)).

Definition sub_control (s : str) : str :=
  List.map (fun c => if is_control c then 32 else c) s.

Section WordBoundary.
(** The Unicode database behind [str.isalnum], which decides the class
    [\w] of a [str] pattern. *)
Variable unicode_isalnum : char -> bool.

Definition is_word (c : char) : bool := unicode_isalnum c || (c =? 95).

Definition opt_word (c : option char) : bool :=
  match c with Some c => is_word c | None => false end.

(** [\b] between the characters [before] and [after]. *)
Definition word_boundary (before after : option char) : bool :=
  xorb (opt_word before) (opt_word after).

(** [re.sub(r'\bword\b', repl, s)] for a non-empty literal [word];
    [skip] counts the characters of a match still to be passed over and
    [prev] is the character before the current position. *)
Fixpoint sub_word_from (word repl : str) (skip : nat) (prev : option char)
    (s : str) : str :=
  match s with
  | [] => []
  | c :: s' =>
      match skip with
      | S n => sub_word_from word repl n (Some c) s'
      | O =>
          if word_boundary prev (hd_error word)
             && starts_with word s
             && word_boundary (hd_error (rev word))
                  (hd_error (skipn (length word) s))
          then repl ++ sub_word_from word repl (length word - 1) (Some c) s'
          else c :: sub_word_from word repl 0 (Some c) s'
      end
  end.

Definition sub_word (word repl s : str) : str :=
  sub_word_from word repl 0 None s.

(** The repair pass applied to an undecodable Action Input. *)
Definition repair_json (json_str : str) : str :=
  let cleaned := json_str in
  let cleaned := sub_word (py "True") (py "true") cleaned in
  let cleaned := sub_word (py "False") (py "false") cleaned in
  let cleaned := sub_word (py "None") (py "null") cleaned in
  sub_control cleaned.
End WordBoundary.

(** ** [json.loads]

    The decoder of the standard library, on a [str]. A float is carried
    as its literal text. The fuel bounds the depth of the calls; of two
    nested calls one at least consumes a character, so that twice the
    length of the text, which [json_loads] gives, is never used up. *)

(** The exceptions of the decoder that are no [json.JSONDecodeError]:
    [ValueError] for an integer literal beyond the digit limit,
    [RecursionError] for containers nested too deep. *)
Inductive exception : Type :=
| ValueError
| RecursionError.

(** What a call of the decoder gives: the value, [json.JSONDecodeError],
    or one of the other exceptions. *)
Inductive decoded (A : Type) : Type :=
| Decoded (a : A)
| JSONDecodeError
| OtherError (e : exception).

Arguments JSONDecodeError {A}.
Arguments OtherError {A} e.

(** [sys.int_info.default_max_str_digits] *)
Definition int_max_str_digits : nat := 4300.

Definition json_ws (c : char) : bool :=
  (c =? 32) || (c =? 9) || (c =? 10) || (c =? 13).

Definition skip_ws : str -> str := lstrip_by json_ws.

Definition is_digit (c : char) : bool := (48 <=? c) && (c <=? 57).

Definition hex_value (c : char) : option N :=
  if is_digit c then Some (c - 48)
  else if (97 <=? c) && (c <=? 102) then Some (c - 87)
  else if (65 <=? c) && (c <=? 70) then Some (c - 55)
  else None.

Definition hex4 (a b c d : char) : option N :=
  match hex_value a, hex_value b, hex_value c, hex_value d with
  | Some a, Some b, Some c, Some d => Some (((a * 16 + b) * 16 + c) * 16 + d)
  | _, _, _, _ => None
  end.

(** The character denoted by a one-letter escape. *)
Definition escape_char (e : char) : option char :=
  if (e =? 34) || (e =? 92) || (e =? 47) then Some e
  else if e =? 98 then Some 8
  else if e =? 102 then Some 12
  else if e =? 110 then Some 10
  else if e =? 114 then Some 13
  else if e =? 116 then Some 9
  else None.

Definition is_high_surrogate (u : N) : bool := (55296 <=? u) && (u <=? 56319).
Definition is_low_surrogate (u : N) : bool := (56320 <=? u) && (u <=? 57343).
Definition join_surrogates (hi lo : N) : N :=
  65536 + ((hi - 55296) * 1024 + (lo - 56320)).

(** The body of a string, after its opening quote (strict mode: a raw
    control character is an error); [acc] holds the decoded characters in
    reverse. *)
Fixpoint scanstring (s : str) (acc : str) : option (str * str) :=
  match s with
  | [] => None
  | c :: s1 =>
      if c =? 34 then Some (rev acc, s1)
      else if c =? 92 then
        match s1 with
        | [] => None
        | e :: s2 =>
            if e =? 117 then
              match s2 with
              | a :: b :: c' :: d :: s3 =>
                  match hex4 a b c' d with
                  | None => None
                  | Some u =>
                      if is_high_surrogate u then
                        match s3 with
                        | b1 :: u1 :: a2 :: b2 :: c2 :: d2 :: s4 =>
                            if (b1 =? 92) && (u1 =? 117) then
                              match hex4 a2 b2 c2 d2 with
                              | None => None
                              | Some u2 =>
                                  if is_low_surrogate u2
                                  then scanstring s4 (join_surrogates u u2 :: acc)
                                  else scanstring s3 (u :: acc)
                              end
                            else scanstring s3 (u :: acc)
                        | _ => scanstring s3 (u :: acc)
                        end
                      else scanstring s3 (u :: acc)
                  end
              | _ => None
              end
            else
              match escape_char e with
              | Some x => scanstring s2 (x :: acc)
              | None => None
              end
        end
      else if c <=? 31 then None
      else scanstring s1 (c :: acc)
  end.

Fixpoint span_digits (s : str) : str * str :=
  match s with
  | c :: s' =>
      if is_digit c then let (ds, r) := span_digits s' in (c :: ds, r)
      else ([], s)
  | [] => ([], [])
  end.

Definition Z_of_digits (ds : str) : Z :=
  fold_left (fun acc d => (10 * acc + Z.of_N (d - 48))%Z) ds 0%Z.

(** A number at the start of [s]: an optional minus sign, then [0] or a
    non-zero digit followed by digits, then an optional fraction (a dot and
    one digit or more), then an optional exponent ([e] or [E], an optional
    sign, one digit or more). A lexeme with a fraction or an exponent is a
    float, any other an integer; the conversion of an integer with more
    digits than the limit raises [ValueError]. *)
Definition match_number (s : str) : decoded (value * str) :=
  let (sign, s1) :=
    match s with
    | c :: t => if c =? 45 then ([c], t) else ([], s)
    | [] => ([], s)
    end in
  let int_part :=
    match s1 with
    | c :: t =>
        if c =? 48 then Some ([c], t)
        else if is_digit c then
          let (ds, r) := span_digits t in Some (c :: ds, r)
        else None
    | [] => None
    end in
  match int_part with
  | None => JSONDecodeError
  | Some (digits, r) =>
      let (frac, r1) :=
        match r with
        | dot :: d :: t =>
            if (dot =? 46) && is_digit d then
              let (ds, r') := span_digits t in (dot :: d :: ds, r')
            else ([], r)
        | _ => ([], r)
        end in
      let (expo, r2) :=
        match r1 with
        | e :: t =>
            if (e =? 101) || (e =? 69) then
              let (sg, t1) :=
                match t with
                | c :: t' =>
                    if (c =? 43) || (c =? 45) then ([c], t') else ([], t)
                | [] => ([], t)
                end in
              match t1 with
              | d :: t2 =>
                  if is_digit d then
                    let (ds, r') := span_digits t2 in
                    (e :: sg ++ d :: ds, r')
                  else ([], r1)
              | [] => ([], r1)
              end
            else ([], r1)
        | [] => ([], r1)
        end in
      match frac, expo with
      | [], [] =>
          if (int_max_str_digits <? length digits)%nat
          then OtherError ValueError
          else
            Decoded (VInt (match sign with
                           | [] => Z_of_digits digits
                           | _ :: _ => (- Z_of_digits digits)%Z
                           end), r2)
      | _, _ => Decoded (VFloat (sign ++ digits ++ frac ++ expo), r2)
      end
  end.

(** A value at the start of [s]. [room] is the number of containers that
    may still be opened inside one another: a container that is met with
    no room left raises [RecursionError], before its content is looked
    at. *)
Fixpoint scan_once (fuel : nat) (room : nat) (s : str)
    : decoded (value * str) :=
  match fuel with
  | O => JSONDecodeError
  | S fuel' =>
      match s with
      | [] => JSONDecodeError
      | c :: s1 =>
          if c =? 34 then
            match scanstring s1 [] with
            | Some (x, r) => Decoded (VStr x, r)
            | None => JSONDecodeError
            end
          else if c =? 123 then
            match room with
            | O => OtherError RecursionError
            | S room' =>
                match skip_ws s1 with
                | c1 :: r =>
                    if c1 =? 125 then Decoded (VDict [], r)
                    else if c1 =? 34 then object_members fuel' room' r []
                    else JSONDecodeError
                | [] => JSONDecodeError
                end
            end
          else if c =? 91 then
            match room with
            | O => OtherError RecursionError
            | S room' =>
                match skip_ws s1 with
                | c1 :: r =>
                    if c1 =? 93 then Decoded (VList [], r)
                    else array_items fuel' room' (c1 :: r) []
                | [] => JSONDecodeError
                end
            end
          else if starts_with (py "null") s then Decoded (VNone, skipn 4 s)
          else if starts_with (py "true") s then
            Decoded (VBool true, skipn 4 s)
          else if starts_with (py "false") s then
            Decoded (VBool false, skipn 5 s)
          else if starts_with (py "NaN") s then
            Decoded (VFloat (py "NaN"), skipn 3 s)
          else if starts_with (py "Infinity") s then
            Decoded (VFloat (py "Infinity"), skipn 8 s)
          else if starts_with (py "-Infinity") s then
            Decoded (VFloat (py "-Infinity"), skipn 9 s)
          else match_number s
      end
  end

(** The members of an object, from just after the opening quote of a key. *)
with object_members (fuel : nat) (room : nat) (s : str) (pairs : dict value)
    : decoded (value * str) :=
  match fuel with
  | O => JSONDecodeError
  | S fuel' =>
      match scanstring s [] with
      | None => JSONDecodeError
      | Some (key, r) =>
          match skip_ws r with
          | colon :: r1 =>
              if colon =? 58 then
                match scan_once fuel' room (skip_ws r1) with
                | JSONDecodeError => JSONDecodeError
                | OtherError e => OtherError e
                | Decoded (v, r2) =>
                    let pairs := dict_set key v pairs in
                    match skip_ws r2 with
                    | c2 :: r3 =>
                        if c2 =? 125 then Decoded (VDict pairs, r3)
                        else if c2 =? 44 then
                          match skip_ws r3 with
                          | c3 :: r4 =>
                              if c3 =? 34
                              then object_members fuel' room r4 pairs
                              else JSONDecodeError
                          | [] => JSONDecodeError
                          end
                        else JSONDecodeError
                    | [] => JSONDecodeError
                    end
                end
              else JSONDecodeError
          | [] => JSONDecodeError
          end
      end
  end

(** The items of a non-empty array; [acc] holds them in reverse. *)
with array_items (fuel : nat) (room : nat) (s : str) (acc : list value)
    : decoded (value * str) :=
  match fuel with
  | O => JSONDecodeError
  | S fuel' =>
      match scan_once fuel' room s with
      | JSONDecodeError => JSONDecodeError
      | OtherError e => OtherError e
      | Decoded (v, r) =>
          match skip_ws r with
          | c :: r1 =>
              if c =? 93 then Decoded (VList (rev (v :: acc)), r1)
              else if c =? 44
              then array_items fuel' room (skip_ws r1) (v :: acc)
              else JSONDecodeError
          | [] => JSONDecodeError
          end
      end
  end.

(** [json.loads(s)], when the interpreter lets the decoder open
    [nesting_limit] containers inside the outermost one. *)
Definition json_loads (nesting_limit : nat) (s : str) : decoded value :=
  if starts_with [65279] s then JSONDecodeError
  else
    let s := skip_ws s in
    match scan_once (2 * length s + 2) (S nesting_limit) s with
    | Decoded (v, rest) =>
        match skip_ws rest with
        | [] => Decoded v
        | _ :: _ => JSONDecodeError
        end
    | JSONDecodeError => JSONDecodeError
    | OtherError e => OtherError e
    end.

(** ** [_parse_react_output] *)

(** What a call gives that an exception can leave. *)
Inductive outcome (A : Type) : Type :=
| Returns (a : A)
| Raises (e : exception).

Arguments Raises {A} e.

(** What a call of the parser gives: the dict it returns, by its ['type']
    entry (['final_answer'], ['action'], ['thought'] or ['unknown']), or
    the exception that leaves it. *)
Inductive ParseResult : Type :=
| P_final_answer (content : str)
| P_action (thought action : str) (action_input : value)
| P_thought (thought : str)
| P_unknown (content : str)
| P_raises (e : exception).

Section Parser.
Variable nesting_limit : nat.
Variable unicode_isalnum : char -> bool.

(** The clean-up of a non-empty action name: decorative quotes go, and
    call syntax is cut at the first parenthesis. *)
Definition clean_action_name (action : str) : str :=
  let action := strip_chars (py "`'" ++ dquote) action in
  if contains (py "(") action then strip (split_head 40 action)
  else action.

(** The text matched for the Action Input, stripped: the strict pattern
    first, the loose one when it fails. *)
Definition action_input_block (text : str) : option str :=
  let input_match :=
    match re_action_input_strict text with
    | Some g => Some g
    | None => re_action_input_loose text
    end in
  option_map strip input_match.

(** The Action Input of a reply whose action name is non-empty. The
    handler of the first decoding catches [json.JSONDecodeError] only, the
    handler of the second one every exception. *)
Definition parse_action_input (text : str) : outcome value :=
  match action_input_block text with
  | Some json_str =>
      match json_loads nesting_limit json_str with
      | Decoded action_input => Returns action_input
      | OtherError e => Raises e
      | JSONDecodeError =>
          match
            json_loads nesting_limit (repair_json unicode_isalnum json_str)
          with
          | Decoded action_input => Returns action_input
          | JSONDecodeError | OtherError _ => Returns (VDict [])
          end
      end
  | None => Returns (VDict [])
  end.

Definition _parse_react_output (text : str) : ParseResult :=
  match re_final_answer text with
  | Some g => P_final_answer (strip g)
  | None =>
      let thought :=
        match re_thought text with
        | Some g => strip g
        | None => []
        end in
      let action := option_map strip (re_action text) in
      let action :=
        match action with
        | Some ((_ :: _) as a) => Some (clean_action_name a)
        | _ => action
        end in
      match action with
      | Some ((_ :: _) as a) =>
          match parse_action_input text with
          | Returns action_input => P_action thought a action_input
          | Raises e => P_raises e
          end
      | _ =>
          match thought with
          | _ :: _ => P_thought thought
          | [] => P_unknown text
          end
      end
  end.
End Parser.

(** ** The agent *)

(** [ReActStep] *)
Record ReActStep : Type := {
  step_type : str;
  content : str;
  timestamp : str;
  tool_name : option str;
  tool_input : option value;
  tool_output : option str
}.

(** What [self.llm.invoke(...)] followed by [response.content.strip()]
    gives: the content, or an exception [e] carried as [str(e)]. *)
Inductive llm_outcome : Type :=
| LLMContent (content : str)
| LLMRaised (error_str : str).

(** What [tool.invoke(tool_input)] gives: an exception carried as
    [str(e)], a dict, a list, or any other object carried as [str(result)]. *)
Inductive tool_outcome : Type :=
| ToolRaised (error_str : str)
| ToolDict (items : dict value)
| ToolList (items : list value)
| ToolOther (result_str : str).

(** A message of the conversation history: whether its class is
    [HumanMessage], and its [content] attribute when it has one. *)
Record Message : Type := {
  is_human : bool;
  message_content : option str
}.

Definition nl : str := [newline].
Definition quoted (s : str) : str := dquote ++ s ++ dquote.

(** [self.react_prompt_template.format(tool_descriptions=..., input=...,
    agent_scratchpad=...)] *)
Definition react_prompt (tool_descriptions input agent_scratchpad : str)
    : str :=
  py "You are a helpful AI Sales Assistant using the ReAct (Reasoning + Acting) framework.

You have access to the following tools:
" ++ tool_descriptions ++ py "

CRITICAL: You MUST follow this EXACT format. Do NOT write conversational text. Do NOT describe what you "
  ++ quoted (py "would") ++ py " do.

**REQUIRED FORMAT:**

Thought: [Your reasoning - one concise sentence]
Action: [EXACT tool name from the list above]
Action Input: {" ++ quoted (py "arg1") ++ py ": " ++ quoted (py "value1")
  ++ py ", " ++ quoted (py "arg2") ++ py ": " ++ quoted (py "value2")
  ++ py "}

STOP HERE! The system will execute the tool and provide the Observation. DO NOT continue writing!

**STRICT RULES:**
1. ALWAYS start with " ++ quoted (py "Thought:") ++ py " then your reasoning
2. ALWAYS use EXACT tool names from the list  
3. Action Input MUST be valid JSON - use lowercase true/false/null (NOT True/False/None)
4. STOP after Action Input - do NOT write " ++ quoted (py "Observation:")
  ++ py "
5. The system will execute the tool and add the real Observation
6. Do NOT write " ++ quoted (py "I will") ++ py " or "
  ++ quoted (py "I would") ++ py " - JUST DO IT
7. When task is complete, write " ++ quoted (py "Final Answer:")
  ++ py " immediately
8. **NEVER repeat actions** - check history below before acting
9. If you see " ++ quoted (py "[END_TASK]")
  ++ py " in Observation, provide Final Answer NOW
10. Maximum 3-4 actions per task, then conclude



**YOUR TURN:**

Question: " ++ input ++ py "

**Previous actions (DO NOT REPEAT):**
" ++ agent_scratchpad ++ py "

Continue (or Final Answer if done):
".

(** [s.lower()], exact on every ASCII letter it yields (from [A]..[Z], from
    U+0130 and from U+212A); other code points stay as they are, which
    changes no search for an ASCII needle. *)
Definition str_lower (s : str) : str :=
  flat_map
    (fun c =>
       if c =? 304 then [105; 775]
       else if c =? 8490 then [107]
       else [ascii_lower c])
    s.

(** The user-facing text of a failed model invocation. *)
Definition llm_error_content (error_str : str) : str :=
  let is_context_error :=
    contains (py "maximum context length") (str_lower error_str)
    || contains (py "tokens") (str_lower error_str)
    || contains (py "context") (str_lower error_str) in
  if is_context_error then
    [9888; 65039] ++ py " **Context Length Exceeded!**" ++ nl ++ nl
    ++ py "The conversation has exceeded the maximum token limit." ++ nl ++ nl
    ++ py "**Error:** " ++ error_str ++ nl ++ nl
    ++ py "**Solution:** Please clear the chat history using the '"
    ++ [129529] ++ py " Clear Chat' button in the sidebar and start a new conversation."
  else py "LLM error: " ++ error_str.

Definition cancelled_text : str := py "Task cancelled by user".

Definition max_iterations_text (max_iterations : Z) : str :=
  py "I've reached the maximum number of reasoning steps ("
  ++ str_of_Z max_iterations
  ++ py "). Based on what I've accomplished, the task has been completed.".

Definition email_tools : list str :=
  [py "search_and_fetch_emails"; py "batch_fetch_emails"; py "fetch_email";
   py "list_unread"; py "dynamic_mail_fetch_tool"].

(** The conversation context built from the last six messages. *)
Definition conversation_context (conversation_history : option (list Message))
    : str :=
  match conversation_history with
  | Some ((_ :: _) as history) =>
      nl ++ nl ++ py "**Previous Conversation:**" ++ nl
      ++ flat_map
           (fun msg =>
              match message_content msg with
              | Some c =>
                  let role :=
                    if is_human msg then py "User" else py "Assistant" in
                  let c' :=
                    if (800 <? length c)%nat then firstn 800 c ++ py "..."
                    else c in
                  nl ++ role ++ py ": " ++ c' ++ nl
              | None => []
              end)
           (skipn (length history - 6) history)
      ++ nl ++ py "**Current Question:**" ++ nl
  | _ => []
  end.

(** How one pass through the loop body ends: by [return], by falling
    through to the loop test with the updated scratchpad, or by an
    exception. *)
Inductive flow : Type :=
| Return (answer : str)
| Continue (agent_scratchpad : str)
| Raise (e : exception).

Definition plain_step (kind text ts : str) : ReActStep :=
  {| step_type := kind; content := text; timestamp := ts;
     tool_name := None; tool_input := None; tool_output := None |}.

Definition action_step (action : str) (action_input : value) (ts : str)
    : ReActStep :=
  {| step_type := py "action"; content := action; timestamp := ts;
     tool_name := Some action; tool_input := Some action_input;
     tool_output := None |}.

Definition observation_step (action observation ts : str) : ReActStep :=
  {| step_type := py "observation"; content := observation;
     timestamp := ts; tool_name := Some action; tool_input := None;
     tool_output := Some observation |}.

Section Agent.
(** The state of everything outside the agent. *)
Variable W : Type.
Variable nesting_limit : nat.
Variable unicode_isalnum : char -> bool.
(** [json.dumps(obj)] and [json.dumps(obj, default=str, indent=2)] *)
Variable json_dumps : value -> str.
Variable json_dumps_indent2 : value -> str.
(** [datetime.now().isoformat()] *)
Variable now_isoformat : W -> str * W.
(** [datetime.now(ZoneInfo("Asia/Kolkata"))] rendered by the [strftime]
    call of [run_streaming] *)
Variable now_kolkata : W -> str * W.

Record Tool : Type := {
  name : str;
  description : option str;
  invoke : value -> W -> tool_outcome * W
}.

Record ReActAgent : Type := {
  llm : str -> W -> llm_outcome * W;
  tools : list Tool;
  system_prompt : str
}.

(** [self.tool_map], as [__init__] builds it. *)
Definition tool_map (self : ReActAgent) : dict Tool :=
  dict_of_pairs (List.map (fun tool => (name tool, tool)) (tools self)).

Definition _format_tool_descriptions (self : ReActAgent) : str :=
  join nl
    (List.map
       (fun tool =>
          py "- " ++ name tool ++ py ": "
          ++ match description tool with
             | Some ((_ :: _) as d) => d
             | _ => py "No description"
             end)
       (tools self)).

Definition _execute_tool (self : ReActAgent) (tool_name : str)
    (tool_input : value) (w : W) : str * W :=
  match dict_get tool_name (tool_map self) with
  | None =>
      let available := join (py ", ") (keys (tool_map self)) in
      (py "Error: Tool '" ++ tool_name
       ++ py "' not found. Available tools: " ++ firstn 200 available
       ++ py "...", w)
  | Some tool =>
      let finish (result_data : value) : str :=
        let result_data :=
          if existsb (str_eqb tool_name) email_tools
          then _clean_email_data result_data
          else result_data in
        json_dumps_indent2 result_data in
      let (result, w') := invoke tool tool_input w in
      match result with
      | ToolRaised e =>
          (py "Error executing tool '" ++ tool_name ++ py "': " ++ e, w')
      | ToolDict items => (finish (VDict items), w')
      | ToolList items => (finish (VList items), w')
      | ToolOther result_str =>
          match json_loads nesting_limit result_str with
          | Decoded result_data => (finish result_data, w')
          | JSONDecodeError | OtherError _ => (result_str, w')
          end
      end
  end.

(** *** [run_streaming]

    The generator is run to its end: a computation acts on the world and
    on the list of the steps yielded so far. *)

Record run_state : Type := {
  world : W;
  emitted : list ReActStep
}.

Definition M (A : Type) : Type := run_state -> A * run_state.

Definition ret (A : Type) (a : A) : M A := fun st => (a, st).

Definition bind (A B : Type) (m : M A) (f : A -> M B) : M B :=
  fun st => f (fst (m st)) (snd (m st)).

(** A call to the outside. *)
Definition call (A : Type) (f : W -> A * W) : M A :=
  fun st =>
    (fst (f (world st)),
     {| world := snd (f (world st)); emitted := emitted st |}).

(** [if callback: callback(step)] followed by [yield step] *)
Definition yield (callback : option (ReActStep -> W -> W))
    (step : ReActStep) : M unit :=
  fun st =>
    (tt,
     {| world :=
          match callback with
          | Some cb => cb step (world st)
          | None => world st
          end;
        emitted := emitted st ++ [step] |}).

Notation "x <- m ;; k" := (bind m (fun x => k))
  (at level 61, m at next level, right associativity).
Notation "m ;;; k" := (bind m (fun _ => k))
  (at level 61, right associativity).

(** What an action adds to the scratchpad. *)
Definition scratchpad_after_action (agent_scratchpad thought action : str)
    (action_input : value) (observation : str) : str :=
  let agent_scratchpad :=
    agent_scratchpad
    ++ (nl ++ py "Thought: " ++ thought ++ nl)
    ++ (py "Action: " ++ action ++ nl)
    ++ (py "Action Input: " ++ json_dumps action_input ++ nl)
    ++ (py "Observation: " ++ observation ++ nl) in
  if contains (py "[END_TASK]") observation then
    agent_scratchpad
    ++ (nl ++ py "[SYSTEM]: Task marked as complete. Provide Final Answer now." ++ nl)
  else agent_scratchpad.

Section Run.
Variable self : ReActAgent.
Variable user_input : str.
Variable max_iterations : Z.
Variable callback : option (ReActStep -> W -> W).
Variable conversation_history : option (list Message).
Variable cancellation_callback : option (W -> bool * W).

(** [cancellation_callback and cancellation_callback()] *)
Definition cancellation_requested : M bool :=
  match cancellation_callback with
  | Some is_cancelled => call is_cancelled
  | None => ret false
  end.

Definition full_prompt (time_context agent_scratchpad : str) : str :=
  let prompt :=
    react_prompt (_format_tool_descriptions self) user_input
      agent_scratchpad in
  let prompt := conversation_context conversation_history ++ prompt in
  match system_prompt self with
  | _ :: _ => system_prompt self ++ nl ++ nl ++ time_context ++ prompt
  | [] => time_context ++ prompt
  end.

(** The body of the [while] loop, after [iteration += 1]. *)
Definition iteration_body (time_context agent_scratchpad : str) : M flow :=
  cancelled <- cancellation_requested ;;
  if cancelled then
    ts <- call now_isoformat ;;
    yield callback (plain_step (py "final_answer") cancelled_text ts) ;;;
    ret (Return cancelled_text)
  else
    response <- call (llm self (full_prompt time_context agent_scratchpad)) ;;
    match response with
    | LLMRaised error_str =>
        let error_content := llm_error_content error_str in
        ts <- call now_isoformat ;;
        yield callback (plain_step (py "error") error_content ts) ;;;
        ret (Return error_content)
    | LLMContent response_content =>
        let llm_output := strip response_content in
        match _parse_react_output nesting_limit unicode_isalnum llm_output with
        | P_raises e => ret (Raise e)
        | P_final_answer answer =>
            ts <- call now_isoformat ;;
            yield callback (plain_step (py "final_answer") answer ts) ;;;
            ret (Return answer)
        | P_action thought action action_input =>
            match thought with
            | _ :: _ =>
                ts <- call now_isoformat ;;
                yield callback (plain_step (py "thought") thought ts)
            | [] => ret tt
            end ;;;
            ts <- call now_isoformat ;;
            yield callback (action_step action action_input ts) ;;;
            observation <- call (_execute_tool self action action_input) ;;
            ts <- call now_isoformat ;;
            yield callback (observation_step action observation ts) ;;;
            ret (Continue
                   (scratchpad_after_action agent_scratchpad thought
                      action action_input observation))
        | P_thought thought =>
            ts <- call now_isoformat ;;
            yield callback (plain_step (py "thought") thought ts) ;;;
            ret (Continue
                   (agent_scratchpad
                    ++ (nl ++ py "Thought: " ++ thought ++ nl)))
        | P_unknown _ =>
            ret (Continue (agent_scratchpad ++ (nl ++ llm_output ++ nl)))
        end
    end.

(** The ways through the loop body: how the pass ends and the steps it
    yields. The parser is called outside every [try]: its exception ends
    the pass before a step of the iteration is yielded. *)
Inductive body_case (time_context agent_scratchpad : str)
    (st : run_state) : flow -> list ReActStep -> Prop :=
| case_cancelled ts :
    fst (cancellation_requested st) = true ->
    body_case time_context agent_scratchpad st (Return cancelled_text)
      [plain_step (py "final_answer") cancelled_text ts]
| case_llm_raised error_str w ts :
    fst (cancellation_requested st) = false ->
    llm self (full_prompt time_context agent_scratchpad)
      (world (snd (cancellation_requested st)))
    = (LLMRaised error_str, w) ->
    body_case time_context agent_scratchpad st
      (Return (llm_error_content error_str))
      [plain_step (py "error") (llm_error_content error_str) ts]
| case_final_answer response_content w answer ts :
    fst (cancellation_requested st) = false ->
    llm self (full_prompt time_context agent_scratchpad)
      (world (snd (cancellation_requested st)))
    = (LLMContent response_content, w) ->
    _parse_react_output nesting_limit unicode_isalnum (strip response_content)
    = P_final_answer answer ->
    body_case time_context agent_scratchpad st (Return answer)
      [plain_step (py "final_answer") answer ts]
| case_action response_content w thought action action_input
    w1 observation w2 ts1 ts2 ts3 :
    fst (cancellation_requested st) = false ->
    llm self (full_prompt time_context agent_scratchpad)
      (world (snd (cancellation_requested st)))
    = (LLMContent response_content, w) ->
    _parse_react_output nesting_limit unicode_isalnum (strip response_content)
    = P_action thought action action_input ->
    _execute_tool self action action_input w1 = (observation, w2) ->
    body_case time_context agent_scratchpad st
      (Continue
         (scratchpad_after_action agent_scratchpad thought action
            action_input observation))
      (match thought with
       | _ :: _ => [plain_step (py "thought") thought ts1]
       | [] => []
       end
       ++ [action_step action action_input ts2;
           observation_step action observation ts3])
| case_thought response_content w thought ts :
    fst (cancellation_requested st) = false ->
    llm self (full_prompt time_context agent_scratchpad)
      (world (snd (cancellation_requested st)))
    = (LLMContent response_content, w) ->
    _parse_react_output nesting_limit unicode_isalnum (strip response_content)
    = P_thought thought ->
    body_case time_context agent_scratchpad st
      (Continue
         (agent_scratchpad ++ (nl ++ py "Thought: " ++ thought ++ nl)))
      [plain_step (py "thought") thought ts]
| case_unknown response_content w raw :
    fst (cancellation_requested st) = false ->
    llm self (full_prompt time_context agent_scratchpad)
      (world (snd (cancellation_requested st)))
    = (LLMContent response_content, w) ->
    _parse_react_output nesting_limit unicode_isalnum (strip response_content)
    = P_unknown raw ->
    body_case time_context agent_scratchpad st
      (Continue
         (agent_scratchpad ++ (nl ++ strip response_content ++ nl)))
      []
| case_parse_raised response_content w e :
    fst (cancellation_requested st) = false ->
    llm self (full_prompt time_context agent_scratchpad)
      (world (snd (cancellation_requested st)))
    = (LLMContent response_content, w) ->
    _parse_react_output nesting_limit unicode_isalnum (strip response_content)
    = P_raises e ->
    body_case time_context agent_scratchpad st (Raise e) [].

(** What a run that returns leaves behind: the steps it yielded, the
    value it returned, the final value of [iteration], and the world. *)
Record run_result : Type := {
  steps : list ReActStep;
  answer : str;
  iterations : Z;
  final_world : W
}.

Definition finish (answer : str) (iteration : Z) (st : run_state)
    : run_result :=
  {| steps := emitted st; answer := answer; iterations := iteration;
     final_world := world st |}.

(** How a run ends: the generator returns, or an exception leaves it,
    with [iteration] and the state as they are then. *)
Inductive run_end : Type :=
| Returned (r : run_result)
| Raised (e : exception) (iteration : Z) (st : run_state).

(** The steps that a run has yielded, the value of [iteration] and the
    world when it ends, however it ends. *)
Definition yielded (e : run_end) : list ReActStep :=
  match e with
  | Returned r => steps r
  | Raised _ _ st => emitted st
  end.

Definition counter (e : run_end) : Z :=
  match e with
  | Returned r => iterations r
  | Raised _ iteration _ => iteration
  end.

Definition world_after (e : run_end) : W :=
  match e with
  | Returned r => final_world r
  | Raised _ _ st => world st
  end.

(** What the consumer of the generator sees when it ends: the value
    returned, or the exception. *)
Definition ending (e : run_end) : outcome str :=
  match e with
  | Returned r => Returns (answer r)
  | Raised x _ _ => Raises x
  end.

(** The steps after the loop: the cap was reached. *)
Definition max_iterations_reached : M str :=
  ts <- call now_isoformat ;;
  yield callback
    (plain_step (py "final_answer") (max_iterations_text max_iterations)
       ts) ;;;
  ret (max_iterations_text max_iterations).

(** [while iteration < max_iterations: ...] and what follows it; [None]
    when the fuel does not suffice. *)
Fixpoint while_loop (fuel : nat) (time_context : str) (iteration : Z)
    (agent_scratchpad : str) (st : run_state) : option run_end :=
  match fuel with
  | O => None
  | S fuel' =>
      if (iteration <? max_iterations)%Z then
        let iteration := (iteration + 1)%Z in
        match iteration_body time_context agent_scratchpad st with
        | (Return answer, st') => Some (Returned (finish answer iteration st'))
        | (Continue agent_scratchpad', st') =>
            while_loop fuel' time_context iteration agent_scratchpad' st'
        | (Raise e, st') => Some (Raised e iteration st')
        end
      else
        let (answer, st') := max_iterations_reached st in
        Some (Returned (finish answer iteration st'))
  end.

(** What precedes the loop: the time context, and the state in which
    the loop starts. *)
Definition time_context_at (w : W) : str :=
  py "**CURRENT TIME:** " ++ fst (now_kolkata w) ++ nl ++ nl.

Definition initial_state (w : W) : run_state :=
  {| world := snd (now_kolkata w); emitted := [] |}.

Definition run_streaming (w : W) : option run_end :=
  while_loop (S (Z.to_nat max_iterations)) (time_context_at w) 0 []
    (initial_state w).

(** The first [k] passes through the loop body from a loop state, when
    each of them falls through to the loop test: the loop state they lead
    to. *)
Fixpoint passes (k : nat) (time_context : str) (iteration : Z)
    (agent_scratchpad : str) (st : run_state)
    : option (Z * str * run_state) :=
  match k with
  | O => Some (iteration, agent_scratchpad, st)
  | S k' =>
      if (iteration <? max_iterations)%Z then
        match iteration_body time_context agent_scratchpad st with
        | (Return _, _) | (Raise _, _) => None
        | (Continue agent_scratchpad', st') =>
            passes k' time_context (iteration + 1)%Z agent_scratchpad' st'
        end
      else None
  end.

(** The loop state after the first [k] passes of a run, when none of
    them returns. *)
Definition first_passes (k : nat) (w : W)
    : option (Z * str * run_state) :=
  passes k (time_context_at w) 0 [] (initial_state w).
End Run.
End Agent.

(** ** Notions used to state the properties *)

(** The redaction as the specification words it: the field is dropped from
    every mapping, nested mappings and sequences are redacted in turn, and
    nothing else changes. *)
Fixpoint redacted (v : value) : value :=
  match v with
  | VList items => VList (List.map redacted items)
  | VDict items =>
      VDict
        (filter (fun kv => negb (str_eqb (fst kv) body_html))
           (List.map (fun kv => (fst kv, redacted (snd kv))) items))
  | _ => v
  end.

(** The key [k] occurs in some mapping of [v], at any depth. *)
Fixpoint mentions (k : str) (v : value) : bool :=
  match v with
  | VList items => existsb (mentions k) items
  | VDict items =>
      existsb (fun kv => str_eqb (fst kv) k || mentions k (snd kv)) items
  | _ => false
  end.

Definition is_container (v : value) : bool :=
  match v with
  | VList _ | VDict _ => true
  | _ => false
  end.

(** One round of the loop over [data.items()]. *)
Definition clean_item (cleaned : dict value) (kv : str * value) : dict value :=
  if str_eqb (fst kv) body_html then cleaned
  else dict_set (fst kv) (_clean_email_data (snd kv)) cleaned.

(** The items that the redaction keeps. *)
Definition keep (kv : str * value) : bool := negb (str_eqb (fst kv) body_html).

(** Kinds of steps. *)
Definition has_kind (kind : str) (s : ReActStep) : bool :=
  str_eqb (step_type s) kind.

Definition is_action_step : ReActStep -> bool := has_kind (py "action").
Definition is_observation_step : ReActStep -> bool :=
  has_kind (py "observation").
Definition is_error_step : ReActStep -> bool := has_kind (py "error").
Definition is_final_answer_step : ReActStep -> bool :=
  has_kind (py "final_answer").

Definition count_kind (kind : str) (l : list ReActStep) : nat :=
  length (filter (has_kind kind) l).

(** A step that does not end a run: a thought, an action or an observation. *)
Definition is_progress_step (s : ReActStep) : bool :=
  has_kind (py "thought") s || is_action_step s || is_observation_step s.

(** Every action step is followed at once by an observation step, and an
    observation step comes nowhere else; [pending] tells that the step
    before was an action. *)
Fixpoint well_paired (pending : bool) (l : list ReActStep) : bool :=
  match l with
  | [] => negb pending
  | s :: l' =>
      if pending then is_observation_step s && well_paired false l'
      else if is_action_step s then well_paired true l'
      else negb (is_observation_step s) && well_paired false l'
  end.

(** The steps of one action/observation cycle: the thought when there is
    one, the action, the observation of that action. *)
Inductive cycle : list ReActStep -> Prop :=
| cycle_steps thought action action_input observation ts1 ts2 ts3 :
    cycle
      (match thought with
       | _ :: _ => [plain_step (py "thought") thought ts1]
       | [] => []
       end
       ++ [action_step action action_input ts2;
           observation_step action observation ts3]).

(** [m] is the pattern text [pat] up to case, the way [re.IGNORECASE]
    compares an ASCII pattern with a text. *)
Fixpoint matches_ignorecase (pat m : str) : bool :=
  match pat, m with
  | [], [] => true
  | p :: pat', c :: m' => lit_ignorecase p c && matches_ignorecase pat' m'
  | _, _ => false
  end.

Definition is_final_marker (m : str) : bool :=
  matches_ignorecase (py "Final Answer:") m.

(** No suffix of [before], continued by [rest], starts with a marker of a
    final answer. *)
Fixpoint no_final_marker_from (before rest : str) : bool :=
  match before with
  | [] => true
  | _ :: before' =>
      match lit (py "Final Answer:") accept (before ++ rest) with
      | Some _ => false
      | None => no_final_marker_from before' rest
      end
  end.

(** [str.isalnum] on the code points below 256, which are all that the
    sample inputs use. *)
Definition isalnum_below_256 (c : char) : bool :=
  is_digit c
  || ((65 <=? c) && (c <=? 90)) || ((97 <=? c) && (c <=? 122))
  || (c =? 170) || (c =? 178) || (c =? 179) || (c =? 181) || (c =? 185)
  || (c =? 186) || ((188 <=? c) && (c <=? 190))
  || ((192 <=? c) && (c <=? 214)) || ((216 <=? c) && (c <=? 246))
  || ((248 <=? c) && (c <=? 255)).

(** ** Induction on values *)

Section ValueInduction.
Variable P : value -> Prop.
Hypothesis HNone : P VNone.
Hypothesis HBool : forall b, P (VBool b).
Hypothesis HInt : forall z, P (VInt z).
Hypothesis HFloat : forall x, P (VFloat x).
Hypothesis HStr : forall s, P (VStr s).
Hypothesis HList : forall items, Forall P items -> P (VList items).
Hypothesis HDict :
  forall items, Forall (fun kv => P (snd kv)) items -> P (VDict items).

Fixpoint value_ind (v : value) : P v :=
  match v with
  | VNone => HNone
  | VBool b => HBool b
  | VInt z => HInt z
  | VFloat x => HFloat x
  | VStr s => HStr s
  | VList items =>
      HList
        ((fix all (l : list value) : Forall P l :=
            match l with
            | [] => Forall_nil _
            | x :: l' => Forall_cons _ (value_ind x) (all l')
            end) items)
  | VDict items =>
      HDict
        ((fix all (l : dict value) : Forall (fun kv => P (snd kv)) l :=
            match l with
            | [] => Forall_nil _
            | kv :: l' => Forall_cons _ (value_ind (snd kv)) (all l')
            end) items)
  end.
End ValueInduction.

(** ** Sample inputs *)

(** A record with the field at two depths, once inside a sequence. *)
Definition sample_email : value :=
  VDict
    [(py "subject", VStr (py "Hello"));
     (body_html, VStr (py "<html></html>"));
     (py "attachments",
      VList [VDict [(py "name", VStr (py "a.pdf")); (body_html, VNone)];
             VInt 2]);
     (py "unread", VBool true)].

(** A reply with a final answer after other markers. *)
Definition sample_before : str :=
  py "Thought: almost there" ++ nl ++ py "Action: search" ++ nl.
Definition sample_marker : str := py "FINAL answer:".
Definition sample_after : str := py "  42 is the answer. Action: none " ++ nl.

(** A reply with an action and a final answer. *)
Definition sample_final_and_action : str :=
  py "Final Answer: done" ++ nl ++ py "Action: search".

(** Replies with no Action Input, with one that no repair decodes, and with
    Python literals under double-quoted and under single-quoted keys. *)
Definition sample_no_input : str :=
  py "Thought: look it up" ++ nl ++ py "Action: `search(query)`".

Definition sample_garbled_input : str :=
  py "Action: search" ++ nl ++ py "Action Input: {query: True,}".

(** An integer literal of 4301 digits, an Action Input block that holds
    it, and the block with a Python literal before it. *)
Definition oversized_integer : str := 49 :: repeat 48 4300.

Definition oversized_block : str :=
  py "{" ++ quoted (py "n") ++ py ": " ++ oversized_integer ++ py "}".

Definition oversized_block_after_literal : str :=
  py "{" ++ quoted (py "ok") ++ py ": True, " ++ quoted (py "n") ++ py ": "
  ++ oversized_integer ++ py "}".

Definition sample_oversized_input : str :=
  py "Thought: count" ++ nl ++ py "Action: search" ++ nl
  ++ py "Action Input: " ++ oversized_block.

Definition sample_oversized_after_literal : str :=
  py "Thought: count" ++ nl ++ py "Action: search" ++ nl
  ++ py "Action Input: " ++ oversized_block_after_literal.

Definition payload_double_quoted : str :=
  py "{" ++ quoted (py "ok") ++ py ": True, " ++ quoted (py "v")
  ++ py ": None}".

Definition payload_single_quoted : str := py "{'ok': True, 'v': None}".

Definition sample_double_quoted : str :=
  py "Thought: t" ++ nl ++ py "Action: lookup" ++ nl
  ++ py "Action Input: " ++ payload_double_quoted.

Definition sample_single_quoted : str :=
  py "Thought: t" ++ nl ++ py "Action: lookup" ++ nl
  ++ py "Action Input: " ++ payload_single_quoted.

(** The map [{"ok": true, "v": null}]. *)
Definition ok_true_v_null : value :=
  VDict [(py "ok", VBool true); (py "v", VNone)].

(** Sample runs. The world counts the cancellation checks made so far; the
    clock stands still; the serializer stands for [json.dumps] on the empty
    map, the only value the samples serialize. *)
Definition sample_now (w : nat) : str * nat := (py "2026-01-05T09:00:00", w).

(** Room for a thousand containers in one another. *)
Definition sample_nesting_limit : nat := 999.

Definition sample_dumps (v : value) : str := py "{}".

Definition search_tool : Tool nat :=
  {| name := py "search";
     description := Some (py "Search the web");
     invoke := fun _ w => (ToolOther (py "3 results"), w) |}.

Definition agent_replying (reply : llm_outcome) : ReActAgent nat :=
  {| llm := fun _ w => (reply, w);
     tools := [search_tool];
     system_prompt := [] |}.

(** A model that always asks for the tool [search]. *)
Definition acting_agent : ReActAgent nat :=
  agent_replying
    (LLMContent
       (py "Thought: dig" ++ nl ++ py "Action: search" ++ nl
        ++ py "Action Input: {}")).

(** A model that only thinks. *)
Definition thinking_agent : ReActAgent nat :=
  agent_replying (LLMContent (py "Thought: hmm")).

(** A model whose invocation fails. *)
Definition failing_agent : ReActAgent nat :=
  agent_replying (LLMRaised (py "maximum context length is 4096 tokens")).

(** A cancellation predicate that holds from its third consultation on. *)
Definition cancel_at_third_check (w : nat) : bool * nat := ((2 <=? w)%nat, S w).

Definition sample_run (agent : ReActAgent nat) (max_iterations : Z)
    (cancellation_callback : option (nat -> bool * nat))
    : option (run_end nat) :=
  run_streaming sample_nesting_limit isalnum_below_256 sample_dumps
    sample_dumps sample_now
    sample_now agent (py "What is new?") max_iterations None None
    cancellation_callback 0%nat.

(** ** [run]

    The steps of [run_streaming], called with the question and the cap
    only, are collected; the content of the last ['final_answer'] step is
    the result. An exception that leaves the generator leaves [run]. *)
Definition run (W : Type) (nesting_limit : nat)
    (unicode_isalnum : char -> bool)
    (json_dumps json_dumps_indent2 : value -> str)
    (now_isoformat now_kolkata : W -> str * W) (self : ReActAgent W)
    (user_input : str) (max_iterations : Z) (w : W)
    : option (outcome str * W) :=
  match
    run_streaming nesting_limit unicode_isalnum json_dumps json_dumps_indent2
      now_isoformat now_kolkata self user_input max_iterations None None
      None w
  with
  | Some (Returned r) =>
      Some
        (Returns
           (match find is_final_answer_step (rev (steps r)) with
            | Some step => content step
            | None => py "No answer generated."
            end),
         final_world r)
  | Some (Raised e _ st) => Some (Raises e, world st)
  | None => None
  end.

(** ** Further notions used to state the properties *)

Definition is_dict (v : value) : bool :=
  match v with
  | VDict _ => true
  | _ => false
  end.

(** The data that the dispatcher serializes: a dict or a list as the tool
    returned it, any other result when its text decodes. *)
Definition result_data (nesting_limit : nat) (result : tool_outcome)
    : option value :=
  match result with
  | ToolRaised _ => None
  | ToolDict items => Some (VDict items)
  | ToolList items => Some (VList items)
  | ToolOther result_str =>
      match json_loads nesting_limit result_str with
      | Decoded data => Some data
      | JSONDecodeError | OtherError _ => None
      end
  end.

(** The continuation of a matcher is run on a suffix of the text. *)
Definition on_suffix (A : Type)
    (m : (str -> option A) -> str -> option A) : Prop :=
  forall k s r,
    m k s = Some r -> exists before s', s = before ++ s' /\ k s' = Some r.

(** A matcher that ends a pattern returns a suffix of its text. *)
Definition returns_suffix (m : str -> option str) : Prop :=
  forall s r, m s = Some r -> exists consumed, s = consumed ++ r.

(** A text that does not start with a character to drop. *)
Definition clean_head (drop : char -> bool) (s : str) : bool :=
  match s with
  | [] => true
  | c :: _ => negb (drop c)
  end.

(** The characters that the clean-up of an action name strips. *)
Definition is_name_quote : char -> bool := mem_char (py "`'" ++ dquote).

(** The line of a tool in the prompt, up to its description. *)
Definition tool_line_head (W : Type) (tool : Tool W) : str :=
  py "- " ++ name tool ++ py ": ".

(** The most that one message of the history adds to the prompt, and the
    most that the whole conversation context adds. *)
Definition message_bound : nat := 816.
Definition conversation_context_bound : nat := 52 + 6 * message_bound.

(** Every action step names its tool in [tool_name] as in [content] and
    carries an input; it is followed at once by an observation step that
    names the same tool and carries its content as [tool_output]; an
    observation step comes nowhere else, and the other steps name no
    tool. [pending] is the tool of the action step before, if the step
    before was one. *)
Definition opt_str_eqb (a b : option str) : bool :=
  match a, b with
  | Some x, Some y => str_eqb x y
  | None, None => true
  | _, _ => false
  end.

Fixpoint answered (pending : option str) (l : list ReActStep) : bool :=
  match l with
  | [] =>
      match pending with
      | None => true
      | Some _ => false
      end
  | s :: l' =>
      match pending with
      | Some action =>
          is_observation_step s
          && opt_str_eqb (tool_name s) (Some action)
          && opt_str_eqb (tool_output s) (Some (content s))
          && answered None l'
      | None =>
          if is_action_step s then
            opt_str_eqb (tool_name s) (Some (content s))
            && match tool_input s with
               | Some _ => true
               | None => false
               end
            && answered (Some (content s)) l'
          else
            negb (is_observation_step s)
            && opt_str_eqb (tool_name s) None
            && opt_str_eqb (tool_output s) None
            && answered None l'
      end
  end.

(** A computation that raises the quantity [measure] of the world by at
    most [bound]. *)
Definition costs (W A : Type) (measure : W -> nat) (bound : nat)
    (m : M W A) : Prop :=
  forall st,
    (measure (world st) <= measure (world (snd (m st))))%nat
    /\ (measure (world (snd (m st))) <= measure (world st) + bound)%nat.

(** ** Further sample inputs *)

(** A model whose reply holds the integer of 4301 digits. *)
Definition overflowing_agent : ReActAgent nat :=
  agent_replying (LLMContent sample_oversized_input).

(** A cancellation predicate that never holds and counts its
    consultations. *)
Definition count_checks (w : nat) : bool * nat := (false, S w).

(** A model that thinks twice and then answers. *)
Definition patient_agent : ReActAgent nat :=
  {| llm := fun _ w =>
       (if (3 <=? w)%nat then LLMContent (py "Final Answer: done")
        else LLMContent (py "Thought: hmm"), w);
     tools := [search_tool];
     system_prompt := [] |}.

(** An email tool whose result is a JSON text with the field. *)
Definition fetch_email_tool : Tool nat :=
  {| name := py "fetch_email";
     description := None;
     invoke := fun _ w =>
       (ToolOther
          (py "{" ++ quoted (py "subject") ++ py ": " ++ quoted (py "Hi")
           ++ py ", " ++ quoted body_html ++ py ": " ++ quoted (py "<p>")
           ++ py "}"), w) |}.

Definition mail_agent : ReActAgent nat :=
  {| llm := fun _ w => (LLMContent (py "Final Answer: done"), w);
     tools := [search_tool; fetch_email_tool];
     system_prompt := py "You read mail." |}.

(** A model and a tool that leave their mark on the world: the model adds
    1 to it, the tool adds 10. *)
Definition metered_search_tool : Tool nat :=
  {| name := py "search";
     description := None;
     invoke := fun _ w => (ToolOther (py "3 results"), (w + 10)%nat) |}.

Definition metered_agent : ReActAgent nat :=
  {| llm := fun _ w =>
       (LLMContent
          (py "Thought: dig" ++ nl ++ py "Action: search" ++ nl
           ++ py "Action Input: {}"), S w);
     tools := [metered_search_tool];
     system_prompt := [] |}.

(** ** The generator, step by step

    A consumer that stops early leaves the rest of the generator undone.
    To tell what has run when, the body of [run_streaming] is read once
    more, as a computation that calls the outside, yields a step and waits
    to be resumed, or returns. Nothing runs when such a generator is
    dropped: no [yield] of [run_streaming] stands in a [try] with a
    [finally] or with a handler that catches [GeneratorExit]. *)

Section Generator.
Variable W : Type.

Inductive Gen (A : Type) : Type :=
| GRet (a : A)
| GCall (X : Type) (f : W -> X * W) (k : X -> Gen A)
| GYield (step : ReActStep) (k : Gen A).

Fixpoint gbind (A B : Type) (m : Gen A) (f : A -> Gen B) : Gen B :=
  match m with
  | GRet a => f a
  | GCall g k => GCall g (fun x => gbind (k x) f)
  | GYield step k => GYield step (gbind k f)
  end.

Definition gcall (A : Type) (f : W -> A * W) : Gen A :=
  GCall f (fun x => GRet x).

(** [if callback: callback(step)] followed by [yield step] *)
Definition gyield (callback : option (ReActStep -> W -> W))
    (step : ReActStep) : Gen unit :=
  match callback with
  | Some cb => GCall (fun w => (tt, cb step w)) (fun _ => GYield step (GRet tt))
  | None => GYield step (GRet tt)
  end.

(** The generator consumed to its end by a consumer that does nothing
    else. *)
Fixpoint drain (A : Type) (g : Gen A) (st : run_state W)
    : A * run_state W :=
  match g with
  | GRet a => (a, st)
  | GCall f k =>
      drain (k (fst (f (world st))))
        {| world := snd (f (world st)); emitted := emitted st |}
  | GYield step k =>
      drain k {| world := world st; emitted := emitted st ++ [step] |}
  end.

(** A generator that yields at most [n] steps, whatever the outside
    answers. *)
Fixpoint yields_at_most (A : Type) (n : nat) (g : Gen A) : Prop :=
  match g with
  | GRet _ => True
  | GCall _ k => forall x, yields_at_most n (k x)
  | GYield _ k =>
      match n with
      | O => False
      | S n' => yields_at_most n' k
      end
  end.

Variable nesting_limit : nat.
Variable unicode_isalnum : char -> bool.
Variable json_dumps : value -> str.
Variable json_dumps_indent2 : value -> str.
Variable now_isoformat : W -> str * W.
Variable now_kolkata : W -> str * W.

Section RunGenerator.
Variable self : ReActAgent W.
Variable user_input : str.
Variable max_iterations : Z.
Variable callback : option (ReActStep -> W -> W).
Variable conversation_history : option (list Message).
Variable cancellation_callback : option (W -> bool * W).

Notation "x <- m ;; k" := (gbind m (fun x => k))
  (at level 61, m at next level, right associativity).
Notation "m ;;; k" := (gbind m (fun _ => k))
  (at level 61, right associativity).

(** The body of the [while] loop of [run_streaming], after
    [iteration += 1]. *)
Definition generator_body (time_context agent_scratchpad : str) : Gen flow :=
  cancelled <-
    match cancellation_callback with
    | Some is_cancelled => gcall is_cancelled
    | None => GRet false
    end ;;
  if cancelled then
    ts <- gcall now_isoformat ;;
    gyield callback (plain_step (py "final_answer") cancelled_text ts) ;;;
    GRet (Return cancelled_text)
  else
    response <-
      gcall (llm self
               (full_prompt self user_input conversation_history
                  time_context agent_scratchpad)) ;;
    match response with
    | LLMRaised error_str =>
        let error_content := llm_error_content error_str in
        ts <- gcall now_isoformat ;;
        gyield callback (plain_step (py "error") error_content ts) ;;;
        GRet (Return error_content)
    | LLMContent response_content =>
        let llm_output := strip response_content in
        match _parse_react_output nesting_limit unicode_isalnum llm_output with
        | P_raises e => GRet (Raise e)
        | P_final_answer answer =>
            ts <- gcall now_isoformat ;;
            gyield callback (plain_step (py "final_answer") answer ts) ;;;
            GRet (Return answer)
        | P_action thought action action_input =>
            match thought with
            | _ :: _ =>
                ts <- gcall now_isoformat ;;
                gyield callback (plain_step (py "thought") thought ts)
            | [] => GRet tt
            end ;;;
            ts <- gcall now_isoformat ;;
            gyield callback (action_step action action_input ts) ;;;
            observation <-
              gcall (_execute_tool nesting_limit json_dumps_indent2 self
                       action action_input) ;;
            ts <- gcall now_isoformat ;;
            gyield callback (observation_step action observation ts) ;;;
            GRet (Continue
                    (scratchpad_after_action json_dumps agent_scratchpad
                       thought action action_input observation))
        | P_thought thought =>
            ts <- gcall now_isoformat ;;
            gyield callback (plain_step (py "thought") thought ts) ;;;
            GRet (Continue
                    (agent_scratchpad
                     ++ (nl ++ py "Thought: " ++ thought ++ nl)))
        | P_unknown _ =>
            GRet (Continue (agent_scratchpad ++ (nl ++ llm_output ++ nl)))
        end
    end.

(** [while iteration < max_iterations: ...] and what follows it; the
    generator ends by returning its answer or by an exception; [None]
    when the fuel does not suffice. *)
Fixpoint generator_loop (fuel : nat) (time_context : str) (iteration : Z)
    (agent_scratchpad : str) : Gen (option (outcome str)) :=
  match fuel with
  | O => GRet None
  | S fuel' =>
      if (iteration <? max_iterations)%Z then
        fl <- generator_body time_context agent_scratchpad ;;
        match fl with
        | Return answer => GRet (Some (Returns answer))
        | Continue agent_scratchpad' =>
            generator_loop fuel' time_context (iteration + 1)%Z
              agent_scratchpad'
        | Raise e => GRet (Some (Raises e))
        end
      else
        ts <- gcall now_isoformat ;;
        gyield callback
          (plain_step (py "final_answer")
             (max_iterations_text max_iterations) ts) ;;;
        GRet (Some (Returns (max_iterations_text max_iterations)))
  end.

(** The generator that a call of [run_streaming] returns. *)
Definition run_streaming_generator : Gen (option (outcome str)) :=
  current_time <- gcall now_kolkata ;;
  generator_loop (S (Z.to_nat max_iterations))
    (py "**CURRENT TIME:** " ++ current_time ++ nl ++ nl) 0 [].
End RunGenerator.
End Generator.

Arguments GRet {W A} a.

(** ** The research controller of [agent/controller.py]

    The loop of [LeadResearchController.run], which consumes the steps of
    the agent one by one. The controller is taken as [__init__] leaves it,
    with the attributes that the loop reads; what [run] does after the
    loop, reading the stored leads, is not part of the model. *)

Module Controller.
Section Controller.
Variable W : Type.
Variable nesting_limit : nat.
Variable unicode_isalnum : char -> bool.
Variable json_dumps : value -> str.
Variable json_dumps_indent2 : value -> str.
Variable now_isoformat : W -> str * W.
Variable now_kolkata : W -> str * W.

Record LeadResearchController : Type := {
  product_description : str;
  target_count : Z;
  max_iterations : Z;
  cancellation_callback : option (W -> bool * W);
  agent : ReActAgent W;
  step_callback : option (ReActStep -> W -> W)
}.

Definition initial_prompt (self : LeadResearchController) : str :=
  py "Find " ++ str_of_Z (target_count self)
  ++ py " quality leads (score >= 50) for this product.

**Product Description:**
" ++ product_description self ++ py "

**Your Mission:**
1. Extract ICP first
2. Generate search queries and begin search-enrich-score cycles
3. Track progress after each company scored
4. Generate NEW queries and continue if needed
5. Stop when you have " ++ str_of_Z (target_count self)
  ++ py "+ quality leads OR completed " ++ str_of_Z (max_iterations self)
  ++ py " iterations

Start now by extracting the ICP!".

Definition saved_marker : str :=
  quoted (py "status") ++ py ": " ++ quoted (py "saved").
Definition saved_message : str := py "Saved lead successfully".
Definition completed_marker : str := quoted (py "task_completed") ++ py ": true".

(** How the [for] loop ended: the generator returned, one of the two
    [break]s was taken, or an exception of the generator left the loop,
    which stands in no [try]. *)
Inductive loop_end : Type :=
| Exhausted
| Cancelled
| Completed
| Failed (e : exception).

(** The state of the loop: the world, the steps received from the
    generator, the steps passed to [step_callback], and [saved_count]. *)
Record loop_state : Type := {
  loop_world : W;
  received : list ReActStep;
  forwarded : list ReActStep;
  saved_count : Z
}.

(** [if self.step_callback: self.step_callback(step)] *)
Definition forward (self : LeadResearchController) (step : ReActStep)
    (st : loop_state) : loop_state :=
  match step_callback self with
  | Some cb =>
      {| loop_world := cb step (loop_world st);
         received := received st;
         forwarded := forwarded st ++ [step];
         saved_count := saved_count st |}
  | None => st
  end.

(** [for step_num, step in enumerate(generator): ...] *)
Fixpoint for_each_step (self : LeadResearchController)
    (generator : Gen W (option (outcome str))) (st : loop_state)
    : loop_end * loop_state :=
  match generator with
  | GRet (Some (Raises e)) => (Failed e, st)
  | GRet _ => (Exhausted, st)
  | GCall f k =>
      for_each_step self (k (fst (f (loop_world st))))
        {| loop_world := snd (f (loop_world st));
           received := received st;
           forwarded := forwarded st;
           saved_count := saved_count st |}
  | GYield step k =>
      let (cancelled, w) :=
        match cancellation_callback self with
        | Some is_cancelled => is_cancelled (loop_world st)
        | None => (false, loop_world st)
        end in
      let st :=
        {| loop_world := w;
           received := received st ++ [step];
           forwarded := forwarded st;
           saved_count := saved_count st |} in
      if cancelled then (Cancelled, st)
      else if str_eqb (step_type step) (py "observation") then
        let st :=
          if contains saved_marker (content step)
             || contains saved_message (content step)
          then
            {| loop_world := loop_world st;
               received := received st;
               forwarded := forwarded st;
               saved_count := (saved_count st + 1)%Z |}
          else st in
        if contains completed_marker (content step)
        then (Completed, forward self step st)
        else for_each_step self k (forward self step st)
      else for_each_step self k (forward self step st)
  end.

(** An observation that ends the research, and one that counts as a
    saved lead. *)
Definition is_completion (step : ReActStep) : bool :=
  is_observation_step step && contains completed_marker (content step).

Definition is_saved (step : ReActStep) : bool :=
  is_observation_step step
  && (contains saved_marker (content step)
      || contains saved_message (content step)).

(** The loop of [run], from its start. *)
Definition run_loop (self : LeadResearchController) (w : W)
    : loop_end * loop_state :=
  let max_steps := (max_iterations self * 15)%Z in
  for_each_step self
    (run_streaming_generator nesting_limit unicode_isalnum json_dumps
       json_dumps_indent2 now_isoformat now_kolkata (agent self)
       (initial_prompt self) max_steps None None
       (cancellation_callback self))
    {| loop_world := w; received := []; forwarded := [];
       saved_count := 0 |}.
End Controller.
End Controller.

(** A generator that settles its debts: what it has raised the quantity
    [measure] of the world by since it was resumed, [debt], is at most
    the price of one tool when it yields an observation step, and nothing
    when it yields another step or returns. *)
Fixpoint settles (W A : Type) (measure : W -> nat) (tool_cost debt : nat)
    (g : Gen W A) : Prop :=
  match g with
  | GRet _ => debt = 0%nat
  | GCall f k =>
      exists c,
        (forall w, (measure (snd (f w)) <= measure w + c)%nat)
        /\ forall x, settles measure tool_cost (debt + c) (k x)
  | GYield step k =>
      (if is_observation_step step then (debt <= tool_cost)%nat
       else debt = 0%nat)
      /\ settles measure tool_cost 0 k
  end.

(** ** Sample controllers *)

(** A tool that reports the completion of the task in a text that is no
    JSON, so that the dispatcher passes it on as it is. *)
Definition complete_task_tool : Tool nat :=
  {| name := py "complete_task";
     description := Some (py "End the task");
     invoke := fun _ w =>
       (ToolOther (py "done, " ++ Controller.completed_marker), w) |}.

(** A model that always asks for the tool [complete_task]. *)
Definition completing_agent : ReActAgent nat :=
  {| llm := fun _ w =>
       (LLMContent
          (py "Thought: wrap up" ++ nl ++ py "Action: complete_task" ++ nl
           ++ py "Action Input: {}"), w);
     tools := [search_tool; complete_task_tool];
     system_prompt := [] |}.

(** A cancellation predicate that always holds and counts its
    consultations. *)
Definition always_cancelled (w : nat) : bool * nat := (true, S w).

(** A controller whose model replies with the integer of 4301 digits. *)
Definition overflowing_controller : Controller.LeadResearchController nat :=
  {| Controller.product_description := py "A CRM for dentists";
     Controller.target_count := 3;
     Controller.max_iterations := 2;
     Controller.cancellation_callback := None;
     Controller.agent := overflowing_agent;
     Controller.step_callback := None |}.

Definition sample_controller
    (cancellation_callback : option (nat -> bool * nat))
    : Controller.LeadResearchController nat :=
  {| Controller.product_description := py "A CRM for dentists";
     Controller.target_count := 3;
     Controller.max_iterations := 2;
     Controller.cancellation_callback := cancellation_callback;
     Controller.agent := completing_agent;
     Controller.step_callback := None |}.

(** A research that is stopped at its first action. The world holds the
    number of consultations of the cancellation predicate, which holds
    from the third on, and the number of invocations of the tool. *)
Definition standing_clock (w : nat * nat) : str * (nat * nat) :=
  (py "2026-01-05T09:00:00", w).

Definition stop_at_third_check (w : nat * nat) : bool * (nat * nat) :=
  ((2 <=? fst w)%nat, (S (fst w), snd w)).

Definition marking_tool : Tool (nat * nat) :=
  {| name := py "search";
     description := None;
     invoke := fun _ w => (ToolOther (py "3 results"), (fst w, S (snd w))) |}.

Definition stopped_controller : Controller.LeadResearchController (nat * nat) :=
  {| Controller.product_description := py "A CRM for dentists";
     Controller.target_count := 3;
     Controller.max_iterations := 1;
     Controller.cancellation_callback := Some stop_at_third_check;
     Controller.agent :=
       {| llm := fun _ w =>
            (LLMContent
               (py "Thought: dig" ++ nl ++ py "Action: search" ++ nl
                ++ py "Action Input: {}"), w);
          tools := [marking_tool];
          system_prompt := [] |};
     Controller.step_callback := None |}.

Definition stopped_research
    : Controller.loop_end * Controller.loop_state (nat * nat) :=
  Controller.run_loop sample_nesting_limit isalnum_below_256 sample_dumps
    sample_dumps standing_clock standing_clock stopped_controller
    (0%nat, 0%nat).

Definition sample_research
    (cancellation_callback : option (nat -> bool * nat))
    : Controller.loop_end * Controller.loop_state nat :=
  Controller.run_loop sample_nesting_limit isalnum_below_256 sample_dumps
    sample_dumps sample_now sample_now
    (sample_controller cancellation_callback) 0%nat.

(** * Properties *)

(** ** Strings *)

Lemma str_eqb_spec (a b : str) : reflect (a = b) (str_eqb a b).
Proof.
  revert b; induction a as [|x a IH]; intros [|y b]; simpl;
    try (constructor; congruence).
  destruct (N.eqb_spec x y) as [->|Hxy]; simpl.
  - destruct (IH b) as [->|Hab]; constructor; congruence.
  - constructor; congruence.
Qed.

Lemma str_eqb_refl (a : str) : str_eqb a a = true.
Proof. destruct (str_eqb_spec a a); congruence. Qed.

Lemma str_eqb_eq (a b : str) : str_eqb a b = true <-> a = b.
Proof. destruct (str_eqb_spec a b); split; congruence. Qed.

Lemma str_eqb_neq (a b : str) : str_eqb a b = false <-> a <> b.
Proof. destruct (str_eqb_spec a b); split; congruence. Qed.

(** ** Dictionaries *)

Section DictFacts.
Variable V : Type.
Implicit Types (d : dict V) (k : str) (v : V).

Lemma has_key_In k (ks : list str) :
  existsb (str_eqb k) ks = true <-> In k ks.
Proof.
  rewrite existsb_exists; split.
  - intros (x & Hx & E). apply str_eqb_eq in E. now subst.
  - intros H. exists k. split; [assumption | apply str_eqb_refl].
Qed.

Lemma dict_set_fresh k v d :
  ~ In k (keys d) -> dict_set k v d = d ++ [(k, v)].
Proof.
  induction d as [|[k' v'] d IH]; simpl; intros Hk; [reflexivity|].
  destruct (str_eqb_spec k' k) as [->|_]; [tauto|].
  rewrite IH; [reflexivity | tauto].
Qed.

Lemma keys_dict_set k v d :
  keys (dict_set k v d) = if existsb (str_eqb k) (keys d) then keys d
                          else keys d ++ [k].
Proof.
  induction d as [|[k' v'] d IH]; simpl; [reflexivity|].
  destruct (str_eqb_spec k' k) as [->|Hne]; simpl.
  - now rewrite str_eqb_refl.
  - rewrite IH. destruct (str_eqb_spec k k') as [E|_]; [congruence|].
    simpl. now destruct (existsb (str_eqb k) (keys d)).
Qed.

Lemma In_dict_set (kv : str * V) k v d :
  In kv (dict_set k v d) -> kv = (k, v) \/ In kv d.
Proof.
  induction d as [|[k' v'] d IH]; simpl.
  - intros [<-|[]]; now left.
  - destruct (str_eqb_spec k' k) as [->|_]; simpl.
    + intros [<-|H]; [now left | now right; right].
    + intros [<-|H]; [now right; left|].
      destruct (IH H); [now left | now right; right].
Qed.

Lemma distinct_app_one (ks : list str) k :
  distinct ks = true -> ~ In k ks -> distinct (ks ++ [k]) = true.
Proof.
  induction ks as [|x ks IH]; simpl; intros Hd Hk; [reflexivity|].
  apply andb_true_iff in Hd as [Hx Hd].
  rewrite IH by tauto. rewrite andb_true_r.
  apply negb_true_iff. apply negb_true_iff in Hx.
  rewrite existsb_app, Hx. simpl.
  rewrite orb_false_r. apply str_eqb_neq. intros ->. tauto.
Qed.

Lemma distinct_dict_set k v d :
  distinct (keys d) = true -> distinct (keys (dict_set k v d)) = true.
Proof.
  intros Hd. rewrite keys_dict_set.
  destruct (existsb (str_eqb k) (keys d)) eqn:E; [assumption|].
  apply distinct_app_one; [assumption|].
  rewrite <- has_key_In. congruence.
Qed.

Lemma dict_get_app_fresh k d d' :
  ~ In k (keys d') -> dict_get k (d ++ d') = dict_get k d.
Proof.
  intros Hk. induction d as [|[k' v'] d IH]; simpl.
  - induction d' as [|[k' v'] d' IH]; simpl in *; [reflexivity|].
    destruct (str_eqb_spec k' k); [tauto|]. apply IH. tauto.
  - now rewrite IH.
Qed.
End DictFacts.

(** ** The redaction pass *)

Lemma clean_dict_unfold (items : dict value) :
  _clean_email_data (VDict items) = VDict (fold_left clean_item items []).
Proof.
  simpl. f_equal.
  generalize (@nil (str * value)) as acc.
  induction items as [|[k v] items IH]; intros acc; simpl; [reflexivity|].
  rewrite IH. f_equal. unfold clean_item; simpl.
  destruct (str_eqb k body_html); [reflexivity|].
  now destruct v.
Qed.

Lemma fold_clean_distinct (f : value -> value) (items : dict value) :
  forall acc,
    distinct (keys items) = true ->
    (forall k, In k (keys items) -> ~ In k (keys acc)) ->
    fold_left
      (fun cleaned kv =>
         if str_eqb (fst kv) body_html then cleaned
         else dict_set (fst kv) (f (snd kv)) cleaned) items acc
    = acc ++ filter keep (List.map (fun kv => (fst kv, f (snd kv))) items).
Proof.
  induction items as [|[k v] items IH]; intros acc Hd Hfresh; simpl.
  - now rewrite app_nil_r.
  - simpl in Hd. apply andb_true_iff in Hd as [Hk Hd].
    apply negb_true_iff in Hk.
    assert (Hk' : ~ In k (keys items)).
    { rewrite <- has_key_In. congruence. }
    unfold keep at 1; simpl.
    destruct (str_eqb k body_html) eqn:E; simpl.
    + apply IH; [assumption|]. intros k0 H0. apply Hfresh. now right.
    + rewrite dict_set_fresh by (apply Hfresh; now left).
      rewrite IH; [now rewrite <- app_assoc | assumption |].
      intros k0 H0. unfold keys. rewrite map_app, in_app_iff. simpl.
      intros [H1|[->|[]]]; [|tauto].
      apply (Hfresh k0); [now right | assumption].
Qed.

Lemma clean_is_redacted (data : value) :
  well_formed data = true -> _clean_email_data data = redacted data.
Proof.
  induction data as [| | | | |items IH|items IH] using value_ind;
    intros Hwf; try reflexivity.
  - simpl in *. f_equal. apply map_ext_in. intros x Hx.
    rewrite Forall_forall in IH. apply IH; [assumption|].
    rewrite forallb_forall in Hwf. now apply Hwf.
  - rewrite clean_dict_unfold. simpl in Hwf.
    apply andb_true_iff in Hwf as [Hd Hwf].
    unfold clean_item.
    rewrite fold_clean_distinct; [|assumption|intros ? _ []].
    simpl. f_equal. unfold keep. f_equal.
    apply map_ext_in. intros [k v] Hin. simpl. f_equal.
    rewrite Forall_forall in IH. apply (IH (k, v) Hin).
    rewrite forallb_forall in Hwf. apply (Hwf (k, v) Hin).
Qed.

Lemma redacted_forgets (v : value) : mentions body_html (redacted v) = false.
Proof.
  induction v as [| | | | |items IH|items IH] using value_ind;
    try reflexivity; simpl.
  - induction IH as [|x l Hx _ IHl]; simpl; [reflexivity|].
    now rewrite Hx, IHl.
  - induction IH as [|[k x] l Hx _ IHl]; simpl; [reflexivity|].
    simpl in Hx. destruct (str_eqb k body_html) eqn:E; simpl; [assumption|].
    now rewrite E, Hx, IHl.
Qed.

Lemma redacted_fixes (v : value) :
  mentions body_html v = false -> redacted v = v.
Proof.
  induction v as [| | | | |items IH|items IH] using value_ind;
    try reflexivity; simpl; intros Hm; f_equal.
  - induction IH as [|x l Hx _ IHl]; simpl in *; [reflexivity|].
    apply orb_false_iff in Hm as [H1 H2]. now rewrite Hx, IHl.
  - induction IH as [|[k x] l Hx _ IHl]; simpl in *; [reflexivity|].
    apply orb_false_iff in Hm as [H1 H2].
    apply orb_false_iff in H1 as [H0 H1].
    now rewrite H0, Hx, IHl.
Qed.

(** The loop over [data.items()] keeps the keys of [cleaned] distinct and
    its values clean, whatever the keys of [data]. *)
Lemma fold_clean_invariant (Q : value -> Prop) (items : dict value) :
  Forall (fun kv => Q (_clean_email_data (snd kv))) items ->
  forall acc,
    distinct (keys acc) = true ->
    Forall (fun kv => fst kv <> body_html /\ Q (snd kv)) acc ->
    let out := fold_left clean_item items acc in
    distinct (keys out) = true
    /\ Forall (fun kv => fst kv <> body_html /\ Q (snd kv)) out.
Proof.
  induction 1 as [|[k v] l Hv _ IH]; intros acc Hd Hacc; simpl; [tauto|].
  apply IH; unfold clean_item; simpl;
    destruct (str_eqb_spec k body_html) as [->|Hne]; try assumption.
  - now apply distinct_dict_set.
  - rewrite Forall_forall in *. intros kv Hin.
    apply In_dict_set in Hin as [->|Hin]; [now split | now apply Hacc].
Qed.

Lemma clean_normal (v : value) :
  well_formed (_clean_email_data v) = true
  /\ mentions body_html (_clean_email_data v) = false.
Proof.
  induction v as [| | | | |items IH|items IH] using value_ind;
    try (split; reflexivity).
  - simpl. rewrite forallb_forall, <- not_true_iff_false, existsb_exists.
    rewrite Forall_forall in IH. split.
    + intros x Hx. apply in_map_iff in Hx as (y & <- & Hy). now apply IH.
    + intros (x & Hx & Hm). apply in_map_iff in Hx as (y & <- & Hy).
      destruct (IH y Hy). congruence.
  - rewrite clean_dict_unfold.
    destruct (fold_clean_invariant
                (fun x => well_formed x = true /\ mentions body_html x = false)
                IH (acc := [])) as [Hd Hall]; [reflexivity | constructor |].
    simpl. rewrite Hd. simpl.
    rewrite forallb_forall, <- not_true_iff_false, existsb_exists.
    rewrite Forall_forall in Hall. split.
    + intros kv Hin. now apply Hall.
    + intros (kv & Hin & Hm). destruct (Hall kv Hin) as (Hk & _ & Hx).
      rewrite Hx, orb_false_r in Hm. apply str_eqb_eq in Hm. tauto.
Qed.



Lemma clean_scalar (data : value) :
  is_container data = false -> _clean_email_data data = data.
Proof. now destruct data. Qed.



(** C9. The redaction pass is idempotent, and it returns an input that is
    neither a mapping nor a sequence as it is. *)
Theorem clean_email_data_idempotent (data : value) :
  _clean_email_data (_clean_email_data data) = _clean_email_data data
  /\ (is_container data = false -> _clean_email_data data = data).
Proof.
  split; [|apply clean_scalar].
  destruct (clean_normal data) as [Hwf Hm].
  rewrite (clean_is_redacted _ Hwf). now apply redacted_fixes.
Qed.

Lemma clean_email_data_idempotent_witness :
  is_container (VStr body_html) = false
  /\ _clean_email_data (VStr body_html) = VStr body_html
  /\ _clean_email_data (_clean_email_data sample_email)
     = _clean_email_data sample_email.
Proof.
  split; [reflexivity|].
  split.
  - apply (proj2 (clean_email_data_idempotent (VStr body_html))). reflexivity.
  - apply (proj1 (clean_email_data_idempotent sample_email)).
Defined.

(** ** The patterns of the parser *)

Section MatcherFacts.
Variable A : Type.
Implicit Type k : str -> option A.

Lemma lit_app pat k m rest :
  matches_ignorecase pat m = true -> lit pat k (m ++ rest) = k rest.
Proof.
  revert m; induction pat as [|p pat IH]; intros [|c m]; simpl;
    try discriminate; [reflexivity|].
  intros H. apply andb_true_iff in H as [-> H]. now apply IH.
Qed.

Lemma lit_inv pat k s r :
  lit pat k s = Some r ->
  exists m rest,
    s = m ++ rest /\ matches_ignorecase pat m = true /\ k rest = Some r.
Proof.
  revert s; induction pat as [|p pat IH]; intros s; simpl.
  - intros H. now exists [], s.
  - destruct s as [|c s]; [discriminate|].
    destruct (lit_ignorecase p c) eqn:E; [|discriminate].
    intros H. destruct (IH _ H) as (m & rest & -> & Hm & Hk).
    exists (c :: m), rest. simpl. now rewrite E, Hm.
Qed.

Lemma search_skip (m : str -> option A) before s :
  (forall b1 b2, before = b1 ++ b2 -> b2 <> [] -> m (b2 ++ s) = None) ->
  search m (before ++ s) = search m s.
Proof.
  induction before as [|b before IH]; intros H; [reflexivity|].
  simpl. change (b :: before ++ s) with ((b :: before) ++ s).
  rewrite (H [] (b :: before)) by (reflexivity || discriminate).
  apply IH. intros b1 b2 -> Hb2. now apply (H (b :: b1) b2).
Qed.

Lemma search_here (m : str -> option A) s r :
  m s = Some r -> search m s = Some r.
Proof. intros H. destruct s; simpl; now rewrite H. Qed.

Lemma search_finds (m : str -> option A) before s r :
  m s = Some r -> exists r', search m (before ++ s) = Some r'.
Proof.
  intros H. induction before as [|b before [r' IH]]; simpl.
  - exists r. now apply search_here.
  - destruct (m (b :: before ++ s)) as [r0|]; [now exists r0 | now exists r'].
Qed.
End MatcherFacts.

Lemma lstrip_by_idem drop s : lstrip_by drop (lstrip_by drop s) = lstrip_by drop s.
Proof.
  induction s as [|c s IH]; simpl; [reflexivity|].
  destruct (drop c) eqn:E; [assumption|]. simpl. now rewrite E.
Qed.

Lemma strip_cons_space c s : isspace c = true -> strip (c :: s) = strip s.
Proof. intros H. unfold strip, strip_by. simpl. now rewrite H. Qed.

Lemma star_any_accept s : star_greedy any_char accept s = Some [].
Proof. induction s as [|c s IH]; simpl; [reflexivity | now rewrite IH]. Qed.

Lemma group_rest s :
  s <> [] -> group (plus_greedy any_char accept) s = Some s.
Proof.
  destruct s as [|c s]; [congruence|]. intros _.
  unfold group, plus_greedy. rewrite star_any_accept.
  unfold any_char. cbv iota. f_equal.
  change (length (@nil char)) with 0%nat.
  rewrite Nat.sub_0_r. apply firstn_all.
Qed.

Lemma group_rest_nil : group (plus_greedy any_char accept) [] = None.
Proof. reflexivity. Qed.

(** What follows the marker of a final answer: the pattern takes it all,
    up to leading white space. *)
Lemma final_answer_tail rest :
  rest <> [] ->
  exists g,
    star_greedy isspace (group (plus_greedy any_char accept)) rest = Some g
    /\ strip g = strip rest.
Proof.
  induction rest as [|c rest IH]; [congruence|]. intros _.
  cbn [star_greedy]. destruct (isspace c) eqn:E.
  - destruct rest as [|c' rest'].
    + exists [c]. split; [|reflexivity].
      cbn [star_greedy]. rewrite group_rest_nil. now rewrite group_rest.
    + destruct IH as (g & -> & Hg); [discriminate|].
      exists g. split; [reflexivity|]. now rewrite strip_cons_space.
  - exists (c :: rest). now rewrite group_rest.
Qed.

(** C1. A reply that holds the marker [Final Answer:], in any case, with at
    least one character after it, parses as a final answer, whatever else
    the reply holds ([Action:] and [Thought:] markers included); and when
    the marker is the leftmost one in the reply, the content is the text
    after it, stripped of surrounding white space. *)
Theorem final_answer_takes_precedence (nesting_limit : nat)
    (unicode_isalnum : char -> bool)
    (text before marker after : str) :
  text = before ++ marker ++ after ->
  is_final_marker marker = true ->
  after <> [] ->
  (exists answer,
      _parse_react_output nesting_limit unicode_isalnum text
      = P_final_answer answer)
  /\ ((forall before' marker' after',
          text = before' ++ marker' ++ after' ->
          is_final_marker marker' = true ->
          length before <= length before')%nat ->
      _parse_react_output nesting_limit unicode_isalnum text
      = P_final_answer (strip after)).
Proof.
  intros -> Hm Hafter.
  destruct (final_answer_tail Hafter) as (g & Hg & Hstrip).
  set (tail := star_greedy isspace (group (plus_greedy any_char accept))) in *.
  assert (Hhere : lit (py "Final Answer:") tail (marker ++ after) = Some g).
  { now rewrite lit_app. }
  split.
  - destruct (search_finds _ before _ Hhere) as [g' Hg'].
    exists (strip g'). unfold _parse_react_output, re_final_answer.
    fold tail. now rewrite Hg'.
  - intros Hleft. unfold _parse_react_output, re_final_answer. fold tail.
    rewrite search_skip, (search_here _ _ Hhere); [now rewrite Hstrip|].
    intros b1 b2 -> Hb2.
    destruct (lit (py "Final Answer:") tail (b2 ++ marker ++ after))
      as [r|] eqn:E; [|reflexivity].
    apply lit_inv in E as (m' & rest' & E & Hm' & _).
    specialize (Hleft b1 m' rest').
    rewrite <- app_assoc, E in Hleft. specialize (Hleft eq_refl Hm').
    rewrite length_app in Hleft. destruct b2; [congruence|]. simpl in Hleft. lia.
Qed.

Lemma no_final_marker_from_leftmost before rest :
  no_final_marker_from before rest = true ->
  forall before' marker' after',
    before ++ rest = before' ++ marker' ++ after' ->
    is_final_marker marker' = true ->
    (length before <= length before')%nat.
Proof.
  induction before as [|b before IH]; intros Hscan before' marker' after' E Hm;
    [apply Nat.le_0_l|].
  cbn [no_final_marker_from] in Hscan.
  destruct (lit (py "Final Answer:") accept ((b :: before) ++ rest)) eqn:Hlit;
    [discriminate|].
  destruct before' as [|b' before'].
  - change ([] ++ marker' ++ after') with (marker' ++ after') in E.
    rewrite E, lit_app in Hlit by exact Hm. discriminate.
  - simpl in E. injection E as _ E. simpl.
    apply le_n_S. now apply (IH Hscan before' marker' after').
Qed.

Lemma final_answer_takes_precedence_witness :
  is_final_marker sample_marker = true
  /\ sample_after <> []
  /\ _parse_react_output sample_nesting_limit isalnum_below_256
       (sample_before ++ sample_marker ++ sample_after)
     = P_final_answer (py "42 is the answer. Action: none").
Proof.
  split; [reflexivity|]. split; [discriminate|].
  apply (proj2 (@final_answer_takes_precedence sample_nesting_limit
                  isalnum_below_256
                  (sample_before ++ sample_marker ++ sample_after)
                  sample_before sample_marker sample_after
                  eq_refl eq_refl ltac:(discriminate))).
  now apply no_final_marker_from_leftmost.
Defined.

Lemma clean_action_name_nil : clean_action_name [] = [].
Proof. reflexivity. Qed.

(** The fallback of the parser. Take a reply in which no final answer is
    found and the action pattern finds a name that is not empty once
    cleaned. When the Action Input is absent, or decodes to the empty map,
    or fails to decode with [json.JSONDecodeError] and does not decode
    after the repair pass either, whatever the second decoding raises,
    the parser returns the action with that name, the thought of the
    reply, and the empty input map. *)
Lemma missing_action_input_is_empty_map (nesting_limit : nat)
    (unicode_isalnum : char -> bool) (text raw : str) :
  re_final_answer text = None ->
  re_action text = Some raw ->
  clean_action_name (strip raw) <> [] ->
  (action_input_block text = None
   \/ exists json_str,
        action_input_block text = Some json_str
        /\ (json_loads nesting_limit json_str = Decoded (VDict [])
            \/ (json_loads nesting_limit json_str = JSONDecodeError
                /\ forall v,
                     json_loads nesting_limit
                       (repair_json unicode_isalnum json_str)
                     <> Decoded v))) ->
  _parse_react_output nesting_limit unicode_isalnum text
  = P_action
      (match re_thought text with Some g => strip g | None => [] end)
      (clean_action_name (strip raw)) (VDict []).
Proof.
  intros Hfinal Haction Hname Hinput.
  unfold _parse_react_output. rewrite Hfinal, Haction. cbn [option_map].
  destruct (strip raw) as [|c a] eqn:Hraw;
    [now rewrite clean_action_name_nil in Hname|].
  destruct (clean_action_name (c :: a)) as [|c' a'] eqn:Hclean; [congruence|].
  unfold parse_action_input.
  destruct Hinput as [-> | (json_str & -> & [-> | [-> Hrepair]])];
    try reflexivity.
  destruct (json_loads nesting_limit (repair_json unicode_isalnum json_str))
    as [v| |e]; [now destruct (Hrepair v) | reflexivity | reflexivity].
Qed.

Lemma empty_map_on_samples :
  re_final_answer sample_no_input = None
  /\ re_action sample_no_input = Some (py "`search(query)`")
  /\ action_input_block sample_no_input = None
  /\ _parse_react_output sample_nesting_limit isalnum_below_256
       sample_no_input
     = P_action (py "look it up") (py "search") (VDict [])
  /\ action_input_block sample_garbled_input = Some (py "{query: True,}")
  /\ _parse_react_output sample_nesting_limit isalnum_below_256
       sample_garbled_input
     = P_action [] (py "search") (VDict []).
Proof.
  do 5 (split; [vm_compute; reflexivity|]). vm_compute. reflexivity.
Qed.

(** A reply with a final answer and an action, and no Action Input: the
    parser returns the final answer, not the action. *)
Lemma action_after_final_answer_is_dropped :
  re_action sample_final_and_action = Some (py "search")
  /\ action_input_block sample_final_and_action = None
  /\ _parse_react_output sample_nesting_limit isalnum_below_256
       sample_final_and_action
     = P_final_answer (py "done" ++ nl ++ py "Action: search")
  /\ ~ (exists thought,
          _parse_react_output sample_nesting_limit isalnum_below_256
            sample_final_and_action
          = P_action thought (py "search") (VDict [])).
Proof.
  split; [reflexivity|]. split; [reflexivity|]. split; [reflexivity|].
  intros [thought H]. discriminate H.
Qed.

(** C6. The parser does raise on an Action Input that it cannot decode:
    the handler of the first decoding catches [json.JSONDecodeError]
    only, so the [ValueError] that the decoder raises for an integer of
    more than 4300 digits leaves the parser, whatever the room for
    nesting and the table of [str.isalnum]; the action and its name are
    lost. The handler of the second decoding catches every exception:
    when a Python literal before the same integer makes the first
    decoding fail with a decode error, the integer is met after the
    repair pass and the parser returns the action with the empty input
    map. *)
Theorem oversized_integer_leaves_the_parser (nesting_limit : nat)
    (unicode_isalnum : char -> bool) :
  length oversized_integer = S int_max_str_digits
  /\ re_final_answer sample_oversized_input = None
  /\ re_action sample_oversized_input = Some (py "search")
  /\ action_input_block sample_oversized_input = Some oversized_block
  /\ json_loads nesting_limit oversized_block = OtherError ValueError
  /\ _parse_react_output nesting_limit unicode_isalnum
       sample_oversized_input
     = P_raises ValueError
  /\ action_input_block sample_oversized_after_literal
     = Some oversized_block_after_literal
  /\ json_loads nesting_limit oversized_block_after_literal
     = JSONDecodeError
  /\ json_loads nesting_limit
       (repair_json isalnum_below_256 oversized_block_after_literal)
     = OtherError ValueError
  /\ _parse_react_output nesting_limit isalnum_below_256
       sample_oversized_after_literal
     = P_action (py "count") (py "search") (VDict []).
Proof.
  do 9 (split; [vm_compute; reflexivity|]). vm_compute. reflexivity.
Qed.

(** ** The repair pass *)

(** The repair pass consults the table of [str.isalnum] only at characters
    of its input and of the literals it looks for. *)
Section TableAgreement.
Variables f g : char -> bool.

Lemma opt_word_ext (o : option char) :
  (forall c, o = Some c -> f c = g c) -> opt_word f o = opt_word g o.
Proof.
  destruct o as [c|]; [|reflexivity]. intros H. simpl. unfold is_word.
  now rewrite (H c eq_refl).
Qed.

Lemma hd_error_In (l : str) c : hd_error l = Some c -> In c l.
Proof. destruct l; simpl; [discriminate|]. intros [= ->]. now left. Qed.

Lemma In_skipn (n : nat) (l : str) c : In c (skipn n l) -> In c l.
Proof.
  revert l; induction n as [|n IH]; intros [|x l]; simpl; auto.
Qed.

Lemma sub_word_from_ext (word repl : str) :
  (forall c, In c word -> f c = g c) ->
  forall s skip prev,
    (forall c, In c s -> f c = g c) ->
    (forall c, prev = Some c -> f c = g c) ->
    sub_word_from f word repl skip prev s
    = sub_word_from g word repl skip prev s.
Proof.
  intros Hword. induction s as [|x s IH]; intros skip prev Hs Hprev;
    [reflexivity|].
  assert (Hx : forall c, Some x = Some c -> f c = g c).
  { intros c [= <-]. apply Hs. now left. }
  assert (Hs' : forall c, In c s -> f c = g c).
  { intros c Hc. apply Hs. now right. }
  cbn [sub_word_from]. destruct skip as [|skip]; [|now apply IH].
  unfold word_boundary.
  rewrite (opt_word_ext Hprev).
  rewrite (opt_word_ext (o := hd_error word))
    by (intros c Hc; apply Hword; now apply hd_error_In).
  rewrite (opt_word_ext (o := hd_error (rev word)))
    by (intros c Hc; apply Hword, in_rev; now apply hd_error_In).
  rewrite (opt_word_ext (o := hd_error (skipn (length word) (x :: s))))
    by (intros c Hc; apply Hs, (In_skipn (length word));
        now apply hd_error_In).
  now rewrite !IH.
Qed.

Lemma sub_word_from_chars (word repl : str) c :
  forall s skip prev,
    In c (sub_word_from f word repl skip prev s) -> In c s \/ In c repl.
Proof.
  induction s as [|x s IH]; intros skip prev; cbn [sub_word_from];
    [tauto|].
  destruct skip as [|skip].
  - destruct (_ && _ && _).
    + rewrite in_app_iff. intros [H|H]; [now right|].
      destruct (IH _ _ H); [left; now right | now right].
    + intros [->|H]; [left; now left|].
      destruct (IH _ _ H); [left; now right | now right].
  - intros H. destruct (IH _ _ H); [left; now right | now right].
Qed.

Lemma repair_json_ext (s : str) :
  (forall c, In c s -> f c = g c) ->
  (forall c, In c (py "TrueFalseNonetruefalsenull") -> f c = g c) ->
  repair_json f s = repair_json g s.
Proof.
  intros Hs Hlit. unfold repair_json, sub_word. f_equal.
  assert (H1 : sub_word_from f (py "True") (py "true") 0 None s
               = sub_word_from g (py "True") (py "true") 0 None s).
  { apply sub_word_from_ext; [|assumption|discriminate].
    intros c Hc. apply Hlit. vm_compute in Hc |- *. tauto. }
  assert (Hs1 : forall c,
             In c (sub_word_from f (py "True") (py "true") 0 None s) ->
             f c = g c).
  { intros c Hc. apply sub_word_from_chars in Hc as [Hc|Hc]; [now apply Hs|].
    apply Hlit. vm_compute in Hc |- *. tauto. }
  set (s1 := sub_word_from f (py "True") (py "true") 0 None s) in *.
  assert (H2 : sub_word_from f (py "False") (py "false") 0 None s1
               = sub_word_from g (py "False") (py "false") 0 None s1).
  { apply sub_word_from_ext; [|assumption|discriminate].
    intros c Hc. apply Hlit. vm_compute in Hc |- *. tauto. }
  assert (Hs2 : forall c,
             In c (sub_word_from f (py "False") (py "false") 0 None s1) ->
             f c = g c).
  { intros c Hc. apply sub_word_from_chars in Hc as [Hc|Hc]; [now apply Hs1|].
    apply Hlit. vm_compute in Hc |- *. tauto. }
  rewrite <- H1, <- H2.
  apply sub_word_from_ext; [|assumption|discriminate].
  intros c Hc. apply Hlit. vm_compute in Hc |- *. tauto.
Qed.
End TableAgreement.

Lemma repair_json_below_256 (unicode_isalnum : char -> bool) (s : str) :
  (forall c, c < 256 -> unicode_isalnum c = isalnum_below_256 c) ->
  forallb (fun c => c <? 256) s = true ->
  repair_json unicode_isalnum s = repair_json isalnum_below_256 s.
Proof.
  intros Htable Hs. apply repair_json_ext.
  - intros c Hc. apply Htable, N.ltb_lt.
    rewrite forallb_forall in Hs. now apply Hs.
  - intros c Hc. apply Htable.
    assert (H : forallb (fun c => c <? 256) (py "TrueFalseNonetruefalsenull")
                = true) by reflexivity.
    rewrite forallb_forall in H. now apply N.ltb_lt, H.
Qed.

(** C5 (as amended). Whatever surrounds it in the reply, an Action Input
    block [{"ok": True, "v": None}], with its keys in double quotes, fails
    to decode as it is and decodes after the repair pass to the map
    [{"ok": true, "v": null}]; the block [{'ok': True, 'v': None}] of the
    specification, with its keys in single quotes, decodes neither before
    nor after the repair pass, which leaves quotes alone, and the input is
    the empty map. The table of [str.isalnum] need only agree with
    Python's below 256. *)
Theorem repair_pass_normalizes_literals (nesting_limit : nat)
    (unicode_isalnum : char -> bool) (text : str) :
  (forall c, c < 256 -> unicode_isalnum c = isalnum_below_256 c) ->
  (action_input_block text = Some payload_double_quoted ->
   json_loads nesting_limit payload_double_quoted = JSONDecodeError
   /\ parse_action_input nesting_limit unicode_isalnum text
      = Returns ok_true_v_null)
  /\ (action_input_block text = Some payload_single_quoted ->
      parse_action_input nesting_limit unicode_isalnum text
      = Returns (VDict [])).
Proof.
  intros Htable. unfold parse_action_input. split; intros ->.
  - split; [vm_compute; reflexivity|].
    rewrite (@repair_json_below_256 _ payload_double_quoted Htable)
      by reflexivity.
    vm_compute. reflexivity.
  - rewrite (@repair_json_below_256 _ payload_single_quoted Htable)
      by reflexivity.
    vm_compute. reflexivity.
Qed.

Lemma repair_pass_normalizes_literals_witness :
  action_input_block sample_double_quoted = Some payload_double_quoted
  /\ parse_action_input sample_nesting_limit isalnum_below_256
       sample_double_quoted
     = Returns ok_true_v_null
  /\ _parse_react_output sample_nesting_limit isalnum_below_256
       sample_double_quoted
     = P_action (py "t") (py "lookup") ok_true_v_null
  /\ action_input_block sample_single_quoted = Some payload_single_quoted
  /\ parse_action_input sample_nesting_limit isalnum_below_256
       sample_single_quoted
     = Returns (VDict []).
Proof.
  split; [reflexivity|]. split; [|split; [vm_compute; reflexivity|]].
  - exact (proj2 (proj1 (@repair_pass_normalizes_literals
                           sample_nesting_limit isalnum_below_256
                           sample_double_quoted (fun c _ => eq_refl))
                    eq_refl)).
  - split; [reflexivity|].
    exact (proj2 (@repair_pass_normalizes_literals sample_nesting_limit
                    isalnum_below_256 sample_single_quoted
                    (fun c _ => eq_refl))
             eq_refl).
Defined.

(** The reply of the specification, with its keys in single quotes: the
    repair pass does not make it decodable, and the input is the empty map,
    not [{"ok": true, "v": null}]. *)
Lemma single_quoted_payload_is_not_repaired :
  action_input_block sample_single_quoted = Some payload_single_quoted
  /\ repair_json isalnum_below_256 payload_single_quoted
     = py "{'ok': true, 'v': null}"
  /\ json_loads sample_nesting_limit (py "{'ok': true, 'v': null}")
     = JSONDecodeError
  /\ _parse_react_output sample_nesting_limit isalnum_below_256
       sample_single_quoted
     = P_action (py "t") (py "lookup") (VDict [])
  /\ _parse_react_output sample_nesting_limit isalnum_below_256
       sample_single_quoted
     <> P_action (py "t") (py "lookup") ok_true_v_null.
Proof.
  do 4 (split; [vm_compute; reflexivity|]).
  assert (E : _parse_react_output sample_nesting_limit isalnum_below_256
                sample_single_quoted
              = P_action (py "t") (py "lookup") (VDict []))
    by (vm_compute; reflexivity).
  rewrite E. discriminate.
Qed.

(** ** The dispatcher *)

Lemma dict_get_set_other (V : Type) (k k' : str) (v : V) (d : dict V) :
  k' <> k -> dict_get k (dict_set k' v d) = dict_get k d.
Proof.
  intros Hne. induction d as [|[k0 v0] d IH]; simpl.
  - destruct (str_eqb_spec k' k); [congruence | reflexivity].
  - destruct (str_eqb_spec k0 k') as [->|Hk0]; simpl.
    + destruct (str_eqb_spec k' k); [congruence | reflexivity].
    + now rewrite IH.
Qed.


Lemma contains_here (needle rest : str) :
  contains needle (needle ++ rest) = true.
Proof.
  assert (H : starts_with needle (needle ++ rest) = true).
  { induction needle as [|c needle IH]; simpl; [reflexivity|].
    now rewrite N.eqb_refl. }
  destruct (needle ++ rest); simpl in *; now rewrite H.
Qed.

Lemma contains_app_l (needle before s : str) :
  contains needle s = true -> contains needle (before ++ s) = true.
Proof.
  intros H. induction before as [|c before IH]; [assumption|].
  simpl. rewrite IH. apply orb_true_r.
Qed.

(** ** Sequences of steps *)

Lemma well_paired_app (pending : bool) (a b : list ReActStep) :
  well_paired pending a = true -> well_paired false b = true ->
  well_paired pending (a ++ b) = true.
Proof.
  revert pending; induction a as [|s a IH]; intros pending Ha Hb.
  - destruct pending; [discriminate | assumption].
  - simpl in *. destruct pending.
    + apply andb_true_iff in Ha as [-> Ha]. now apply IH.
    + destruct (is_action_step s); [now apply IH|].
      apply andb_true_iff in Ha as [-> Ha]. now apply IH.
Qed.

Lemma action_is_no_observation (s : ReActStep) :
  is_action_step s = true -> is_observation_step s = false.
Proof.
  unfold is_action_step, is_observation_step, has_kind.
  intros H. apply str_eqb_eq in H. now rewrite H.
Qed.

Lemma well_paired_counts (l : list ReActStep) :
  forall pending,
    well_paired pending l = true ->
    count_kind (py "observation") l
    = (count_kind (py "action") l + if pending then 1 else 0)%nat.
Proof.
  unfold count_kind.
  induction l as [|s l IH]; intros pending H; simpl in *.
  - now destruct pending.
  - fold (is_action_step s) (is_observation_step s). destruct pending.
    + apply andb_true_iff in H as [Hs H]. rewrite Hs.
      destruct (is_action_step s) eqn:Ha;
        [apply action_is_no_observation in Ha; congruence|].
      simpl. rewrite (IH _ H). lia.
    + destruct (is_action_step s) eqn:Ha.
      * rewrite (action_is_no_observation _ Ha). simpl.
        rewrite (IH _ H). lia.
      * apply andb_true_iff in H as [Hs H]. apply negb_true_iff in Hs.
        rewrite Hs. rewrite (IH _ H). lia.
Qed.

Lemma cycle_paired (l : list ReActStep) : cycle l -> well_paired false l = true.
Proof. intros [thought ? ? ? ? ? ?]. now destruct thought. Qed.

Lemma cycle_counts (l : list ReActStep) :
  cycle l ->
  count_kind (py "action") l = 1%nat
  /\ count_kind (py "observation") l = 1%nat
  /\ forallb is_progress_step l = true.
Proof. intros [thought ? ? ? ? ? ?]. now destruct thought. Qed.

Lemma count_kind_app kind (a b : list ReActStep) :
  count_kind kind (a ++ b) = (count_kind kind a + count_kind kind b)%nat.
Proof. unfold count_kind. now rewrite filter_app, length_app. Qed.

Lemma cycles_count (cycles : list (list ReActStep)) :
  Forall cycle cycles ->
  count_kind (py "action") (concat cycles) = length cycles
  /\ count_kind (py "observation") (concat cycles) = length cycles
  /\ forallb is_progress_step (concat cycles) = true.
Proof.
  induction 1 as [|c cycles Hc _ (IH1 & IH2 & IH3)]; [now split|].
  destruct (cycle_counts Hc) as (H1 & H2 & H3).
  simpl. rewrite !count_kind_app, forallb_app, H1, H2, H3, IH1, IH2, IH3.
  now split.
Qed.

Lemma count_kind_progress kind (l : list ReActStep) :
  forallb is_progress_step l = true ->
  kind <> py "thought" -> kind <> py "action" -> kind <> py "observation" ->
  count_kind kind l = 0%nat.
Proof.
  intros Hprog H1 H2 H3. unfold count_kind.
  induction l as [|s l IHl]; [reflexivity|].
  simpl in Hprog. apply andb_true_iff in Hprog as [Hs Hprog].
  simpl. unfold is_progress_step, is_action_step, is_observation_step, has_kind
    in Hs |- *.
  destruct (str_eqb_spec (step_type s) kind) as [E|_]; [|now apply IHl].
  rewrite E in Hs.
  apply orb_true_iff in Hs as [Hs|Hs];
    [apply orb_true_iff in Hs as [Hs|Hs]|];
    apply str_eqb_eq in Hs; congruence.
Qed.

(** ** The loop driver *)

Section AgentFacts.
Variable W : Type.
Variable nesting_limit : nat.
Variable unicode_isalnum : char -> bool.
Variable json_dumps : value -> str.
Variable json_dumps_indent2 : value -> str.
Variable now_isoformat : W -> str * W.
Variable now_kolkata : W -> str * W.
Variable self : ReActAgent W.
Variable user_input : str.
Variable max_iterations : Z.
Variable callback : option (ReActStep -> W -> W).
Variable conversation_history : option (list Message).
Variable cancellation_callback : option (W -> bool * W).

Local Abbreviation body :=
  (iteration_body nesting_limit unicode_isalnum json_dumps json_dumps_indent2
     now_isoformat self user_input callback conversation_history
     cancellation_callback).
Local Abbreviation case_of :=
  (body_case nesting_limit unicode_isalnum json_dumps json_dumps_indent2 self
     user_input conversation_history cancellation_callback).
Local Abbreviation check := (cancellation_requested cancellation_callback).

Local Arguments _execute_tool : simpl never.
Local Arguments _parse_react_output : simpl never.
Local Arguments full_prompt : simpl never.
Local Arguments llm_error_content : simpl never.
Local Arguments scratchpad_after_action : simpl never.
Local Arguments max_iterations_text : simpl never.
Local Arguments cancellation_requested : simpl never.

Lemma check_emitted (st : run_state W) : emitted (snd (check st)) = emitted st.
Proof.
  unfold cancellation_requested. now destruct cancellation_callback.
Qed.

(** Every pass through the loop body goes one of the seven ways, and adds
    the steps of that way to the steps yielded so far. *)
Lemma iteration_body_case (time_context agent_scratchpad : str)
    (st : run_state W) :
  exists new,
    case_of time_context agent_scratchpad st
      (fst (body time_context agent_scratchpad st)) new
    /\ emitted (snd (body time_context agent_scratchpad st))
       = emitted st ++ new.
Proof.
  unfold iteration_body, bind.
  destruct (fst (check st)) eqn:Hc.
  - eexists. split; [now apply case_cancelled|].
    cbn. now rewrite check_emitted.
  - cbn [call fst snd world emitted].
    destruct (llm self _ (world (snd (check st)))) as [[content|e] w] eqn:Hllm;
      cbn [fst snd].
    + destruct (_parse_react_output nesting_limit unicode_isalnum
                  (strip content))
        as [answer|thought action action_input|thought|raw|e] eqn:Hparse.
      * eexists. split; [now eapply case_final_answer; eauto|].
        cbn. now rewrite check_emitted.
      * destruct thought as [|c thought];
          match goal with
          | |- context [_execute_tool ?l ?d ?a ?n ?i ?w0] =>
              destruct (_execute_tool l d a n i w0)
                as [observation w2] eqn:Htool
          end;
          (eexists; split;
           [eapply case_action;
            [exact Hc | exact Hllm | exact Hparse | exact Htool]
           |cbn; rewrite check_emitted, <- ?app_assoc; reflexivity]).
      * eexists. split; [now eapply case_thought; eauto|].
        cbn. now rewrite check_emitted.
      * eexists. split; [now eapply case_unknown; eauto|].
        cbn. now rewrite check_emitted, app_nil_r.
      * eexists. split; [now eapply case_parse_raised; eauto|].
        cbn. now rewrite check_emitted, app_nil_r.
    + eexists. split; [now eapply case_llm_raised; eauto|].
      cbn. now rewrite check_emitted.
  Unshelve. all: exact [].
Qed.

Local Abbreviation loop :=
  (while_loop nesting_limit unicode_isalnum json_dumps json_dumps_indent2
     now_isoformat self user_input max_iterations callback conversation_history
     cancellation_callback).
Local Abbreviation run :=
  (run_streaming nesting_limit unicode_isalnum json_dumps json_dumps_indent2
     now_isoformat now_kolkata self user_input max_iterations callback
     conversation_history cancellation_callback).
Local Abbreviation prompt_of :=
  (full_prompt self user_input conversation_history).

(** The pass of a cancelled run. *)
Lemma body_cancelled time_context agent_scratchpad (st : run_state W) :
  fst (check st) = true ->
  exists ts,
    fst (body time_context agent_scratchpad st) = Return cancelled_text
    /\ emitted (snd (body time_context agent_scratchpad st))
       = emitted st ++ [plain_step (py "final_answer") cancelled_text ts].
Proof.
  intros Hc.
  destruct (iteration_body_case time_context agent_scratchpad st)
    as (new & Hcase & Hnew).
  inversion Hcase; subst; try congruence. now exists ts.
Qed.

(** The pass of a reply that parses as an action. *)
Lemma body_action time_context agent_scratchpad (st : run_state W)
    response_content w thought action action_input :
  fst (check st) = false ->
  llm self (prompt_of time_context agent_scratchpad) (world (snd (check st)))
  = (LLMContent response_content, w) ->
  _parse_react_output nesting_limit unicode_isalnum (strip response_content)
  = P_action thought action action_input ->
  exists w1 observation w2 ts1 ts2 ts3,
    _execute_tool nesting_limit json_dumps_indent2 self action action_input w1
    = (observation, w2)
    /\ fst (body time_context agent_scratchpad st)
       = Continue
           (scratchpad_after_action json_dumps agent_scratchpad thought
              action action_input observation)
    /\ emitted (snd (body time_context agent_scratchpad st))
       = emitted st
         ++ (match thought with
             | _ :: _ => [plain_step (py "thought") thought ts1]
             | [] => []
             end
             ++ [action_step action action_input ts2;
                 observation_step action observation ts3]).
Proof.
  intros Hc Hllm Hparse.
  destruct (iteration_body_case time_context agent_scratchpad st)
    as (new & Hcase & Hnew).
  inversion Hcase; subst; try congruence.
  match goal with
  | H : llm _ _ _ = (LLMContent ?c, _) |- _ =>
      assert (c = response_content) by congruence; subst c
  end.
  match goal with
  | H : _parse_react_output _ _ _ = P_action ?t ?a ?i |- _ =>
      assert (E : P_action t a i = P_action thought action action_input)
        by congruence;
      injection E as -> -> ->
  end.
  now exists w1, observation, w2, ts1, ts2, ts3.
Qed.

Local Abbreviation execute :=
  (_execute_tool nesting_limit json_dumps_indent2 self).


(** A pass that continues hands over to the loop test. *)
Lemma loop_continue fuel time_context iteration agent_scratchpad
    (st : run_state W) agent_scratchpad' :
  (iteration < max_iterations)%Z ->
  fst (body time_context agent_scratchpad st) = Continue agent_scratchpad' ->
  loop (S fuel) time_context iteration agent_scratchpad st
  = loop fuel time_context (iteration + 1)%Z agent_scratchpad'
      (snd (body time_context agent_scratchpad st)).
Proof.
  intros Hlt Hflow. cbn [while_loop].
  apply Z.ltb_lt in Hlt. rewrite Hlt.
  destruct (body time_context agent_scratchpad st) as [fl st'].
  simpl in Hflow. now subst fl.
Qed.

(** A pass that returns ends the run. *)
Lemma loop_return fuel time_context iteration agent_scratchpad
    (st : run_state W) answer :
  (iteration < max_iterations)%Z ->
  fst (body time_context agent_scratchpad st) = Return answer ->
  loop (S fuel) time_context iteration agent_scratchpad st
  = Some (Returned (finish answer (iteration + 1)%Z
                      (snd (body time_context agent_scratchpad st)))).
Proof.
  intros Hlt Hflow. cbn [while_loop].
  apply Z.ltb_lt in Hlt. rewrite Hlt.
  destruct (body time_context agent_scratchpad st) as [fl st'].
  simpl in Hflow. now subst fl.
Qed.

(** A pass that an exception leaves ends the run, with the counter and
    the state of that pass. *)
Lemma loop_raise fuel time_context iteration agent_scratchpad
    (st : run_state W) e :
  (iteration < max_iterations)%Z ->
  fst (body time_context agent_scratchpad st) = Raise e ->
  loop (S fuel) time_context iteration agent_scratchpad st
  = Some (Raised e (iteration + 1)%Z
            (snd (body time_context agent_scratchpad st))).
Proof.
  intros Hlt Hflow. cbn [while_loop].
  apply Z.ltb_lt in Hlt. rewrite Hlt.
  destruct (body time_context agent_scratchpad st) as [fl st'].
  simpl in Hflow. now subst fl.
Qed.

(** The pass that an exception leaves has yielded nothing. *)
Lemma body_case_raise time_context agent_scratchpad (st : run_state W)
    e new :
  case_of time_context agent_scratchpad st (Raise e) new -> new = [].
Proof. intros Hcase. now inversion Hcase. Qed.


Local Abbreviation cap_reached :=
  (max_iterations_reached now_isoformat max_iterations callback).
Local Abbreviation cap_step :=
  (plain_step (py "final_answer") (max_iterations_text max_iterations)).

Lemma cap_reached_emits (st : run_state W) :
  exists ts,
    fst (cap_reached st) = max_iterations_text max_iterations
    /\ emitted (snd (cap_reached st)) = emitted st ++ [cap_step ts].
Proof. eexists. split; reflexivity. Qed.

(** When the loop test fails the cap-reached step ends the run. *)
Lemma loop_exit fuel time_context iteration agent_scratchpad
    (st : run_state W) :
  (max_iterations <= iteration)%Z ->
  exists ts r,
    loop (S fuel) time_context iteration agent_scratchpad st
    = Some (Returned r)
    /\ steps r = emitted st ++ [cap_step ts]
    /\ answer r = max_iterations_text max_iterations
    /\ iterations r = iteration.
Proof.
  intros Hge. cbn [while_loop].
  apply Z.ltb_ge in Hge. rewrite Hge.
  destruct (cap_reached_emits st) as (ts & Ha & He).
  destruct (cap_reached st) as [a st']. simpl in Ha, He. subst a.
  exists ts. eexists. split; [reflexivity|]. now split.
Qed.

(** The loop ends: the fuel that [run_streaming] gives suffices. *)
Lemma loop_total fuel :
  forall time_context iteration agent_scratchpad (st : run_state W),
    (Z.to_nat (max_iterations - iteration) < fuel)%nat ->
    exists e, loop fuel time_context iteration agent_scratchpad st = Some e.
Proof.
  induction fuel as [|fuel IH]; intros tc it sp st Hfuel; [lia|].
  destruct (Z.lt_ge_cases it max_iterations) as [Hlt|Hge].
  - destruct (fst (body tc sp st)) as [a|sp'|e] eqn:Hflow.
    + rewrite (loop_return fuel tc sp st Hlt Hflow). now eexists.
    + rewrite (loop_continue fuel tc sp st Hlt Hflow). apply IH. lia.
    + rewrite (loop_raise fuel tc sp st Hlt Hflow). now eexists.
  - destruct (loop_exit fuel tc sp st Hge) as (ts & r & Hr & _).
    now exists (Returned r).
Qed.

(** A rule for the runs of the loop: [I] holds of the steps yielded
    whenever the loop test is reached, and of the steps of a run that an
    exception leaves; [Q] holds of the steps and the answer of a run that
    returns. *)
Lemma loop_ends (I : list ReActStep -> Prop)
    (Q : list ReActStep -> str -> Prop) :
  (forall time_context agent_scratchpad (st : run_state W) sp' new,
      I (emitted st) ->
      case_of time_context agent_scratchpad st (Continue sp') new ->
      I (emitted st ++ new)) ->
  (forall time_context agent_scratchpad (st : run_state W) a new,
      I (emitted st) ->
      case_of time_context agent_scratchpad st (Return a) new ->
      Q (emitted st ++ new) a) ->
  (forall es ts,
      I es -> Q (es ++ [cap_step ts]) (max_iterations_text max_iterations)) ->
  forall fuel time_context iteration agent_scratchpad (st : run_state W)
         (e : run_end W),
    I (emitted st) ->
    loop fuel time_context iteration agent_scratchpad st = Some e ->
    match e with
    | Returned r => Q (steps r) (answer r)
    | Raised _ _ st' => I (emitted st')
    end.
Proof.
  intros Hcont Hret Hcap.
  induction fuel as [|fuel IH]; intros tc it sp st e HI Hrun;
    [discriminate|].
  destruct (Z.lt_ge_cases it max_iterations) as [Hlt|Hge].
  - destruct (iteration_body_case tc sp st) as (new & Hcase & Hnew).
    destruct (fst (body tc sp st)) as [a|sp'|x] eqn:Hflow.
    + rewrite (loop_return fuel tc sp st Hlt Hflow) in Hrun.
      injection Hrun as <-. simpl. rewrite Hnew. now apply (Hret tc sp).
    + rewrite (loop_continue fuel tc sp st Hlt Hflow) in Hrun.
      apply (IH _ _ _ _ _ (ltac:(rewrite Hnew; now apply (Hcont tc sp st sp')))
               Hrun).
    + rewrite (loop_raise fuel tc sp st Hlt Hflow) in Hrun.
      injection Hrun as <-. rewrite Hnew, (body_case_raise Hcase).
      now rewrite app_nil_r.
  - destruct (loop_exit fuel tc sp st Hge) as (ts & r' & Hr & Hs & Ha & _).
    rewrite Hr in Hrun. injection Hrun as <-. rewrite Hs, Ha.
    now apply Hcap.
Qed.

Lemma loop_rule (I : list ReActStep -> Prop)
    (Q : list ReActStep -> str -> Prop) :
  (forall time_context agent_scratchpad (st : run_state W) sp' new,
      I (emitted st) ->
      case_of time_context agent_scratchpad st (Continue sp') new ->
      I (emitted st ++ new)) ->
  (forall time_context agent_scratchpad (st : run_state W) a new,
      I (emitted st) ->
      case_of time_context agent_scratchpad st (Return a) new ->
      Q (emitted st ++ new) a) ->
  (forall es ts,
      I es -> Q (es ++ [cap_step ts]) (max_iterations_text max_iterations)) ->
  forall fuel time_context iteration agent_scratchpad (st : run_state W) r,
    I (emitted st) ->
    loop fuel time_context iteration agent_scratchpad st
    = Some (Returned r) ->
    Q (steps r) (answer r).
Proof.
  intros Hcont Hret Hcap fuel tc it sp st r HI Hrun.
  exact (@loop_ends I Q Hcont Hret Hcap fuel tc it sp st (Returned r) HI
           Hrun).
Qed.

Lemma body_case_paired time_context agent_scratchpad (st : run_state W)
    fl new :
  case_of time_context agent_scratchpad st fl new ->
  well_paired false new = true.
Proof.
  intros Hcase. inversion Hcase; subst; try reflexivity.
  now destruct thought.
Qed.

(** C3. Every run of [run_streaming] ends, and among the steps it has
    yielded, however it ended (by a final answer, at the cap, on
    cancellation, on a failure of the model, or by an exception of the
    parser), every action step is followed at once by an observation step
    and no observation step comes elsewhere; so the observation steps are
    as many as the action steps. *)
Theorem observations_match_actions (w : W) :
  exists e,
    run w = Some e
    /\ well_paired false (yielded e) = true
    /\ count_kind (py "observation") (yielded e)
       = count_kind (py "action") (yielded e).
Proof.
  destruct (loop_total (fuel := S (Z.to_nat max_iterations))
              (time_context_at now_kolkata w) 0 []
              (initial_state now_kolkata w)) as [e He]; [lia|].
  exists e. split; [exact He|].
  assert (Hp : well_paired false (yielded e) = true).
  { assert (H := fun H1 H2 H3 =>
                   @loop_ends (fun es => well_paired false es = true)
                     (fun es _ => well_paired false es = true) H1 H2 H3
                     _ _ _ _ (initial_state now_kolkata w) e eq_refl He).
    destruct e as [r|x it st]; apply H.
    all: try (intros tc sp st0 a new HI Hcase;
              apply well_paired_app;
              [assumption | now apply body_case_paired in Hcase]).
    all: intros es ts HI; now apply well_paired_app. }
  split; [exact Hp|].
  rewrite (well_paired_counts _ _ Hp). lia.
Qed.

Lemma check_without_request (st : run_state W) :
  (forall is_cancelled,
      cancellation_callback = Some is_cancelled ->
      forall w, fst (is_cancelled w) = false) ->
  fst (check st) = false.
Proof.
  intros H. unfold cancellation_requested.
  destruct cancellation_callback as [is_cancelled|]; [|reflexivity].
  apply (H is_cancelled eq_refl).
Qed.

(** With a model that always asks for an action and no cancellation, the
    loop runs one cycle per remaining iteration and then the cap-reached
    step ends the run. *)
Lemma loop_of_actions :
  (forall is_cancelled,
      cancellation_callback = Some is_cancelled ->
      forall w, fst (is_cancelled w) = false) ->
  (forall prompt w,
      exists response_content w' thought action action_input,
        llm self prompt w = (LLMContent response_content, w')
        /\ _parse_react_output nesting_limit unicode_isalnum
             (strip response_content)
           = P_action thought action action_input) ->
  forall (n fuel : nat) time_context iteration agent_scratchpad
         (st : run_state W),
    Z.to_nat (max_iterations - iteration) = n ->
    (n < fuel)%nat ->
    exists r cycles ts,
      loop fuel time_context iteration agent_scratchpad st = Some (Returned r)
      /\ length cycles = n
      /\ Forall cycle cycles
      /\ steps r = emitted st ++ concat cycles ++ [cap_step ts]
      /\ answer r = max_iterations_text max_iterations
      /\ iterations r = (iteration + Z.of_nat n)%Z.
Proof.
  intros Hcancel Hmodel.
  induction n as [|n IH]; intros fuel tc it sp st Hn Hfuel;
    (destruct fuel as [|fuel]; [lia|]).
  - destruct (loop_exit fuel tc sp st (iteration := it))
      as (ts & r & Hr & Hs & Ha & Hi); [lia|].
    exists r, [], ts. rewrite Z.add_0_r. now repeat split.
  - destruct (Hmodel (prompt_of tc sp) (world (snd (check st))))
      as (content & w' & thought & action & input & Hllm & Hparse).
    destruct (body_action tc sp st (check_without_request st Hcancel)
                Hllm Hparse)
      as (w1 & observation & w2 & ts1 & ts2 & ts3 & _ & Hflow & Hsteps).
    assert (Hlt : (it < max_iterations)%Z) by lia.
    rewrite (loop_continue fuel tc sp st Hlt Hflow).
    destruct (IH fuel tc (it + 1)%Z
                (scratchpad_after_action json_dumps sp thought action input
                   observation)
                (snd (body tc sp st)))
      as (r & cycles & ts & Hr & Hlen & Hall & Hs & Ha & Hi); [lia|lia|].
    exists r,
      ((match thought with
        | _ :: _ => [plain_step (py "thought") thought ts1]
        | [] => []
        end
        ++ [action_step action input ts2;
            observation_step action observation ts3]) :: cycles), ts.
    split; [exact Hr|]. split; [simpl; now rewrite Hlen|].
    split; [constructor; [apply cycle_steps | exact Hall]|].
    split; [rewrite Hs, Hsteps; simpl concat; now rewrite <- !app_assoc|].
    split; [exact Ha|]. rewrite Hi. lia.
Qed.

(** C2. With a cap of at least one, a model whose every reply parses as
    an action, and a cancellation predicate that never holds, the run
    returns after yielding one action/observation cycle per iteration up
    to the cap, as many as the cap says, and then the cap-reached step
    and nothing more; the iteration counter ends at the cap. *)
Theorem cap_ends_a_run_of_actions (w : W) :
  (1 <= max_iterations)%Z ->
  (forall is_cancelled,
      cancellation_callback = Some is_cancelled ->
      forall w, fst (is_cancelled w) = false) ->
  (forall prompt w,
      exists response_content w' thought action action_input,
        llm self prompt w = (LLMContent response_content, w')
        /\ _parse_react_output nesting_limit unicode_isalnum
             (strip response_content)
           = P_action thought action action_input) ->
  exists r cycles ts,
    run w = Some (Returned r)
    /\ length cycles = Z.to_nat max_iterations
    /\ Forall cycle cycles
    /\ steps r = concat cycles ++ [cap_step ts]
    /\ count_kind (py "action") (steps r) = Z.to_nat max_iterations
    /\ count_kind (py "observation") (steps r) = Z.to_nat max_iterations
    /\ count_kind (py "final_answer") (steps r) = 1%nat
    /\ count_kind (py "error") (steps r) = 0%nat
    /\ answer r = max_iterations_text max_iterations
    /\ iterations r = max_iterations.
Proof.
  intros Hmax Hcancel Hmodel.
  destruct (@loop_of_actions Hcancel Hmodel (Z.to_nat max_iterations)
              (S (Z.to_nat max_iterations))
              (time_context_at now_kolkata w) 0%Z []
              (initial_state now_kolkata w))
    as (r & cycles & ts & Hr & Hlen & Hall & Hs & Ha & Hi); [lia|lia|].
  exists r, cycles, ts. simpl in Hs.
  destruct (cycles_count Hall) as (Hca & Hco & Hprog).
  split; [exact Hr|]. split; [exact Hlen|]. split; [exact Hall|].
  split; [exact Hs|].
  rewrite Hs, !count_kind_app, Hca, Hco, Hlen.
  change (count_kind (py "action") [cap_step ts]) with 0%nat.
  change (count_kind (py "observation") [cap_step ts]) with 0%nat.
  change (count_kind (py "final_answer") [cap_step ts]) with 1%nat.
  change (count_kind (py "error") [cap_step ts]) with 0%nat.
  split; [lia|]. split; [lia|].
  rewrite !(count_kind_progress _ Hprog) by discriminate.
  split; [reflexivity|]. split; [reflexivity|].
  split; [exact Ha|]. rewrite Hi. lia.
Qed.

Lemma body_case_progress time_context agent_scratchpad (st : run_state W)
    sp' new :
  case_of time_context agent_scratchpad st (Continue sp') new ->
  forallb is_progress_step new = true.
Proof.
  intros Hcase. inversion Hcase; subst; try reflexivity.
  now destruct thought.
Qed.

Local Abbreviation passes_from :=
  (passes nesting_limit unicode_isalnum json_dumps json_dumps_indent2
     now_isoformat self user_input max_iterations callback conversation_history
     cancellation_callback).

(** The passes that did not return: the counter has advanced by one per
    pass, the steps yielded are progress steps, and the loop goes on from
    the state they lead to. *)
Lemma passes_spec (k : nat) :
  forall time_context iteration agent_scratchpad (st : run_state W)
         iteration' agent_scratchpad' st',
    passes_from k time_context iteration agent_scratchpad st
    = Some (iteration', agent_scratchpad', st') ->
    iteration' = (iteration + Z.of_nat k)%Z
    /\ (exists new,
          emitted st' = emitted st ++ new
          /\ forallb is_progress_step new = true)
    /\ (forall fuel,
          loop (k + fuel) time_context iteration agent_scratchpad st
          = loop fuel time_context iteration' agent_scratchpad' st').
Proof.
  induction k as [|k IH]; intros tc it sp st it' sp' st' H.
  - injection H as <- <- <-. rewrite Z.add_0_r.
    split; [reflexivity|]. split; [|reflexivity].
    exists []. now rewrite app_nil_r.
  - cbn [passes] in H.
    destruct (it <? max_iterations)%Z eqn:Hlt; [|discriminate].
    apply Z.ltb_lt in Hlt.
    destruct (iteration_body_case tc sp st) as (new & Hcase & Hnew).
    destruct (body tc sp st) as [[a|sp1|e] st1] eqn:Hbody;
      [discriminate| |discriminate].
    simpl in Hcase, Hnew.
    destruct (IH _ _ _ _ _ _ _ H) as (Hit & (new' & Hnew' & Hprog) & Hloop).
    split; [lia|]. split.
    + exists (new ++ new'). rewrite Hnew', Hnew, app_assoc. split; [reflexivity|].
      rewrite forallb_app, Hprog, (body_case_progress Hcase). reflexivity.
    + intros fuel. cbn [Nat.add].
      rewrite (loop_continue (k + fuel) tc sp st (agent_scratchpad' := sp1) Hlt)
        by now rewrite Hbody.
      rewrite Hbody. apply Hloop.
Qed.

(** C4. Let the first [k] passes of a run go through without returning,
    and let the cancellation predicate hold when it is consulted at the
    top of the next iteration, the one numbered [k + 1]. Then the run
    returns there: its steps are those of the first [k] iterations as
    they were yielded, all of them thoughts, actions and observations,
    followed by the one cancellation notice and nothing else; the answer
    is the notice and the counter stops at [k + 1]. *)
Theorem cancellation_ends_the_run (w : W) (k : nat) iteration
    agent_scratchpad (st : run_state W) :
  first_passes nesting_limit unicode_isalnum json_dumps json_dumps_indent2
    now_isoformat now_kolkata self user_input max_iterations callback
    conversation_history cancellation_callback k w
  = Some (iteration, agent_scratchpad, st) ->
  (iteration < max_iterations)%Z ->
  fst (check st) = true ->
  exists ts r,
    run w = Some (Returned r)
    /\ steps r
       = emitted st ++ [plain_step (py "final_answer") cancelled_text ts]
    /\ forallb is_progress_step (emitted st) = true
    /\ answer r = cancelled_text
    /\ iteration = Z.of_nat k
    /\ iterations r = Z.of_nat (S k).
Proof.
  intros Hpasses Hlt Hc. unfold first_passes in Hpasses.
  destruct (passes_spec _ _ _ _ _ Hpasses)
    as (Hit & (new & Hnew & Hprog) & Hloop).
  simpl in Hit, Hnew. subst new.
  destruct (body_cancelled (time_context_at now_kolkata w) agent_scratchpad
              st Hc) as (ts & Hflow & Hsteps).
  exists ts. eexists. split.
  - unfold run_streaming.
    replace (S (Z.to_nat max_iterations))
      with (k + S (Z.to_nat max_iterations - k))%nat by lia.
    rewrite Hloop.
    apply (loop_return _ _ _ _ Hlt Hflow).
  - simpl. split; [exact Hsteps|]. split; [exact Hprog|].
    split; [reflexivity|]. split; lia.
Qed.

(** The pass of a reply that parses as a final answer. *)
Lemma body_final_answer time_context agent_scratchpad (st : run_state W)
    response_content w answer :
  fst (check st) = false ->
  llm self (prompt_of time_context agent_scratchpad) (world (snd (check st)))
  = (LLMContent response_content, w) ->
  _parse_react_output nesting_limit unicode_isalnum (strip response_content)
  = P_final_answer answer ->
  exists ts,
    fst (body time_context agent_scratchpad st) = Return answer
    /\ emitted (snd (body time_context agent_scratchpad st))
       = emitted st ++ [plain_step (py "final_answer") answer ts].
Proof.
  intros Hc Hllm Hparse.
  destruct (iteration_body_case time_context agent_scratchpad st)
    as (new & Hcase & Hnew).
  inversion Hcase; subst; try congruence.
  match goal with
  | H : llm _ _ _ = (LLMContent ?c, _) |- _ =>
      assert (c = response_content) by congruence; subst c
  end.
  match goal with
  | H : _parse_react_output _ _ _ = P_final_answer ?a |- _ =>
      assert (a = answer) by congruence; subst a
  end.
  now exists ts.
Qed.

(** The pass of a failed model invocation. *)
Lemma body_llm_raised time_context agent_scratchpad (st : run_state W)
    error_str w :
  fst (check st) = false ->
  llm self (prompt_of time_context agent_scratchpad) (world (snd (check st)))
  = (LLMRaised error_str, w) ->
  exists ts,
    fst (body time_context agent_scratchpad st)
    = Return (llm_error_content error_str)
    /\ emitted (snd (body time_context agent_scratchpad st))
       = emitted st
         ++ [plain_step (py "error") (llm_error_content error_str) ts].
Proof.
  intros Hc Hllm.
  destruct (iteration_body_case time_context agent_scratchpad st)
    as (new & Hcase & Hnew).
  inversion Hcase; subst; try congruence.
  match goal with
  | H : llm _ _ _ = (LLMRaised ?e, _) |- _ =>
      assert (e = error_str) by congruence; subst e
  end.
  now exists ts.
Qed.

(** C10. The step that ends a run on cancellation, the step that ends it
    at the cap and the step of a final answer of the model are all plain
    steps of type ['final_answer'], alike but for their content (and
    time); the step of a failed model invocation is of type ['error'].
    In every run that returns the last step is the only one that is not
    a thought, an action or an observation, its content is the answer
    returned, and it is of type ['final_answer'] or else an ['error'] step
    that reports a failure of the model. A run that an exception of the
    parser leaves has yielded thoughts, actions and observations only: no
    ['error'] step stands for it. *)
Theorem only_model_failure_is_an_error :
  (forall time_context agent_scratchpad (st : run_state W),
      fst (check st) = true ->
      exists ts,
        fst (body time_context agent_scratchpad st) = Return cancelled_text
        /\ emitted (snd (body time_context agent_scratchpad st))
           = emitted st
             ++ [plain_step (py "final_answer") cancelled_text ts])
  /\ (forall fuel time_context iteration agent_scratchpad
              (st : run_state W),
        (max_iterations <= iteration)%Z ->
        exists ts r,
          loop (S fuel) time_context iteration agent_scratchpad st
            = Some (Returned r)
          /\ steps r
             = emitted st
               ++ [plain_step (py "final_answer")
                     (max_iterations_text max_iterations) ts])
  /\ (forall time_context agent_scratchpad (st : run_state W)
              response_content w answer,
        fst (check st) = false ->
        llm self (prompt_of time_context agent_scratchpad)
          (world (snd (check st)))
        = (LLMContent response_content, w) ->
        _parse_react_output nesting_limit unicode_isalnum
          (strip response_content)
        = P_final_answer answer ->
        exists ts,
          fst (body time_context agent_scratchpad st) = Return answer
          /\ emitted (snd (body time_context agent_scratchpad st))
             = emitted st ++ [plain_step (py "final_answer") answer ts])
  /\ (forall time_context agent_scratchpad (st : run_state W) error_str w,
        fst (check st) = false ->
        llm self (prompt_of time_context agent_scratchpad)
          (world (snd (check st)))
        = (LLMRaised error_str, w) ->
        exists ts,
          fst (body time_context agent_scratchpad st)
          = Return (llm_error_content error_str)
          /\ emitted (snd (body time_context agent_scratchpad st))
             = emitted st
               ++ [plain_step (py "error") (llm_error_content error_str)
                     ts])
  /\ (forall w r,
        run w = Some (Returned r) ->
        exists before last,
          steps r = before ++ [last]
          /\ forallb is_progress_step before = true
          /\ content last = answer r
          /\ (is_final_answer_step last = true
              \/ (is_error_step last = true
                  /\ exists prompt w0 error_str w1,
                       llm self prompt w0 = (LLMRaised error_str, w1)
                       /\ last
                          = plain_step (py "error")
                              (llm_error_content error_str)
                              (timestamp last))))
  /\ (forall w e iteration st,
        run w = Some (Raised e iteration st) ->
        forallb is_progress_step (emitted st) = true).
Proof.
  split; [intros; now apply body_cancelled|].
  split.
  { intros fuel tc it sp st Hge.
    destruct (loop_exit fuel tc sp st Hge) as (ts & r & Hr & Hs & _).
    now exists ts, r. }
  split; [intros; now eapply body_final_answer; eauto|].
  split; [intros; now eapply body_llm_raised; eauto|].
  split; [|intros w e it st He;
           refine (@loop_ends
                     (fun es => forallb is_progress_step es = true)
                     (fun _ _ => True) _ _ _ _ _ _ _
                     (initial_state now_kolkata w) (Raised e it st) eq_refl
                     He);
           [intros tc sp st0 sp' new HI Hcase;
            now rewrite forallb_app, HI, (body_case_progress Hcase)
           |exact (fun _ _ _ _ _ _ _ => I)
           |exact (fun _ _ _ => I)]].
  intros w r Hr.
  eapply (@loop_rule
            (fun es => forallb is_progress_step es = true)
            (fun es a =>
               exists before last,
                 es = before ++ [last]
                 /\ forallb is_progress_step before = true
                 /\ content last = a
                 /\ (is_final_answer_step last = true
                     \/ (is_error_step last = true
                         /\ exists prompt w0 error_str w1,
                              llm self prompt w0 = (LLMRaised error_str, w1)
                              /\ last
                                 = plain_step (py "error")
                                     (llm_error_content error_str)
                                     (timestamp last)))));
    [| | | |exact Hr].
  - intros tc sp st sp' new HI Hcase.
    now rewrite forallb_app, HI, (body_case_progress Hcase).
  - intros tc sp st a new HI Hcase.
    inversion Hcase; subst; eexists; eexists;
      (split; [reflexivity|]); (split; [exact HI|]);
      (split; [reflexivity|]).
    + now left.
    + right. split; [reflexivity|]. eauto 10.
    + now left.
  - intros es ts HI. exists es, (cap_step ts). repeat split; auto.
  - reflexivity.
Qed.
End AgentFacts.

(** ** The properties on sample runs *)

Lemma cap_ends_a_run_of_actions_witness :
  (1 <= 3)%Z
  /\ exists r cycles ts,
       sample_run acting_agent 3 None = Some (Returned r)
       /\ length cycles = 3%nat
       /\ steps r
          = concat cycles
            ++ [plain_step (py "final_answer") (max_iterations_text 3) ts]
       /\ count_kind (py "action") (steps r) = 3%nat
       /\ iterations r = 3%Z.
Proof.
  split; [lia|].
  destruct (@cap_ends_a_run_of_actions nat sample_nesting_limit
              isalnum_below_256 sample_dumps sample_dumps sample_now sample_now
              acting_agent
              (py "What is new?") 3%Z None None None 0%nat)
    as (r & cycles & ts & Hr & Hlen & _ & Hs & Ha & _ & _ & _ & _ & Hi).
  - lia.
  - discriminate.
  - intros prompt w.
    exists (py "Thought: dig" ++ nl ++ py "Action: search" ++ nl
            ++ py "Action Input: {}"), w, (py "dig"), (py "search"), (VDict []).
    split; reflexivity.
  - exists r, cycles, ts. repeat split; assumption.
Defined.

Lemma cancellation_ends_the_run_witness :
  exists iteration agent_scratchpad st,
    first_passes sample_nesting_limit isalnum_below_256 sample_dumps
      sample_dumps sample_now
      sample_now thinking_agent (py "What is new?") 10 None None
      (Some cancel_at_third_check) 2 0%nat
    = Some (iteration, agent_scratchpad, st)
    /\ (iteration < 10)%Z
    /\ fst (cancellation_requested (Some cancel_at_third_check) st) = true
    /\ exists ts r,
         sample_run thinking_agent 10 (Some cancel_at_third_check)
           = Some (Returned r)
         /\ steps r
            = emitted st ++ [plain_step (py "final_answer") cancelled_text ts]
         /\ List.map step_type (emitted st) = [py "thought"; py "thought"]
         /\ iterations r = 3%Z.
Proof.
  eexists. eexists. eexists.
  split; [vm_compute; reflexivity|].
  split; [reflexivity|]. split; [reflexivity|].
  edestruct (@cancellation_ends_the_run nat sample_nesting_limit
               isalnum_below_256 sample_dumps sample_dumps sample_now sample_now
               thinking_agent
               (py "What is new?") 10%Z None None
               (Some cancel_at_third_check) 0%nat 2%nat)
    as (ts & r & Hr & Hs & _ & _ & _ & Hi).
  - vm_compute. reflexivity.
  - reflexivity.
  - reflexivity.
  - exists ts, r. split; [exact Hr|]. split; [exact Hs|].
    split; [reflexivity | exact Hi].
Defined.


Lemma only_model_failure_is_an_error_witness :
  exists r before last,
    sample_run failing_agent 5 None = Some (Returned r)
    /\ steps r = before ++ [last]
    /\ forallb is_progress_step before = true
    /\ content last = answer r
    /\ (is_final_answer_step last = true \/ is_error_step last = true).
Proof.
  destruct (sample_run failing_agent 5 None) as [[r|e it st]|] eqn:Hr;
    [|vm_compute in Hr; discriminate|vm_compute in Hr; discriminate].
  destruct (proj1 (proj2 (proj2 (proj2 (proj2
              (@only_model_failure_is_an_error nat sample_nesting_limit
                 isalnum_below_256 sample_dumps sample_dumps sample_now
                 sample_now failing_agent (py "What is new?") 5%Z None None
                 None)))))
              0%nat r Hr)
    as (before & last & Hs & Hb & Hc & Hk).
  exists r, before, last. split; [reflexivity|].
  split; [exact Hs|]. split; [exact Hb|]. split; [exact Hc|].
  destruct Hk as [Hk|[Hk _]]; [now left | now right].
Defined.

(** * Further properties *)

(** ** The decoder *)

Lemma well_formed_dict_set k v (items : dict value) :
  well_formed (VDict items) = true -> well_formed v = true ->
  well_formed (VDict (dict_set k v items)) = true.
Proof.
  cbn [well_formed]. intros H Hv.
  apply andb_true_iff in H as [Hd Hall].
  rewrite distinct_dict_set by assumption. simpl.
  rewrite forallb_forall in *. intros kv Hin.
  apply In_dict_set in Hin as [->|Hin]; [assumption | now apply Hall].
Qed.

Lemma match_number_scalar s v r :
  match_number s = Decoded (v, r) -> is_container v = false.
Proof.
  unfold match_number.
  repeat match goal with
         | |- context [match ?x with _ => _ end] => destruct x
         | |- context [let (_, _) := ?x in _] => destruct x
         | |- context [if ?x then _ else _] => destruct x
         end; intros H; try discriminate; injection H as <- _; reflexivity.
Qed.

Lemma scalar_well_formed v : is_container v = false -> well_formed v = true.
Proof. now destruct v. Qed.

Lemma scan_once_S fuel room s :
  scan_once (S fuel) room s =
  match s with
  | [] => JSONDecodeError
  | c :: s1 =>
      if c =? 34 then
        match scanstring s1 [] with
        | Some (x, r) => Decoded (VStr x, r)
        | None => JSONDecodeError
        end
      else if c =? 123 then
        match room with
        | O => OtherError RecursionError
        | S room' =>
            match skip_ws s1 with
            | c1 :: r =>
                if c1 =? 125 then Decoded (VDict [], r)
                else if c1 =? 34 then object_members fuel room' r []
                else JSONDecodeError
            | [] => JSONDecodeError
            end
        end
      else if c =? 91 then
        match room with
        | O => OtherError RecursionError
        | S room' =>
            match skip_ws s1 with
            | c1 :: r =>
                if c1 =? 93 then Decoded (VList [], r)
                else array_items fuel room' (c1 :: r) []
            | [] => JSONDecodeError
            end
        end
      else if starts_with (py "null") s then Decoded (VNone, skipn 4 s)
      else if starts_with (py "true") s then Decoded (VBool true, skipn 4 s)
      else if starts_with (py "false") s then
        Decoded (VBool false, skipn 5 s)
      else if starts_with (py "NaN") s then
        Decoded (VFloat (py "NaN"), skipn 3 s)
      else if starts_with (py "Infinity") s then
        Decoded (VFloat (py "Infinity"), skipn 8 s)
      else if starts_with (py "-Infinity") s then
        Decoded (VFloat (py "-Infinity"), skipn 9 s)
      else match_number s
  end.
Proof. reflexivity. Qed.

Lemma object_members_S fuel room s pairs :
  object_members (S fuel) room s pairs =
  match scanstring s [] with
  | None => JSONDecodeError
  | Some (key, r) =>
      match skip_ws r with
      | colon :: r1 =>
          if colon =? 58 then
            match scan_once fuel room (skip_ws r1) with
            | JSONDecodeError => JSONDecodeError
            | OtherError e => OtherError e
            | Decoded (v, r2) =>
                let pairs := dict_set key v pairs in
                match skip_ws r2 with
                | c2 :: r3 =>
                    if c2 =? 125 then Decoded (VDict pairs, r3)
                    else if c2 =? 44 then
                      match skip_ws r3 with
                      | c3 :: r4 =>
                          if c3 =? 34 then object_members fuel room r4 pairs
                          else JSONDecodeError
                      | [] => JSONDecodeError
                      end
                    else JSONDecodeError
                | [] => JSONDecodeError
                end
            end
          else JSONDecodeError
      | [] => JSONDecodeError
      end
  end.
Proof. reflexivity. Qed.

Lemma array_items_S fuel room s acc :
  array_items (S fuel) room s acc =
  match scan_once fuel room s with
  | JSONDecodeError => JSONDecodeError
  | OtherError e => OtherError e
  | Decoded (v, r) =>
      match skip_ws r with
      | c :: r1 =>
          if c =? 93 then Decoded (VList (rev (v :: acc)), r1)
          else if c =? 44 then array_items fuel room (skip_ws r1) (v :: acc)
          else JSONDecodeError
      | [] => JSONDecodeError
      end
  end.
Proof. reflexivity. Qed.

Ltac break_match_hyp H :=
  repeat match type of H with
         | context [match ?x with _ => _ end] => destruct x eqn:?
         | context [if ?x then _ else _] => destruct x eqn:?
         end.

Lemma decoder_well_formed (fuel : nat) :
  (forall room s v r,
      scan_once fuel room s = Decoded (v, r) -> well_formed v = true)
  /\ (forall room s pairs v r,
         well_formed (VDict pairs) = true ->
         object_members fuel room s pairs = Decoded (v, r) ->
         well_formed v = true)
  /\ (forall room s acc v r,
         forallb well_formed acc = true ->
         array_items fuel room s acc = Decoded (v, r) ->
         well_formed v = true).
Proof.
  induction fuel as [|fuel (IHs & IHo & IHa)];
    [repeat split; intros; discriminate|].
  split; [|split].
  - intros room s v r H. rewrite scan_once_S in H.
    destruct s as [|c s1]; [discriminate|].
    destruct (c =? 34).
    { destruct (scanstring s1 []) as [[x r0]|]; [|discriminate].
      now injection H as <- _. }
    destruct (c =? 123).
    { destruct room as [|room]; [discriminate|].
      destruct (skip_ws s1) as [|c1 r0]; [discriminate|].
      destruct (c1 =? 125); [now injection H as <- _|].
      destruct (c1 =? 34); [|discriminate].
      now apply (IHo room r0 [] v r). }
    destruct (c =? 91).
    { destruct room as [|room]; [discriminate|].
      destruct (skip_ws s1) as [|c1 r0]; [discriminate|].
      destruct (c1 =? 93); [now injection H as <- _|].
      now apply (IHa room (c1 :: r0) [] v r). }
    repeat match type of H with
           | (if ?x then _ else _) = _ =>
               destruct x; [now injection H as <- _|]
           end.
    apply scalar_well_formed. now apply (match_number_scalar _ H).
  - intros room s pairs v r Hp H. rewrite object_members_S in H.
    destruct (scanstring s []) as [[key r0]|]; [|discriminate].
    destruct (skip_ws r0) as [|colon r1]; [discriminate|].
    destruct (colon =? 58); [|discriminate].
    destruct (scan_once fuel room (skip_ws r1)) as [[x r2]| |e] eqn:Hx;
      [|discriminate|discriminate].
    assert (Hp' : well_formed (VDict (dict_set key x pairs)) = true).
    { apply well_formed_dict_set; [assumption | now apply (IHs _ _ _ _ Hx)]. }
    cbv zeta in H.
    destruct (skip_ws r2) as [|c2 r3]; [discriminate|].
    destruct (c2 =? 125); [injection H as <- _; exact Hp'|].
    destruct (c2 =? 44); [|discriminate].
    destruct (skip_ws r3) as [|c3 r4]; [discriminate|].
    destruct (c3 =? 34); [|discriminate].
    now apply (IHo _ _ _ _ _ Hp' H).
  - intros room s acc v r Hacc H. rewrite array_items_S in H.
    destruct (scan_once fuel room s) as [[x r0]| |e] eqn:Hx;
      [|discriminate|discriminate].
    assert (Hacc' : forallb well_formed (x :: acc) = true).
    { simpl. now rewrite (IHs _ _ _ _ Hx). }
    destruct (skip_ws r0) as [|c r1]; [discriminate|].
    destruct (c =? 93).
    + injection H as <- _. cbn [well_formed].
      rewrite forallb_forall in *. intros y Hy. apply Hacc'. now apply in_rev.
    + destruct (c =? 44); [|discriminate]. now apply (IHa _ _ _ _ _ Hacc' H).
Qed.

(** What the decoder returns has distinct keys at every depth. *)
Lemma json_loads_well_formed (nesting_limit : nat) (s : str) (v : value) :
  json_loads nesting_limit s = Decoded v -> well_formed v = true.
Proof.
  unfold json_loads. intros H.
  destruct (starts_with [65279] s); [discriminate|].
  destruct (scan_once _ _ _) as [[x r]| |e] eqn:Hx;
    [|discriminate|discriminate].
  destruct (skip_ws r); [|discriminate]. injection H as <-.
  now apply (proj1 (decoder_well_formed _) _ _ _ _ Hx).
Qed.


Lemma object_members_dict (fuel : nat) :
  forall room s pairs v r,
    object_members fuel room s pairs = Decoded (v, r) -> is_dict v = true.
Proof.
  induction fuel as [|fuel IH]; intros room s pairs v r H; [discriminate|].
  rewrite object_members_S in H.
  destruct (scanstring s []) as [[key r0]|]; [|discriminate].
  destruct (skip_ws r0) as [|colon r1]; [discriminate|].
  destruct (colon =? 58); [|discriminate].
  destruct (scan_once fuel room (skip_ws r1)) as [[x r2]| |e];
    [|discriminate|discriminate].
  cbv zeta in H.
  destruct (skip_ws r2) as [|c2 r3]; [discriminate|].
  destruct (c2 =? 125); [now injection H as <- _|].
  destruct (c2 =? 44); [|discriminate].
  destruct (skip_ws r3) as [|c3 r4]; [discriminate|].
  destruct (c3 =? 34); [|discriminate].
  now apply (IH _ _ _ _ _ H).
Qed.

(** A text that opens with a brace decodes to a mapping or not at all. *)
Lemma json_loads_brace (nesting_limit : nat) (s : str) (v : value) :
  json_loads nesting_limit (123 :: s) = Decoded v -> is_dict v = true.
Proof.
  unfold json_loads. change (starts_with [65279] (123 :: s)) with false.
  cbv iota zeta. change (skip_ws (123 :: s)) with (123 :: s).
  match goal with |- context [scan_once ?f _ _] => generalize f end.
  intros fuel H.
  destruct (scan_once _ _ _) as [[x r]| |e] eqn:Hx;
    [|discriminate|discriminate].
  destruct (skip_ws r); [|discriminate]. injection H as <-.
  destruct fuel as [|fuel]; [discriminate|].
  rewrite scan_once_S in Hx. change (123 =? 34) with false in Hx.
  change (123 =? 123) with true in Hx. cbv iota in Hx.
  destruct (skip_ws s) as [|c1 r0]; [discriminate|].
  destruct (c1 =? 125); [now injection Hx as <- _|].
  destruct (c1 =? 34); [|discriminate].
  now apply (object_members_dict _ _ _ _ Hx).
Qed.

(** *** What the matchers consume *)

Section Consumption.
Variable A : Type.
Implicit Type k : str -> option A.


Lemma lit_on_suffix pat : on_suffix (lit (A := A) pat).
Proof.
  intros k s r H. apply lit_inv in H as (m & rest & -> & _ & Hk).
  now exists m, rest.
Qed.

Lemma star_greedy_on_suffix cls : on_suffix (star_greedy (A := A) cls).
Proof.
  intros k s r. induction s as [|c s IH]; cbn [star_greedy]; intros H.
  - now exists [], [].
  - destruct (cls c).
    + destruct (star_greedy cls k s) as [r'|] eqn:E.
      * injection H as ->. destruct (IH eq_refl) as (b & s' & -> & Hk).
        now exists (c :: b), s'.
      * now exists [], (c :: s).
    + now exists [], (c :: s).
Qed.

Lemma search_on_suffix (m : str -> option A) s r :
  search m s = Some r -> exists before s', s = before ++ s' /\ m s' = Some r.
Proof.
  induction s as [|c s IH]; cbn [search]; intros H.
  - destruct (m []) eqn:E; [|discriminate]. injection H as ->. now exists [], [].
  - destruct (m (c :: s)) eqn:E.
    + injection H as ->. now exists [], (c :: s).
    + destruct (IH H) as (b & s' & -> & Hm). now exists (c :: b), s'.
Qed.
End Consumption.


Lemma accept_returns_suffix : returns_suffix accept.
Proof. intros s r [= ->]. now exists []. Qed.

Lemma lit_returns_suffix pat k :
  returns_suffix k -> returns_suffix (lit pat k).
Proof.
  intros Hk s r H. apply lit_inv in H as (m & rest & -> & _ & H).
  destruct (Hk _ _ H) as [c ->]. exists (m ++ c). now rewrite app_assoc.
Qed.

Lemma star_greedy_returns_suffix cls k :
  returns_suffix k -> returns_suffix (star_greedy cls k).
Proof.
  intros Hk s r H. apply star_greedy_on_suffix in H as (b & s' & -> & H).
  destruct (Hk _ _ H) as [c ->]. exists (b ++ c). now rewrite app_assoc.
Qed.

Lemma plus_greedy_returns_suffix cls k :
  returns_suffix k -> returns_suffix (plus_greedy cls k).
Proof.
  intros Hk [|c s] r H; [discriminate|]. unfold plus_greedy in H.
  destruct (cls c); [|discriminate].
  destruct (star_greedy_returns_suffix cls Hk _ H) as [b ->].
  now exists (c :: b).
Qed.

Lemma star_lazy_returns_suffix cls k :
  returns_suffix k -> returns_suffix (star_lazy cls k).
Proof.
  intros Hk s. induction s as [|c s IH]; intros r; cbn [star_lazy].
  - destruct (k []) eqn:E; [|discriminate]. intros [= ->]. now apply Hk.
  - destruct (k (c :: s)) eqn:E.
    + intros [= ->]. now apply Hk.
    + destruct (cls c); [|discriminate]. intros H.
      destruct (IH _ H) as [b ->]. now exists (c :: b).
Qed.

Lemma end_of_line_returns_suffix k :
  returns_suffix k -> returns_suffix (end_of_line k).
Proof.
  intros Hk [|c s] r; unfold end_of_line; [apply Hk|].
  destruct (c =? newline); [apply Hk | discriminate].
Qed.

(** The text of a group: what its matcher consumed. *)
Lemma group_consumed inner s g :
  returns_suffix inner -> group inner s = Some g ->
  exists rest, inner s = Some rest /\ s = g ++ rest.
Proof.
  intros Hin. unfold group. destruct (inner s) as [rest|] eqn:E; [|discriminate].
  intros [= <-]. exists rest. split; [reflexivity|].
  destruct (Hin _ _ E) as [c ->].
  rewrite length_app, Nat.add_sub, firstn_app, firstn_all, Nat.sub_diag.
  simpl. now rewrite app_nil_r.
Qed.

Lemma ignorecase_brace c : lit_ignorecase 123 c = true -> c = 123.
Proof.
  unfold lit_ignorecase. change (ascii_lower 123) with 123.
  change ((123 =? 105) && ((c =? 304) || (c =? 305))) with false.
  change ((123 =? 115) && (c =? 383)) with false.
  change ((123 =? 107) && (c =? 8490)) with false.
  rewrite !orb_false_r. intros E. apply N.eqb_eq in E.
  unfold ascii_lower in E.
  destruct ((65 <=? c) && (c <=? 90)) eqn:R; [|assumption].
  apply andb_true_iff in R as [R1 R2]. apply N.leb_le in R1, R2. lia.
Qed.

Lemma lit_brace_head (A : Type) (k : str -> option A) s r :
  lit (py "{") k s = Some r -> exists s', s = 123 :: s' /\ k s' = Some r.
Proof.
  destruct s as [|c s]; [discriminate|].
  change (lit (py "{") k (c :: s))
    with (if lit_ignorecase 123 c then k s else None).
  destruct (lit_ignorecase 123 c) eqn:E; [|discriminate]. intros H.
  exists s. now rewrite (ignorecase_brace _ E).
Qed.

(** ** Stripping *)

Section Stripping.
Variable drop : char -> bool.


Lemma lstrip_by_clean_head s : clean_head drop (lstrip_by drop s) = true.
Proof.
  induction s as [|c s IH]; simpl; [reflexivity|].
  destruct (drop c) eqn:E; [assumption|]. simpl. now rewrite E.
Qed.

Lemma lstrip_by_fixed s : clean_head drop s = true -> lstrip_by drop s = s.
Proof.
  destruct s as [|c s]; simpl; [reflexivity|].
  intros H. apply negb_true_iff in H. now rewrite H.
Qed.

Lemma lstrip_by_keeps_last s c :
  drop c = false -> exists l, lstrip_by drop (s ++ [c]) = l ++ [c].
Proof.
  intros Hc. induction s as [|x s [l IH]]; simpl.
  - rewrite Hc. now exists [].
  - destruct (drop x); [now exists l|]. now exists (x :: s).
Qed.

Lemma rstrip_by_clean_head s :
  clean_head drop s = true -> clean_head drop (rstrip_by drop s) = true.
Proof.
  destruct s as [|c s]; [reflexivity|]. simpl. intros H.
  apply negb_true_iff in H. unfold rstrip_by. simpl rev.
  destruct (lstrip_by_keeps_last (rev s) H) as [l ->].
  rewrite rev_app_distr. simpl. now rewrite H.
Qed.

Lemma rstrip_by_head c s :
  drop c = false -> exists l, rstrip_by drop (c :: s) = c :: l.
Proof.
  intros H. unfold rstrip_by. simpl rev.
  destruct (lstrip_by_keeps_last (rev s) H) as [l ->].
  rewrite rev_app_distr. simpl. now exists (rev l).
Qed.

Lemma rstrip_by_idem s : rstrip_by drop (rstrip_by drop s) = rstrip_by drop s.
Proof.
  unfold rstrip_by. now rewrite rev_involutive, lstrip_by_idem.
Qed.

(** Stripping twice is stripping once. *)
Lemma strip_by_idem s : strip_by drop (strip_by drop s) = strip_by drop s.
Proof.
  unfold strip_by.
  rewrite (lstrip_by_fixed (rstrip_by drop (lstrip_by drop s))).
  - apply rstrip_by_idem.
  - apply rstrip_by_clean_head, lstrip_by_clean_head.
Qed.

Lemma strip_by_head c s :
  drop c = false -> exists l, strip_by drop (c :: s) = c :: l.
Proof.
  intros H. unfold strip_by. simpl. rewrite H. now apply rstrip_by_head.
Qed.

Lemma lstrip_by_incl s c : In c (lstrip_by drop s) -> In c s.
Proof.
  induction s as [|x s IH]; simpl; [tauto|].
  destruct (drop x); [intros H; right; now apply IH | tauto].
Qed.

Lemma strip_by_incl s c : In c (strip_by drop s) -> In c s.
Proof.
  unfold strip_by, rstrip_by. intros H.
  apply in_rev, lstrip_by_incl, in_rev in H.
  now apply lstrip_by_incl in H.
Qed.

(** What stripping leaves neither starts nor ends with a character to
    drop. *)
Lemma strip_by_ends s :
  clean_head drop (strip_by drop s) = true
  /\ clean_head drop (rev (strip_by drop s)) = true.
Proof.
  split.
  - apply rstrip_by_clean_head, lstrip_by_clean_head.
  - unfold strip_by, rstrip_by. rewrite rev_involutive.
    apply lstrip_by_clean_head.
Qed.
End Stripping.

Lemma split_head_incl sep s c : In c (split_head sep s) -> In c s.
Proof.
  induction s as [|x s IH]; simpl; [tauto|].
  destruct (x =? sep); [intros []|]. intros [->|H]; [now left | right; auto].
Qed.

Lemma split_head_free sep s : ~ In sep (split_head sep s).
Proof.
  induction s as [|x s IH]; simpl; [tauto|].
  destruct (N.eqb_spec x sep); [intros []|]. intros [->|H]; tauto.
Qed.

Lemma contains_one_false c s : contains [c] s = false -> ~ In c s.
Proof.
  induction s as [|x s IH]; simpl; [tauto|].
  rewrite andb_true_r. intros H. apply orb_false_iff in H as [H1 H2].
  apply N.eqb_neq in H1. intros [->|Hin]; [congruence | now apply IH].
Qed.

(** *** The head of an Action Input *)

Lemma action_input_group_head cont s g :
  returns_suffix cont ->
  search (lit (py "Action Input:")
            (star_greedy isspace (group (lit (py "{") cont)))) s = Some g ->
  exists rest, g = 123 :: rest.
Proof.
  intros Hc H.
  apply search_on_suffix in H as (_ & s1 & _ & H).
  apply lit_on_suffix in H as (_ & s2 & _ & H).
  apply star_greedy_on_suffix in H as (_ & s3 & _ & H).
  apply group_consumed in H as (rest & H & E);
    [|now apply lit_returns_suffix].
  apply lit_brace_head in H as (s4 & -> & H).
  destruct (Hc _ _ H) as [consumed ->].
  change (123 :: consumed ++ rest) with ((123 :: consumed) ++ rest) in E.
  apply app_inv_tail in E. now exists consumed.
Qed.

Lemma action_input_block_head text block :
  action_input_block text = Some block -> exists rest, block = 123 :: rest.
Proof.
  unfold action_input_block.
  destruct (re_action_input_strict text) as [g|] eqn:E1.
  - intros [= <-].
    apply action_input_group_head in E1 as [rest ->].
    + now apply strip_by_head.
    + apply star_lazy_returns_suffix, lit_returns_suffix,
        star_greedy_returns_suffix, end_of_line_returns_suffix,
        accept_returns_suffix.
  - destruct (re_action_input_loose text) as [g|] eqn:E2; [|discriminate].
    intros [= <-].
    apply action_input_group_head in E2 as [rest ->].
    + now apply strip_by_head.
    + apply plus_greedy_returns_suffix, lit_returns_suffix,
        accept_returns_suffix.
Qed.

Lemma sub_word_brace f word repl w' s :
  hd_error word = Some w' -> w' <> 123 ->
  exists rest, sub_word f word repl (123 :: s) = 123 :: rest.
Proof.
  intros Hw Hne. unfold sub_word. cbn [sub_word_from].
  destruct word as [|w0 word]; [discriminate|]. injection Hw as ->.
  cbn [starts_with]. apply N.eqb_neq in Hne. rewrite Hne.
  rewrite andb_false_r. simpl. eauto.
Qed.

Lemma repair_json_brace f s :
  exists rest, repair_json f (123 :: s) = 123 :: rest.
Proof.
  unfold repair_json.
  destruct (@sub_word_brace f (py "True") (py "true") 84 s eq_refl)
    as [r1 ->]; [discriminate|].
  destruct (@sub_word_brace f (py "False") (py "false") 70 r1 eq_refl)
    as [r2 ->]; [discriminate|].
  destruct (@sub_word_brace f (py "None") (py "null") 78 r2 eq_refl)
    as [r3 ->]; [discriminate|].
  simpl. eauto.
Qed.

Lemma parse_action_input_dict nesting_limit f text action_input :
  parse_action_input nesting_limit f text = Returns action_input ->
  is_dict action_input = true /\ well_formed action_input = true.
Proof.
  unfold parse_action_input.
  destruct (action_input_block text) as [block|] eqn:E;
    [|intros [= <-]; now split].
  apply action_input_block_head in E as [rest ->].
  destruct (json_loads nesting_limit (123 :: rest)) as [v| |e] eqn:E1.
  - intros [= <-].
    split; [now apply (json_loads_brace _ _ E1)
           | now apply (json_loads_well_formed _ _ E1)].
  - destruct (repair_json_brace f rest) as [rest' ->].
    destruct (json_loads nesting_limit (123 :: rest')) as [v| |e] eqn:E2;
      intros [= <-]; [|now split|now split].
    split; [now apply (json_loads_brace _ _ E2)
           | now apply (json_loads_well_formed _ _ E2)].
  - discriminate.
Qed.

(** The parser raises what the first decoding of the Action Input
    raises, and nothing else. *)
Lemma parse_action_input_raises nesting_limit f text e :
  parse_action_input nesting_limit f text = Raises e ->
  exists json_str,
    action_input_block text = Some json_str
    /\ json_loads nesting_limit json_str = OtherError e.
Proof.
  unfold parse_action_input.
  destruct (action_input_block text) as [json_str|]; [|discriminate].
  destruct (json_loads nesting_limit json_str) as [v| |x] eqn:E1.
  - discriminate.
  - destruct (json_loads nesting_limit (repair_json f json_str));
      discriminate.
  - intros [= <-]. now exists json_str.
Qed.

Lemma star_greedy_accept cls s :
  star_greedy cls accept s = Some (lstrip_by cls s).
Proof.
  induction s as [|c s IH]; simpl; [reflexivity|].
  destruct (cls c); [now rewrite IH | reflexivity].
Qed.

Lemma lstrip_by_split cls s :
  exists pre, s = pre ++ lstrip_by cls s /\ forallb cls pre = true.
Proof.
  induction s as [|c s (pre & E & H)]; simpl; [now exists []|].
  destruct (cls c) eqn:Hc; [|now exists []].
  exists (c :: pre). simpl. rewrite Hc, H. split; [now f_equal | reflexivity].
Qed.

(** The group of a pattern that ends with [([^\n]+)]: a non-empty piece of
    one line. *)
Lemma line_group pat s g :
  search (lit pat
            (star_greedy isspace
               (group (plus_greedy (not_char newline) accept)))) s = Some g ->
  g <> [] /\ ~ In newline g.
Proof.
  intros H.
  apply search_on_suffix in H as (_ & s1 & _ & H).
  apply lit_on_suffix in H as (_ & s2 & _ & H).
  apply star_greedy_on_suffix in H as (_ & s3 & _ & H).
  apply group_consumed in H as (rest & H & E);
    [|apply plus_greedy_returns_suffix, accept_returns_suffix].
  destruct s3 as [|c s3]; [discriminate|]. unfold plus_greedy in H.
  destruct (not_char newline c) eqn:Hc; [|discriminate].
  rewrite star_greedy_accept in H. injection H as <-.
  destruct (lstrip_by_split (not_char newline) s3) as (pre & Epre & Hpre).
  rewrite Epre in E at 1.
  change (c :: pre ++ lstrip_by (not_char newline) s3)
    with ((c :: pre) ++ lstrip_by (not_char newline) s3) in E.
  apply app_inv_tail in E. subst g. split; [discriminate|].
  intros [->|Hin]; [discriminate Hc|].
  rewrite forallb_forall in Hpre. specialize (Hpre _ Hin).
  unfold not_char in Hpre. now rewrite N.eqb_refl in Hpre.
Qed.

Lemma clean_action_name_incl a c : In c (clean_action_name a) -> In c a.
Proof.
  unfold clean_action_name.
  destruct (contains (py "(") _); intros H.
  - apply strip_by_incl, split_head_incl in H. now apply strip_by_incl in H.
  - now apply strip_by_incl in H.
Qed.

Lemma clean_action_name_no_paren a : ~ In 40 (clean_action_name a).
Proof.
  unfold clean_action_name.
  destruct (contains (py "(") _) eqn:E.
  - intros H. apply strip_by_incl in H. now apply split_head_free in H.
  - now apply contains_one_false.
Qed.

(** What the parser found when it returns an action. *)
Lemma parse_action_inv nesting_limit f text thought action action_input :
  _parse_react_output nesting_limit f text
  = P_action thought action action_input ->
  exists raw_action,
    re_final_answer text = None
    /\ re_action text = Some raw_action
    /\ action = clean_action_name (strip raw_action)
    /\ action <> []
    /\ thought = match re_thought text with Some g => strip g | None => [] end
    /\ parse_action_input nesting_limit f text = Returns action_input.
Proof.
  unfold _parse_react_output.
  destruct (re_final_answer text); [discriminate|].
  destruct (re_action text) as [raw|]; cbn [option_map].
  - destruct (strip raw) as [|c a] eqn:Hs.
    + destruct (re_thought text) as [g|]; [destruct (strip g)|]; discriminate.
    + destruct (clean_action_name (c :: a)) as [|c' a'] eqn:Hc.
      * destruct (re_thought text) as [g|]; [destruct (strip g)|]; discriminate.
      * destruct (parse_action_input nesting_limit f text) as [v|e];
          [|discriminate].
        intros [= <- <- <-]. exists raw.
        rewrite Hs, Hc.
        repeat split; try reflexivity; try discriminate.
  - destruct (re_thought text) as [g|]; [destruct (strip g)|]; discriminate.
Qed.

(** What the parser found when an exception leaves it. *)
Lemma parse_raises_inv nesting_limit f text e :
  _parse_react_output nesting_limit f text = P_raises e ->
  exists json_str,
    re_final_answer text = None
    /\ action_input_block text = Some json_str
    /\ json_loads nesting_limit json_str = OtherError e.
Proof.
  unfold _parse_react_output.
  destruct (re_final_answer text); [discriminate|].
  destruct (re_action text) as [raw|]; cbn [option_map].
  - destruct (strip raw) as [|c a] eqn:Hs.
    + destruct (re_thought text) as [g|]; [destruct (strip g)|]; discriminate.
    + destruct (clean_action_name (c :: a)) as [|c' a'] eqn:Hc.
      * destruct (re_thought text) as [g|]; [destruct (strip g)|]; discriminate.
      * destruct (parse_action_input nesting_limit f text) as [v|x] eqn:Hp;
          [discriminate|].
        intros [= <-].
        destruct (parse_action_input_raises _ _ _ Hp) as (json_str & H1 & H2).
        now exists json_str.
  - destruct (re_thought text) as [g|]; [destruct (strip g)|]; discriminate.
Qed.

(** X1. The name of an action that the parser returns is usable as a
    key of the catalog: it is not empty, it holds no opening parenthesis
    and it is a piece of one line. *)
Theorem action_name_is_usable nesting_limit f text thought action
    action_input :
  _parse_react_output nesting_limit f text
  = P_action thought action action_input ->
  action <> [] /\ ~ In 40 action /\ ~ In newline action.
Proof.
  intros H.
  apply parse_action_inv in H as (ra & _ & Ha & -> & Hne & _).
  split; [assumption|]. split; [apply clean_action_name_no_paren|].
  intros Hin. apply clean_action_name_incl, strip_by_incl in Hin.
  now apply (proj2 (line_group _ _ Ha)).
Qed.

(** X2. The input of an action that the parser returns is always a
    mapping, with distinct keys at every depth, whatever the model wrote
    after [Action Input:]. *)
Theorem action_input_is_a_mapping nesting_limit f text thought action
    action_input :
  _parse_react_output nesting_limit f text
  = P_action thought action action_input ->
  is_dict action_input = true /\ well_formed action_input = true.
Proof.
  intros H.
  apply parse_action_inv in H as (ra & _ & _ & _ & _ & _ & H).
  now apply parse_action_input_dict in H.
Qed.

(** X3. The texts that the parser returns carry no white space at their
    ends: stripping them again changes nothing. A thought is a piece of
    one line; the thought of a ['thought'] result is not empty; an
    ['unknown'] result carries the reply as it came. An exception that
    leaves the parser is one that the first decoding of the Action Input
    raises. *)
Theorem parsed_texts_are_stripped nesting_limit f text :
  match _parse_react_output nesting_limit f text with
  | P_final_answer content => strip content = content
  | P_action thought _ _ => strip thought = thought /\ ~ In newline thought
  | P_thought thought =>
      thought <> [] /\ strip thought = thought /\ ~ In newline thought
  | P_unknown content => content = text
  | P_raises e =>
      exists json_str,
        action_input_block text = Some json_str
        /\ json_loads nesting_limit json_str = OtherError e
  end.
Proof.
  assert (Hthought :
            let thought :=
              match re_thought text with Some g => strip g | None => [] end in
            strip thought = thought /\ ~ In newline thought).
  { destruct (re_thought text) as [g|] eqn:Ht; [|now split].
    split; [apply strip_by_idem|].
    intros Hin. apply strip_by_incl in Hin.
    now apply (proj2 (line_group _ _ Ht)). }
  cbv zeta in Hthought.
  destruct (_parse_react_output nesting_limit f text)
    as [c|t a i|t|c|e] eqn:H.
  - unfold _parse_react_output in H.
    destruct (re_final_answer text); [|].
    + injection H as <-. apply strip_by_idem.
    + repeat match type of H with
             | context [match ?x with _ => _ end] => destruct x
             end; discriminate.
  - apply parse_action_inv in H as (ra & _ & _ & _ & _ & -> & _).
    exact Hthought.
  - unfold _parse_react_output in H.
    destruct (re_final_answer text); [discriminate|].
    set (thought := match re_thought text with
                    | Some g => strip g | None => [] end) in *.
    destruct (option_map strip (re_action text)) as [[|? ?]|];
      try destruct (clean_action_name _);
      try destruct (parse_action_input nesting_limit f text);
      destruct thought eqn:E; try discriminate;
        injection H as <-; (split; [discriminate | exact Hthought]).
  - unfold _parse_react_output in H.
    destruct (re_final_answer text); [discriminate|].
    destruct (option_map strip (re_action text)) as [[|? ?]|];
      try destruct (clean_action_name _);
      try destruct (parse_action_input nesting_limit f text);
      destruct (match re_thought text with
                | Some g => strip g | None => [] end);
      try discriminate; now injection H as <-.
  - apply parse_raises_inv in H as (json_str & _ & H1 & H2).
    now exists json_str.
Qed.

(** ** The clean-up of an action name *)

Lemma lstrip_by_stops drop pre c s :
  drop c = false ->
  exists pre', lstrip_by drop (pre ++ c :: s) = pre' ++ c :: s.
Proof.
  intros Hc. induction pre as [|x pre [pre' IH]]; simpl.
  - rewrite Hc. now exists [].
  - destruct (drop x); [now exists pre'|]. now exists (x :: pre).
Qed.

Lemma rstrip_by_keeps_prefix drop pre c s :
  drop c = false ->
  exists s', rstrip_by drop (pre ++ c :: s) = pre ++ c :: s'.
Proof.
  intros Hc. unfold rstrip_by. rewrite rev_app_distr. simpl rev.
  rewrite <- app_assoc. simpl.
  destruct (@lstrip_by_stops drop (rev s) c (rev pre) Hc) as [x ->].
  rewrite rev_app_distr. simpl. rewrite rev_involutive, <- app_assoc.
  now exists (rev x).
Qed.

Lemma lstrip_by_all drop q s :
  forallb drop q = true -> lstrip_by drop (q ++ s) = lstrip_by drop s.
Proof.
  induction q as [|x q IH]; simpl; [reflexivity|].
  intros H. apply andb_true_iff in H as [-> H]. now apply IH.
Qed.

Lemma rstrip_by_all drop q s :
  forallb drop q = true -> rstrip_by drop (s ++ q) = rstrip_by drop s.
Proof.
  intros H. unfold rstrip_by. rewrite rev_app_distr, lstrip_by_all;
    [reflexivity|].
  rewrite forallb_forall in *. intros x Hx. apply H. now apply in_rev.
Qed.

Lemma rstrip_by_fixed drop s :
  clean_head drop (rev s) = true -> rstrip_by drop s = s.
Proof.
  intros H. unfold rstrip_by. rewrite lstrip_by_fixed by assumption.
  apply rev_involutive.
Qed.

Lemma split_head_at sep pre s :
  ~ In sep pre -> split_head sep (pre ++ sep :: s) = pre.
Proof.
  induction pre as [|x pre IH]; simpl; intros H.
  - now rewrite N.eqb_refl.
  - destruct (N.eqb_spec x sep) as [->|_]; [tauto|]. rewrite IH; tauto.
Qed.

Lemma contains_one_true c s : In c s -> contains [c] s = true.
Proof.
  induction s as [|x s IH]; simpl; [tauto|].
  intros [->|H]; [now rewrite N.eqb_refl | rewrite IH by assumption].
  apply orb_true_r.
Qed.

Lemma contains_one_In c s : contains [c] s = true -> In c s.
Proof.
  induction s as [|x s IH]; simpl; [discriminate|].
  rewrite andb_true_r. intros H. apply orb_true_iff in H as [H|H].
  - apply N.eqb_eq in H. now left.
  - right. now apply IH.
Qed.

(** X4. The clean-up of an action name recovers a tool name from the
    decorations that models put around it. Let [name] hold no opening
    parenthesis and neither start nor end with a backquote or a quote.
    Wrapped in such quotes, the name comes back as it is. Followed by an
    opening parenthesis and anything else, maybe after quotes, the name
    comes back provided that it has no white space at its ends. *)
Theorem clean_action_name_recovers_name (q1 name : str) :
  forallb is_name_quote q1 = true ->
  clean_head is_name_quote name = true ->
  clean_head is_name_quote (rev name) = true ->
  ~ In 40 name ->
  (forall q2,
      forallb is_name_quote q2 = true ->
      clean_action_name (q1 ++ name ++ q2) = name)
  /\ (forall args,
        strip name = name ->
        clean_action_name (q1 ++ name ++ py "(" ++ args) = name).
Proof.
  intros Hq1 Hhead Hlast Hparen. unfold clean_action_name, strip_chars.
  fold is_name_quote. split.
  - intros q2 Hq2.
    assert (E : strip_by is_name_quote (q1 ++ name ++ q2) = name).
    { unfold strip_by. rewrite lstrip_by_all by assumption.
      destruct name as [|c name].
      - simpl. rewrite <- (app_nil_r q2), lstrip_by_all by assumption.
        reflexivity.
      - rewrite lstrip_by_fixed by exact Hhead.
        rewrite rstrip_by_all by assumption. now apply rstrip_by_fixed. }
    rewrite E.
    destruct (contains (py "(") name) eqn:Hc; [|reflexivity].
    exfalso. apply Hparen. now apply contains_one_In.
  - intros args Hstrip.
    change (py "(" ++ args) with (40 :: args).
    assert (E : exists args',
               strip_by is_name_quote (q1 ++ name ++ 40 :: args)
               = name ++ 40 :: args').
    { unfold strip_by. rewrite lstrip_by_all by assumption.
      rewrite lstrip_by_fixed by now destruct name.
      now apply rstrip_by_keeps_prefix. }
    destruct E as [args' ->].
    change (py "(") with [40]. rewrite contains_one_true.
    + now rewrite split_head_at.
    + apply in_or_app. right. now left.
Qed.

(** ** Searching a text *)

Lemma starts_with_app (needle s after : str) :
  starts_with needle s = true -> starts_with needle (s ++ after) = true.
Proof.
  revert s; induction needle as [|x needle IH]; intros [|y s]; simpl;
    try reflexivity; try discriminate.
  intros H. apply andb_true_iff in H as [-> H]. now apply IH.
Qed.

Lemma contains_app_r (needle s after : str) :
  contains needle s = true -> contains needle (s ++ after) = true.
Proof.
  induction s as [|c s IH]; simpl.
  - rewrite orb_false_r. intros H.
    destruct needle; [|discriminate]. now destruct after.
  - intros H. apply orb_true_iff in H as [H|H].
    + change (starts_with needle (c :: s ++ after))
        with (starts_with needle ((c :: s) ++ after)).
      now rewrite starts_with_app.
    + rewrite IH by assumption. apply orb_true_r.
Qed.

Lemma contains_refl (s : str) : contains s s = true.
Proof. rewrite <- (app_nil_r s) at 2. apply contains_here. Qed.

Lemma starts_with_split (needle s : str) :
  starts_with needle s = true -> exists rest, s = needle ++ rest.
Proof.
  revert s; induction needle as [|x needle IH]; intros s; simpl.
  - now exists s.
  - destruct s as [|y s]; [discriminate|]. intros H.
    apply andb_true_iff in H as [E H]. apply N.eqb_eq in E. subst y.
    destruct (IH _ H) as [rest ->]. now exists rest.
Qed.

Lemma contains_split (needle s : str) :
  contains needle s = true -> exists before rest, s = before ++ needle ++ rest.
Proof.
  induction s as [|c s IH]; simpl.
  - rewrite orb_false_r. intros H.
    destruct (starts_with_split _ _ H) as [rest E]. now exists [], rest.
  - intros H. apply orb_true_iff in H as [H|H].
    + destruct (starts_with_split _ _ H) as [rest E]. now exists [], rest.
    + destruct (IH H) as (before & rest & ->). now exists (c :: before), rest.
Qed.

(** A text that holds [a ++ needle ++ b] holds [needle]. *)
Lemma contains_part (a needle b s : str) :
  contains (a ++ needle ++ b) s = true -> contains needle s = true.
Proof.
  intros H. destruct (contains_split _ _ H) as (before & rest & ->).
  rewrite <- !app_assoc. apply contains_app_l.
  apply contains_app_l. apply contains_here.
Qed.

Lemma contains_join (needle sep p : str) (parts : list str) :
  In p parts -> contains needle p = true ->
  contains needle (join sep parts) = true.
Proof.
  intros Hin Hp. induction parts as [|q parts IH]; [destruct Hin|].
  destruct Hin as [->|Hin].
  - destruct parts; [assumption|]. cbn [join]. now apply contains_app_r.
  - destruct parts as [|q' parts]; [destruct Hin|].
    cbn [join]. apply contains_app_l, contains_app_l. now apply IH.
Qed.

Lemma contains_trans (needle s t : str) :
  contains needle s = true -> contains s t = true -> contains needle t = true.
Proof.
  intros H1 H2. destruct (contains_split _ _ H2) as (before & rest & ->).
  apply contains_app_l. now apply contains_app_r.
Qed.

Lemma contains_nil (s : str) : contains [] s = true.
Proof. now destruct s. Qed.

Ltac find_part :=
  repeat first [ apply contains_nil
               | apply contains_here
               | apply contains_refl
               | apply contains_app_l ].

(** ** The catalog of tools *)

Section CatalogFacts.
Variable V : Type.

Lemma dict_get_set_same (k : str) (v : V) (d : dict V) :
  dict_get k (dict_set k v d) = Some v.
Proof.
  induction d as [|[k' v'] d IH]; simpl.
  - now rewrite str_eqb_refl.
  - destruct (str_eqb k' k) eqn:E; simpl; now rewrite E.
Qed.

Lemma find_last (A : Type) (p : A -> bool) (l : list A) (x : A) :
  find p (l ++ [x])
  = match find p l with
    | Some y => Some y
    | None => if p x then Some x else None
    end.
Proof.
  induction l as [|y l IH]; simpl; [reflexivity|]. now destruct (p y).
Qed.

(** [dict(pairs)]: the last pair of a key gives its value. *)
Lemma dict_of_pairs_lookup (k : str) (pairs : list (str * V)) :
  dict_get k (dict_of_pairs pairs)
  = option_map snd (find (fun kv => str_eqb (fst kv) k) (rev pairs)).
Proof.
  unfold dict_of_pairs.
  assert (H : forall acc,
             dict_get k (fold_left
                           (fun d kv => dict_set (fst kv) (snd kv) d)
                           pairs acc)
             = match find (fun kv => str_eqb (fst kv) k) (rev pairs) with
               | Some kv => Some (snd kv)
               | None => dict_get k acc
               end).
  { induction pairs as [|[k' v] pairs IH]; intros acc; [reflexivity|].
    simpl. rewrite IH, find_last. simpl.
    destruct (find _ (rev pairs)); [reflexivity|].
    destruct (str_eqb_spec k' k) as [->|Hne].
    - apply dict_get_set_same.
    - now apply dict_get_set_other. }
  rewrite H. now destruct (find _ (rev pairs)).
Qed.

Lemma dict_of_pairs_keys (pairs : list (str * V)) :
  distinct (keys (dict_of_pairs pairs)) = true
  /\ (forall k, In k (keys (dict_of_pairs pairs)) <-> In k (List.map fst pairs)).
Proof.
  unfold dict_of_pairs.
  assert (H : forall acc,
             distinct (keys acc) = true ->
             let d := fold_left (fun d kv => dict_set (fst kv) (snd kv) d)
                        pairs acc in
             distinct (keys d) = true
             /\ (forall k, In k (keys d)
                           <-> In k (keys acc) \/ In k (List.map fst pairs))).
  { induction pairs as [|[k' v] pairs IH]; intros acc Hacc; simpl.
    - split; [assumption | tauto].
    - destruct (IH (dict_set k' v acc)) as [Hd Hk];
        [now apply distinct_dict_set|].
      split; [exact Hd|]. intros k. rewrite Hk, keys_dict_set.
      destruct (existsb (str_eqb k') (keys acc)) eqn:E.
      + apply has_key_In in E. simpl.
        split; [tauto | intros [H|[<-|H]]; tauto].
      + rewrite in_app_iff. simpl. tauto. }
  destruct (H [] eq_refl) as [Hd Hk]. split; [exact Hd|].
  intros k. rewrite Hk. simpl. tauto.
Qed.
End CatalogFacts.

Lemma find_none_all (A : Type) (p : A -> bool) (l : list A) :
  (forall x, In x l -> p x = false) -> find p l = None.
Proof.
  induction l as [|x l IH]; intros H; [reflexivity|]. simpl.
  rewrite (H x) by now left. apply IH. intros y Hy. apply H. now right.
Qed.

Lemma find_map (A B : Type) (g : A -> B) (p : B -> bool) (l : list A) :
  find p (List.map g l) = option_map g (find (fun x => p (g x)) l).
Proof.
  induction l as [|x l IH]; simpl; [reflexivity|].
  now destruct (p (g x)).
Qed.

(** X5. The catalog that [__init__] builds maps a name to the last tool
    of the list that bears it; its keys are pairwise distinct and are the
    names of the tools. *)
Theorem tool_map_holds_the_last_of_a_name (W : Type) (self : ReActAgent W) :
  (forall tool_name,
      dict_get tool_name (tool_map self)
      = find (fun tool => str_eqb (name tool) tool_name) (rev (tools self)))
  /\ distinct (keys (tool_map self)) = true
  /\ (forall tool_name,
        In tool_name (keys (tool_map self))
        <-> exists tool, In tool (tools self) /\ name tool = tool_name).
Proof.
  unfold tool_map. split; [|split].
  - intros tool_name. rewrite dict_of_pairs_lookup, <- map_rev, find_map.
    simpl. now destruct (find _ (rev (tools self))).
  - apply dict_of_pairs_keys.
  - intros tool_name. rewrite (proj2 (dict_of_pairs_keys _)), map_map.
    simpl. rewrite in_map_iff. split; intros (tool & H1 & H2); eauto.
Qed.

(** ** The dispatcher on a tool of the catalog *)


(** ** Bounds and exits of the loop *)

Section LoopFacts.
Variable W : Type.
Variable nesting_limit : nat.
Variable unicode_isalnum : char -> bool.
Variable json_dumps : value -> str.
Variable json_dumps_indent2 : value -> str.
Variable now_isoformat : W -> str * W.
Variable now_kolkata : W -> str * W.
Variable self : ReActAgent W.
Variable user_input : str.
Variable max_iterations : Z.
Variable callback : option (ReActStep -> W -> W).
Variable conversation_history : option (list Message).
Variable cancellation_callback : option (W -> bool * W).

Local Abbreviation body :=
  (iteration_body nesting_limit unicode_isalnum json_dumps json_dumps_indent2
     now_isoformat self user_input callback conversation_history
     cancellation_callback).
Local Abbreviation case_of :=
  (body_case nesting_limit unicode_isalnum json_dumps json_dumps_indent2 self
     user_input conversation_history cancellation_callback).
Local Abbreviation loop :=
  (while_loop nesting_limit unicode_isalnum json_dumps json_dumps_indent2
     now_isoformat self user_input max_iterations callback conversation_history
     cancellation_callback).
Local Abbreviation streaming :=
  (run_streaming nesting_limit unicode_isalnum json_dumps json_dumps_indent2
     now_isoformat now_kolkata self user_input max_iterations callback
     conversation_history cancellation_callback).
Local Abbreviation passes_from :=
  (passes nesting_limit unicode_isalnum json_dumps json_dumps_indent2
     now_isoformat self user_input max_iterations callback conversation_history
     cancellation_callback).
Local Abbreviation prompt_of :=
  (full_prompt self user_input conversation_history).
Local Abbreviation cap_step :=
  (plain_step (py "final_answer") (max_iterations_text max_iterations)).
Local Abbreviation check := (cancellation_requested cancellation_callback).

Local Abbreviation body_cases :=
  (@iteration_body_case W nesting_limit unicode_isalnum json_dumps
     json_dumps_indent2 now_isoformat self user_input callback
     conversation_history cancellation_callback).
Local Abbreviation return_ends :=
  (@loop_return W nesting_limit unicode_isalnum json_dumps json_dumps_indent2
     now_isoformat self user_input max_iterations callback
     conversation_history cancellation_callback).
Local Abbreviation raise_ends :=
  (@loop_raise W nesting_limit unicode_isalnum json_dumps json_dumps_indent2
     now_isoformat self user_input max_iterations callback
     conversation_history cancellation_callback).
Local Abbreviation continue_goes_on :=
  (@loop_continue W nesting_limit unicode_isalnum json_dumps json_dumps_indent2
     now_isoformat self user_input max_iterations callback
     conversation_history cancellation_callback).
Local Abbreviation exit_at_cap :=
  (@loop_exit W nesting_limit unicode_isalnum json_dumps json_dumps_indent2
     now_isoformat self user_input max_iterations callback
     conversation_history cancellation_callback).
Local Abbreviation loop_returns :=
  (@loop_total W nesting_limit unicode_isalnum json_dumps json_dumps_indent2
     now_isoformat self user_input max_iterations callback
     conversation_history cancellation_callback).
Local Abbreviation passes_lead :=
  (@passes_spec W nesting_limit unicode_isalnum json_dumps json_dumps_indent2
     now_isoformat self user_input max_iterations callback
     conversation_history cancellation_callback).

Local Arguments _execute_tool : simpl never.
Local Arguments _parse_react_output : simpl never.
Local Arguments full_prompt : simpl never.
Local Arguments llm_error_content : simpl never.
Local Arguments scratchpad_after_action : simpl never.
Local Arguments max_iterations_text : simpl never.
Local Arguments cancellation_requested : simpl never.

(** The steps of one pass: at most three, at most one action; a pass that
    returns yields one step, which is no action; a pass that an exception
    leaves yields none. *)
Lemma body_case_size time_context agent_scratchpad (st : run_state W)
    fl new :
  case_of time_context agent_scratchpad st fl new ->
  (length new <= 3)%nat
  /\ (count_kind (py "action") new <= 1)%nat
  /\ match fl with
     | Return a =>
         exists last,
           new = [last] /\ content last = a
           /\ is_action_step last = false
           /\ (is_final_answer_step last || is_error_step last) = true
     | Continue _ => True
     | Raise _ => new = []
     end.
Proof.
  intros Hcase. inversion Hcase; subst;
    try (split; [simpl; lia | split; [cbv; lia |]]);
    try (eexists; repeat split; reflexivity); try exact I;
    try reflexivity.
  destruct thought; (split; [simpl; lia | split; [cbv; lia | exact I]]).
Qed.

Lemma loop_bounds fuel :
  forall time_context iteration agent_scratchpad (st : run_state W) e,
    loop fuel time_context iteration agent_scratchpad st = Some e ->
    exists new,
      yielded e = emitted st ++ new
      /\ (iteration <= counter e)%Z
      /\ (counter e <= Z.max iteration max_iterations)%Z
      /\ (length new <= 3 * Z.to_nat (counter e - iteration) + 1)%nat
      /\ (count_kind (py "action") new
          <= Z.to_nat (counter e - iteration))%nat
      /\ match e with
         | Returned _ => (1 <= length new)%nat
         | Raised _ _ _ =>
             (iteration < counter e)%Z
             /\ (length new
                 <= 3 * (Z.to_nat (counter e - iteration) - 1))%nat
         end.
Proof.
  induction fuel as [|fuel IH]; intros tc it sp st e Hrun; [discriminate|].
  destruct (Z.lt_ge_cases it max_iterations) as [Hlt|Hge].
  - destruct (body_cases tc sp st) as (new & Hcase & Hnew).
    destruct (body_case_size Hcase) as (Hlen & Hact & Hret).
    destruct (fst (body tc sp st)) as [a|sp'|x] eqn:Hflow.
    + rewrite (return_ends fuel tc sp st Hlt Hflow) in Hrun.
      injection Hrun as <-. simpl. exists new.
      destruct Hret as (last & -> & _ & Ha & _).
      split; [exact Hnew|]. unfold count_kind. simpl.
      fold (is_action_step last). rewrite Ha. simpl. lia.
    + rewrite (continue_goes_on fuel tc sp st Hlt Hflow) in Hrun.
      destruct (IH _ _ _ _ _ Hrun)
        as (new' & Hs & H1 & H2 & H3 & H4 & H5).
      exists (new ++ new'). rewrite Hs, Hnew, app_assoc.
      split; [reflexivity|]. rewrite length_app, count_kind_app.
      repeat (split; [lia|]). destruct e; [lia|]. simpl in *. lia.
    + rewrite (raise_ends fuel tc sp st Hlt Hflow) in Hrun.
      injection Hrun as <-. simpl. exists []. subst new.
      split; [exact Hnew|]. simpl. lia.
  - destruct (exit_at_cap fuel tc sp st Hge)
      as (ts & r' & Hr & Hs & _ & Hi).
    rewrite Hr in Hrun. injection Hrun as <-.
    exists [cap_step ts]. split; [exact Hs|]. simpl counter. rewrite Hi.
    change (count_kind (py "action") [cap_step ts]) with 0%nat.
    simpl. lia.
Qed.

(** X7. Every run ends within the cap, by returning or by an exception
    of the parser: the counter ends between 0 and the cap (at 0 when the
    cap is not positive), the steps yielded are at most three per
    iteration plus one, and the action steps are at most one per
    iteration. A run that returns has yielded at least one step; a run
    that an exception leaves has begun an iteration, and has yielded
    nothing in the iteration that the exception ends. *)
Theorem run_is_bounded (w : W) :
  exists e,
    streaming w = Some e
    /\ (0 <= counter e <= Z.max 0 max_iterations)%Z
    /\ (length (yielded e) <= 3 * Z.to_nat (counter e) + 1)%nat
    /\ (count_kind (py "action") (yielded e) <= Z.to_nat (counter e))%nat
    /\ (length (yielded e) <= 3 * Z.to_nat max_iterations + 1)%nat
    /\ match e with
       | Returned r => (1 <= length (steps r))%nat
       | Raised _ iteration st =>
           (1 <= iteration)%Z
           /\ (length (emitted st) <= 3 * (Z.to_nat iteration - 1))%nat
       end.
Proof.
  assert (Hfuel : (Z.to_nat (max_iterations - 0)
                   < S (Z.to_nat max_iterations))%nat) by lia.
  destruct (loop_returns (time_context_at now_kolkata w) 0%Z []
              (initial_state now_kolkata w) Hfuel) as [e He].
  exists e. split; [exact He|].
  destruct (loop_bounds _ _ _ _ _ He)
    as (new & Hs & H1 & H2 & H3 & H4 & H5).
  simpl in Hs. subst new. rewrite Z.sub_0_r in H3, H4.
  repeat (split; [lia|]).
  destruct e as [r|x it st]; simpl in *; [lia|].
  rewrite Z.sub_0_r in H5. lia.
Qed.

(** X8. With a cap that is not positive the model, the tools and the
    cancellation predicate are never consulted: the run reads the clock,
    yields the cap-reached step and returns its text, with the counter
    at 0. *)
Theorem nonpositive_cap_yields_only_the_notice (w : W) :
  (max_iterations <= 0)%Z ->
  let w0 := snd (now_kolkata w) in
  let step := cap_step (fst (now_isoformat w0)) in
  streaming w
  = Some (Returned
            {| steps := [step];
               answer := max_iterations_text max_iterations;
               iterations := 0;
               final_world :=
                 match callback with
                 | Some cb => cb step (snd (now_isoformat w0))
                 | None => snd (now_isoformat w0)
                 end |}).
Proof.
  intros Hle w0 step. unfold run_streaming. cbn [while_loop].
  apply Z.ltb_ge in Hle. rewrite Hle. reflexivity.
Qed.

(** X9. A run ends at the first pass that returns. Let the first [k]
    passes go through without returning, and let the next pass return
    [a]. Then the run returns [a] with the counter at [k + 1]; its steps
    are those of the [k] passes, all of them thoughts, actions and
    observations, followed by one last step, a ['final_answer'] or an
    ['error'] step whose content is [a]; nothing is done after that
    pass. *)
Theorem first_return_ends_the_run (w : W) (k : nat) iteration
    agent_scratchpad (st : run_state W) (a : str) :
  first_passes nesting_limit unicode_isalnum json_dumps json_dumps_indent2
    now_isoformat now_kolkata self user_input max_iterations callback
    conversation_history cancellation_callback k w
  = Some (iteration, agent_scratchpad, st) ->
  (iteration < max_iterations)%Z ->
  fst (body (time_context_at now_kolkata w) agent_scratchpad st)
  = Return a ->
  exists last r,
    streaming w = Some (Returned r)
    /\ steps r = emitted st ++ [last]
    /\ forallb is_progress_step (emitted st) = true
    /\ content last = a
    /\ (is_final_answer_step last || is_error_step last) = true
    /\ answer r = a
    /\ iterations r = Z.of_nat (S k)
    /\ final_world r
       = world (snd (body (time_context_at now_kolkata w) agent_scratchpad
                       st)).
Proof.
  intros Hpasses Hlt Hflow. unfold first_passes in Hpasses.
  destruct (passes_lead k _ _ _ _ Hpasses)
    as (Hit & (new & Hnew & Hprog) & Hloop).
  simpl in Hit, Hnew. subst new.
  destruct (body_cases (time_context_at now_kolkata w) agent_scratchpad st)
    as (new & Hcase & Hnew).
  rewrite Hflow in Hcase.
  destruct (body_case_size Hcase) as (_ & _ & last & -> & Hc & _ & Hkind).
  exists last. eexists. split.
  - unfold run_streaming.
    replace (S (Z.to_nat max_iterations))
      with (k + S (Z.to_nat max_iterations - k))%nat by lia.
    rewrite Hloop.
    apply (return_ends _ _ _ _ Hlt Hflow).
  - simpl. split; [exact Hnew|]. split; [exact Hprog|].
    split; [exact Hc|]. split; [exact Hkind|].
    split; [reflexivity|]. split; [lia | reflexivity].
Qed.

(** X10. [run] ends as the streaming run does. When the run returns,
    [run] returns its answer, except when the run ended with an ['error']
    step, the step of a failed model invocation: then [run] returns
    ['No answer generated.'] and the text of the failure is lost. When an
    exception leaves the generator it leaves [run], in the same world. *)
Theorem run_returns_the_last_final_answer (w : W) :
  exists e,
    run_streaming nesting_limit unicode_isalnum json_dumps json_dumps_indent2
      now_isoformat now_kolkata self user_input max_iterations None None
      None w = Some e
    /\ match e with
       | Returned r =>
           exists before last,
             steps r = before ++ [last]
             /\ content last = answer r
             /\ run nesting_limit unicode_isalnum json_dumps
                  json_dumps_indent2 now_isoformat now_kolkata self
                  user_input max_iterations w
                = Some (Returns
                          (if is_error_step last
                           then py "No answer generated."
                           else answer r),
                        final_world r)
             /\ (is_error_step last = true <->
                 exists error_str,
                   answer r = llm_error_content error_str
                   /\ last = plain_step (py "error")
                               (llm_error_content error_str)
                               (timestamp last))
       | Raised x _ st =>
           run nesting_limit unicode_isalnum json_dumps json_dumps_indent2
             now_isoformat now_kolkata self user_input max_iterations w
           = Some (Raises x, world st)
       end.
Proof.
  assert (Hfuel : (Z.to_nat (max_iterations - 0)
                   < S (Z.to_nat max_iterations))%nat) by lia.
  destruct (@loop_total W nesting_limit unicode_isalnum json_dumps
              json_dumps_indent2 now_isoformat self user_input
              max_iterations None None None _
              (time_context_at now_kolkata w) 0%Z []
              (initial_state now_kolkata w) Hfuel) as [e He].
  exists e. split; [exact He|].
  destruct e as [r|x it st];
    [|unfold run, run_streaming; now rewrite He].
  rename He into Hr.
  assert (H : exists before last,
             steps r = before ++ [last]
             /\ forallb is_progress_step before = true
             /\ content last = answer r
             /\ ((is_final_answer_step last = true
                  /\ is_error_step last = false)
                 \/ (exists error_str,
                       last = plain_step (py "error")
                                (llm_error_content error_str)
                                (timestamp last)))).
  { eapply (@loop_rule W nesting_limit unicode_isalnum json_dumps
              json_dumps_indent2 now_isoformat self user_input
              max_iterations None None None
              (fun es => forallb is_progress_step es = true)
              (fun es a =>
                 exists before last,
                   es = before ++ [last]
                   /\ forallb is_progress_step before = true
                   /\ content last = a
                   /\ ((is_final_answer_step last = true
                        /\ is_error_step last = false)
                       \/ (exists error_str,
                             last = plain_step (py "error")
                                      (llm_error_content error_str)
                                      (timestamp last)))));
      [| | | |exact Hr].
    - intros tc sp st sp' new HI Hcase.
      now rewrite forallb_app, HI, (body_case_progress Hcase).
    - intros tc sp st a new HI Hcase.
      inversion Hcase; subst; eexists; eexists;
        (split; [reflexivity|]); (split; [exact HI|]);
        (split; [reflexivity|]).
      + left. now split.
      + right. now exists error_str.
      + left. now split.
    - intros es ts HI. exists es, (cap_step ts).
      repeat split; auto.
    - reflexivity. }
  destruct H as (before & last & Hs & Hprog & Hc & Hkind).
  exists before, last. split; [exact Hs|].
  split; [exact Hc|].
  assert (Hnone : find is_final_answer_step (rev before) = None).
  { apply find_none_all. intros s Hin. apply in_rev in Hin.
    rewrite forallb_forall in Hprog. specialize (Hprog s Hin).
    unfold is_progress_step, is_action_step, is_observation_step,
      is_final_answer_step, has_kind in *.
    destruct (str_eqb_spec (step_type s) (py "final_answer")) as [E|_];
      [|reflexivity].
    rewrite E in Hprog. discriminate. }
  split.
  - unfold run, run_streaming. rewrite Hr, Hs, rev_app_distr. simpl.
    destruct Hkind as [[Hf He]|[e He]].
    + now rewrite Hf, He, Hc.
    + rewrite He. cbn -[llm_error_content]. now rewrite Hnone.
  - destruct Hkind as [[Hf He]|[e He]].
    + rewrite He. split; [discriminate|]. intros (e & _ & Hl).
      rewrite Hl in He. discriminate.
    + split; [|now rewrite He]. intros _. exists e.
      split; [|exact He]. rewrite <- Hc, He. reflexivity.
Qed.

(** ** What the prompt shows *)

Lemma react_prompt_parts (tool_descriptions input agent_scratchpad : str) :
  contains tool_descriptions
    (react_prompt tool_descriptions input agent_scratchpad) = true
  /\ contains input
       (react_prompt tool_descriptions input agent_scratchpad) = true
  /\ contains agent_scratchpad
       (react_prompt tool_descriptions input agent_scratchpad) = true.
Proof. unfold react_prompt. repeat split; find_part. Qed.

Lemma full_prompt_parts time_context agent_scratchpad :
  contains (system_prompt self) (prompt_of time_context agent_scratchpad)
  = true
  /\ contains time_context (prompt_of time_context agent_scratchpad) = true
  /\ contains (conversation_context conversation_history)
       (prompt_of time_context agent_scratchpad) = true
  /\ contains
       (react_prompt (_format_tool_descriptions self) user_input
          agent_scratchpad)
       (prompt_of time_context agent_scratchpad) = true.
Proof.
  unfold full_prompt. cbv zeta.
  destruct (system_prompt self) as [|c s]; repeat split; find_part.
Qed.

Lemma tool_line_listed (tool : Tool W) :
  In tool (tools self) ->
  contains (tool_line_head tool) (_format_tool_descriptions self) = true.
Proof.
  intros Hin. unfold _format_tool_descriptions.
  eapply contains_join.
  - apply in_map_iff. exists tool. split; [reflexivity | exact Hin].
  - unfold tool_line_head. rewrite !app_assoc. apply contains_here.
Qed.

Lemma prompt_holds_scratchpad time_context agent_scratchpad :
  contains agent_scratchpad (prompt_of time_context agent_scratchpad) = true.
Proof.
  destruct (full_prompt_parts time_context agent_scratchpad)
    as (_ & _ & _ & H).
  destruct (react_prompt_parts (_format_tool_descriptions self) user_input
              agent_scratchpad) as (_ & _ & H').
  exact (@contains_trans _ _ _ H' H).
Qed.

(** X11. Every prompt sent to the model shows the system prompt, the time
    context, the conversation context, the question, the scratchpad, and
    for every tool of the agent a line with its name. *)
Theorem prompt_shows_its_parts time_context agent_scratchpad :
  let prompt := prompt_of time_context agent_scratchpad in
  contains (system_prompt self) prompt = true
  /\ contains time_context prompt = true
  /\ contains (conversation_context conversation_history) prompt = true
  /\ contains user_input prompt = true
  /\ contains agent_scratchpad prompt = true
  /\ (forall tool,
        In tool (tools self) ->
        contains (tool_line_head tool) prompt = true).
Proof.
  intros prompt.
  destruct (full_prompt_parts time_context agent_scratchpad)
    as (H1 & H2 & H3 & H4).
  destruct (react_prompt_parts (_format_tool_descriptions self) user_input
              agent_scratchpad) as (H5 & H6 & H7).
  split; [exact H1|]. split; [exact H2|]. split; [exact H3|].
  split; [exact (@contains_trans _ _ _ H6 H4)|].
  split; [exact (@contains_trans _ _ _ H7 H4)|].
  intros tool Hin.
  exact (@contains_trans _ _ _
           (@contains_trans _ _ _ (tool_line_listed tool Hin) H5) H4).
Qed.

Lemma scratchpad_after_action_grows agent_scratchpad thought action
    action_input observation :
  exists extra,
    scratchpad_after_action json_dumps agent_scratchpad thought action
      action_input observation
    = agent_scratchpad ++ extra.
Proof.
  unfold scratchpad_after_action.
  destruct (contains (py "[END_TASK]") observation);
    rewrite <- !app_assoc; eauto.
Qed.

(** A pass that continues appends to the scratchpad. *)
Lemma body_case_grows time_context agent_scratchpad (st : run_state W)
    agent_scratchpad' new :
  case_of time_context agent_scratchpad st (Continue agent_scratchpad') new ->
  exists extra, agent_scratchpad' = agent_scratchpad ++ extra.
Proof.
  intros Hcase. inversion Hcase; subst; eauto.
  apply scratchpad_after_action_grows.
Qed.

Lemma passes_grow (k : nat) :
  forall time_context iteration agent_scratchpad (st : run_state W)
         iteration' agent_scratchpad' st',
    passes_from k time_context iteration agent_scratchpad st
    = Some (iteration', agent_scratchpad', st') ->
    exists extra, agent_scratchpad' = agent_scratchpad ++ extra.
Proof.
  induction k as [|k IH]; intros tc it sp st it' sp' st' H.
  - injection H as _ <- _. exists []. now rewrite app_nil_r.
  - cbn [passes] in H.
    destruct (it <? max_iterations)%Z; [|discriminate].
    destruct (body_cases tc sp st) as (new & Hcase & _).
    destruct (body tc sp st) as [[a|sp1|x] st1];
      [discriminate| |discriminate].
    simpl in Hcase. destruct (body_case_grows Hcase) as [e1 ->].
    destruct (IH _ _ _ _ _ _ _ H) as [e2 ->].
    exists (e1 ++ e2). now rewrite app_assoc.
Qed.

(** X12. The scratchpad only grows, and what an action added to it stays
    in every later prompt of the run: after an action and any number of
    further passes, the prompt still shows the name of the action, its
    serialized input and its observation, in full, and all that the
    scratchpad held before. *)
Theorem prompt_keeps_the_observations time_context iteration
    agent_scratchpad thought action action_input observation
    (st : run_state W) (k : nat) iteration' agent_scratchpad' st' :
  passes_from k time_context iteration
    (scratchpad_after_action json_dumps agent_scratchpad thought action
       action_input observation) st
  = Some (iteration', agent_scratchpad', st') ->
  let prompt := prompt_of time_context agent_scratchpad' in
  (exists extra, agent_scratchpad' = agent_scratchpad ++ extra)
  /\ contains agent_scratchpad prompt = true
  /\ contains (py "Action: " ++ action ++ nl) prompt = true
  /\ contains (py "Action Input: " ++ json_dumps action_input ++ nl) prompt
     = true
  /\ contains (py "Observation: " ++ observation ++ nl) prompt = true.
Proof.
  intros Hpasses prompt.
  destruct (passes_grow _ _ _ _ _ Hpasses) as [e2 E2].
  assert (Hsp : contains agent_scratchpad' prompt = true)
    by apply prompt_holds_scratchpad.
  assert (Hin : forall needle,
             contains needle
               (scratchpad_after_action json_dumps agent_scratchpad thought
                  action action_input observation) = true ->
             contains needle prompt = true).
  { intros needle H. apply (@contains_trans needle agent_scratchpad' prompt);
      [|exact Hsp].
    rewrite E2. now apply contains_app_r. }
  destruct (scratchpad_after_action_grows agent_scratchpad thought action
              action_input observation) as [e1 E1].
  split; [exists (e1 ++ e2); now rewrite E2, E1, app_assoc|].
  split; [apply Hin; rewrite E1; apply contains_here|].
  unfold scratchpad_after_action in Hin |- *.
  destruct (contains (py "[END_TASK]") observation).
  - repeat split; apply Hin; apply contains_app_r; find_part.
  - repeat split; apply Hin; find_part.
Qed.
End LoopFacts.

(** ** The conversation context *)

Lemma flat_map_length_le (A B : Type) (f : A -> list B) (bound : nat)
    (l : list A) :
  (forall x, length (f x) <= bound)%nat ->
  (length (flat_map f l) <= length l * bound)%nat.
Proof.
  intros H. induction l as [|x l IH]; simpl; [lia|].
  rewrite length_app. specialize (H x). lia.
Qed.

(** X13. The conversation context is built from the last six messages of
    the history only: older messages change nothing in the prompt. *)
Theorem conversation_context_uses_the_last_six (history : list Message) :
  conversation_context (Some history)
  = conversation_context (Some (skipn (length history - 6) history))
  /\ (forall old recent,
        length recent = 6%nat ->
        conversation_context (Some (old ++ recent))
        = conversation_context (Some recent)).
Proof.
  assert (H : forall old recent,
             length recent = 6%nat ->
             conversation_context (Some (old ++ recent))
             = conversation_context (Some recent)).
  { intros old recent Hlen.
    assert (E : skipn (length (old ++ recent) - 6) (old ++ recent) = recent).
    { rewrite length_app, Hlen, Nat.add_sub, skipn_app, skipn_all,
        Nat.sub_diag. reflexivity. }
    unfold conversation_context.
    destruct (old ++ recent) as [|m l] eqn:Eh.
    - apply (f_equal (@length _)) in Eh. rewrite length_app in Eh.
      simpl in Eh. lia.
    - rewrite E. destruct recent as [|m' l']; [discriminate|].
      cbv beta iota.
      replace (length (m' :: l') - 6)%nat with 0%nat by (rewrite Hlen; lia).
      reflexivity. }
  split; [|exact H].
  destruct (Nat.le_gt_cases 6 (length history)) as [Hge|Hlt].
  - rewrite <- (firstn_skipn (length history - 6) history) at 1.
    rewrite H; [reflexivity|]. rewrite length_skipn. lia.
  - replace (length history - 6)%nat with 0%nat by lia. reflexivity.
Qed.

(** X14. Whatever the history, the conversation context adds at most
    [conversation_context_bound] characters to the prompt, at most
    [message_bound] for each of six messages. *)
Theorem conversation_context_is_bounded
    (conversation_history : option (list Message)) :
  (length (conversation_context conversation_history)
   <= conversation_context_bound)%nat.
Proof.
  unfold conversation_context_bound, conversation_context.
  destruct conversation_history as [[|m l]|]; try (simpl; lia).
  set (history := m :: l).
  rewrite !length_app.
  assert (Hmsgs : (length (skipn (length history - 6) history) <= 6)%nat)
    by (rewrite length_skipn; lia).
  match goal with
  | |- context [flat_map ?f ?l] =>
      assert (Hflat : (length (flat_map f l) <= length l * message_bound)%nat)
  end.
  { apply flat_map_length_le. intros msg.
    destruct (message_content msg) as [c|]; [|simpl; lia].
    cbv zeta. unfold message_bound.
    destruct (is_human msg); destruct (800 <? length c)%nat eqn:E;
      rewrite !length_app, ?length_firstn;
      change (length nl) with 1%nat; change (length (py ": ")) with 2%nat;
      change (length (py "...")) with 3%nat;
      change (length (py "User")) with 4%nat;
      change (length (py "Assistant")) with 9%nat;
      try apply Nat.ltb_ge in E; lia. }
  change (length nl) with 1%nat.
  change (length (py "**Previous Conversation:**")) with 26%nat.
  change (length (py "**Current Question:**")) with 21%nat.
  unfold message_bound in *. nia.
Qed.

(** ** The text of a failed model invocation *)

(** X15. The text shown for a failed model invocation always holds the
    text of the failure. The failure is reported as a context overflow
    exactly when its text, lowercased, holds ['tokens'] or ['context']
    (the test for ['maximum context length'] adds nothing); otherwise the
    text shown is ['LLM error: '] followed by the text of the failure. *)
Theorem error_text_is_shown (error_str : str) :
  let context_error :=
    contains (py "tokens") (str_lower error_str)
    || contains (py "context") (str_lower error_str) in
  contains error_str (llm_error_content error_str) = true
  /\ (if context_error
      then contains (py "**Context Length Exceeded!**")
             (llm_error_content error_str) = true
      else llm_error_content error_str = py "LLM error: " ++ error_str).
Proof.
  intros context_error. unfold llm_error_content.
  assert (E : contains (py "maximum context length") (str_lower error_str)
              || contains (py "tokens") (str_lower error_str)
              || contains (py "context") (str_lower error_str)
              = context_error).
  { unfold context_error.
    destruct (contains (py "maximum context length") (str_lower error_str))
      eqn:Hmax; [|reflexivity].
    change (py "maximum context length")
      with (py "maximum " ++ py "context" ++ py " length") in Hmax.
    apply contains_part in Hmax. rewrite Hmax. simpl.
    symmetry. apply orb_true_r. }
  cbv zeta. rewrite E.
  destruct context_error; split; try reflexivity; find_part.
Qed.

(** ** The generator consumed to its end *)

Section GeneratorFacts.
Variable W : Type.

Lemma drain_gbind (A B : Type) (m : Gen W A) (f : A -> Gen W B)
    (st : run_state W) :
  drain (gbind m f) st = drain (f (fst (drain m st))) (snd (drain m st)).
Proof.
  revert st. induction m as [a|X g k IH|step k IH]; intros st; simpl.
  - reflexivity.
  - apply IH.
  - apply IH.
Qed.

Lemma drain_gcall (A : Type) (f : W -> A * W) (st : run_state W) :
  drain (gcall f) st = call f st.
Proof. reflexivity. Qed.

Lemma drain_gyield (callback : option (ReActStep -> W -> W))
    (step : ReActStep) (st : run_state W) :
  drain (gyield callback step) st = yield callback step st.
Proof. now destruct callback. Qed.

Lemma yields_at_most_le (A : Type) (g : Gen W A) :
  forall n n', (n <= n')%nat -> yields_at_most n g -> yields_at_most n' g.
Proof.
  induction g as [a|X f k IH|step k IH]; intros n n' Hle H; simpl in *.
  - exact I.
  - intros x. now apply (IH x n).
  - destruct n as [|n]; [destruct H|].
    destruct n' as [|n']; [lia|]. apply (IH n); [lia | exact H].
Qed.

Lemma yields_at_most_gbind (A B : Type) (m : Gen W A) (f : A -> Gen W B)
    (n k : nat) :
  yields_at_most n m -> (forall a, yields_at_most k (f a)) ->
  yields_at_most (n + k) (gbind m f).
Proof.
  revert n. induction m as [a|X g c IH|step c IH]; intros n Hm Hf; simpl in *.
  - apply (yields_at_most_le (f a) (n := k)); [lia | apply Hf].
  - intros x. now apply IH.
  - destruct n as [|n]; [destruct Hm|]. simpl. now apply IH.
Qed.

Lemma yields_at_most_gcall (A : Type) (f : W -> A * W) :
  yields_at_most 0 (gcall f).
Proof. intros x. exact I. Qed.

Lemma yields_at_most_gyield callback (step : ReActStep) :
  yields_at_most 1 (gyield (W := W) callback step).
Proof. destruct callback; simpl; auto. Qed.

Variable nesting_limit : nat.
Variable unicode_isalnum : char -> bool.
Variable json_dumps : value -> str.
Variable json_dumps_indent2 : value -> str.
Variable now_isoformat : W -> str * W.
Variable now_kolkata : W -> str * W.
Variable self : ReActAgent W.
Variable user_input : str.
Variable max_iterations : Z.
Variable callback : option (ReActStep -> W -> W).
Variable conversation_history : option (list Message).
Variable cancellation_callback : option (W -> bool * W).

Local Abbreviation body :=
  (iteration_body nesting_limit unicode_isalnum json_dumps json_dumps_indent2
     now_isoformat self user_input callback conversation_history
     cancellation_callback).
Local Abbreviation gen_body :=
  (generator_body nesting_limit unicode_isalnum json_dumps json_dumps_indent2
     now_isoformat self user_input callback conversation_history
     cancellation_callback).
Local Abbreviation loop :=
  (while_loop nesting_limit unicode_isalnum json_dumps json_dumps_indent2
     now_isoformat self user_input max_iterations callback conversation_history
     cancellation_callback).
Local Abbreviation gen_loop :=
  (generator_loop nesting_limit unicode_isalnum json_dumps json_dumps_indent2
     now_isoformat self user_input max_iterations callback
     conversation_history cancellation_callback).

Local Arguments _execute_tool : simpl never.
Local Arguments _parse_react_output : simpl never.
Local Arguments full_prompt : simpl never.
Local Arguments llm_error_content : simpl never.
Local Arguments scratchpad_after_action : simpl never.
Local Arguments max_iterations_text : simpl never.

Ltac drain_step :=
  rewrite ?drain_gbind, ?drain_gcall, ?drain_gyield; cbn [drain fst snd].

(** Consumed to its end, the body of the generator does what the loop
    body of the run does. *)
Lemma drain_generator_body time_context agent_scratchpad
    (st : run_state W) :
  drain (gen_body time_context agent_scratchpad) st
  = body time_context agent_scratchpad st.
Proof.
  unfold generator_body, iteration_body, cancellation_requested, bind.
  rewrite drain_gbind.
  assert (Hcheck :
            drain match cancellation_callback with
                  | Some is_cancelled => gcall is_cancelled
                  | None => GRet false
                  end st
            = match cancellation_callback with
              | Some is_cancelled => call is_cancelled
              | None => ret false
              end st).
  { now destruct cancellation_callback. }
  rewrite Hcheck.
  set (c := match cancellation_callback with
            | Some is_cancelled => call is_cancelled
            | None => ret false
            end st).
  destruct (fst c).
  - repeat drain_step. reflexivity.
  - repeat drain_step.
    destruct (fst (call (llm self _) (snd c))) as [content|e].
    + destruct (_parse_react_output nesting_limit unicode_isalnum
                  (strip content))
        as [answer|thought action action_input|thought|raw|x].
      * repeat drain_step. reflexivity.
      * destruct thought as [|ch thought]; repeat drain_step; reflexivity.
      * repeat drain_step. reflexivity.
      * reflexivity.
      * reflexivity.
    + repeat drain_step. reflexivity.
Qed.

(** Consumed to its end, the generator yields the steps of the run,
    ends as the run does and leaves its world. *)
Lemma drain_generator_loop (fuel : nat) :
  forall time_context iteration agent_scratchpad (st : run_state W) e,
    loop fuel time_context iteration agent_scratchpad st = Some e ->
    drain (gen_loop fuel time_context iteration agent_scratchpad) st
    = (Some (ending e),
       {| world := world_after e; emitted := yielded e |}).
Proof.
  induction fuel as [|fuel IH]; intros tc it sp st e H; [discriminate|].
  cbn [while_loop generator_loop] in *.
  destruct (it <? max_iterations)%Z.
  - rewrite drain_gbind, drain_generator_body.
    destruct (body tc sp st) as [[a|sp'|x] st'].
    + injection H as <-. cbn. now destruct st'.
    + cbn [fst snd]. now apply IH.
    + injection H as <-. cbn. now destruct st'.
  - unfold max_iterations_reached, bind in H. injection H as <-.
    repeat drain_step. reflexivity.
Qed.

(** The generator yields at most three steps per pass, and one more at
    the end. *)
Lemma generator_body_yields time_context agent_scratchpad :
  yields_at_most 3 (gen_body time_context agent_scratchpad).
Proof.
  unfold generator_body, gcall, gyield.
  destruct cancellation_callback, callback; cbn; intros;
    repeat match goal with
           | |- context [match ?x with _ => _ end] => destruct x; cbn; intros
           end; exact I.
Qed.

Lemma generator_loop_yields (fuel : nat) :
  forall time_context iteration agent_scratchpad,
    yields_at_most (3 * Z.to_nat (max_iterations - iteration) + 1)
      (gen_loop fuel time_context iteration agent_scratchpad).
Proof.
  induction fuel as [|fuel IH]; intros tc it sp; [exact I|].
  cbn [generator_loop].
  destruct (it <? max_iterations)%Z eqn:Hlt.
  - apply Z.ltb_lt in Hlt.
    apply (yields_at_most_le _
             (n := 3 + (3 * Z.to_nat (max_iterations - (it + 1)) + 1)));
      [lia|].
    apply yields_at_most_gbind; [apply generator_body_yields|].
    intros [a|sp'|x]; [exact I | apply IH | exact I].
  - apply (yields_at_most_le _ (n := 1)); [lia|].
    unfold gcall, gyield. destruct callback; cbn; intros; exact I.
Qed.

Lemma run_streaming_generator_yields :
  yields_at_most (3 * Z.to_nat max_iterations + 1)
    (run_streaming_generator nesting_limit unicode_isalnum json_dumps
       json_dumps_indent2 now_isoformat now_kolkata self user_input
       max_iterations callback conversation_history cancellation_callback).
Proof.
  unfold run_streaming_generator, gcall. cbn [gbind]. intros current_time.
  rewrite <- (Z.sub_0_r max_iterations) at 1. apply generator_loop_yields.
Qed.

(** Consumed to its end, the generator of a run yields the steps of the
    run, ends as the run does and leaves its world. *)
Lemma drain_run_streaming_generator (w : W) (e : run_end W) :
  run_streaming nesting_limit unicode_isalnum json_dumps json_dumps_indent2
    now_isoformat now_kolkata self user_input max_iterations callback
    conversation_history cancellation_callback w = Some e ->
  drain
    (run_streaming_generator nesting_limit unicode_isalnum json_dumps
       json_dumps_indent2 now_isoformat now_kolkata self user_input
       max_iterations callback conversation_history cancellation_callback)
    {| world := w; emitted := [] |}
  = (Some (ending e), {| world := world_after e; emitted := yielded e |}).
Proof.
  intros H. unfold run_streaming_generator.
  rewrite drain_gbind, drain_gcall. cbn [call fst snd world emitted].
  now apply drain_generator_loop.
Qed.
End GeneratorFacts.

(** ** The loop of the research controller *)

Section ControllerFacts.
Variable W : Type.
Variable self : Controller.LeadResearchController W.

Local Abbreviation for_each := (Controller.for_each_step self).
Local Abbreviation is_completion := Controller.is_completion.
Local Abbreviation is_saved := Controller.is_saved.
Local Abbreviation received := (@Controller.received W).
Local Abbreviation forwarded := (@Controller.forwarded W).
Local Abbreviation saved_count := (@Controller.saved_count W).
Local Abbreviation loop_world := (@Controller.loop_world W).

(** The steps passed to [step_callback] when the loop has dealt with the
    steps [processed]. *)
Local Abbreviation shown processed :=
  (match Controller.step_callback self with
   | Some _ => processed
   | None => @nil ReActStep
   end).

Local Abbreviation saved_among processed :=
  (Z.of_nat (length (filter is_saved processed))).

Lemma forward_spec (step : ReActStep) (st : Controller.loop_state W) :
  received (Controller.forward self step st) = received st
  /\ forwarded (Controller.forward self step st)
     = forwarded st ++ shown [step]
  /\ saved_count (Controller.forward self step st) = saved_count st.
Proof.
  unfold Controller.forward.
  destruct (Controller.step_callback self); simpl;
    now rewrite ?app_nil_r.
Qed.

(** X16. Whatever generator the loop of the controller consumes: every
    step it receives is passed to [step_callback] once and in order,
    except a step at which the cancellation predicate holds, which is
    dropped and ends the loop. An observation with the completion marker
    is passed on and ends the loop, so none comes before the last step.
    [saved_count] grows by the number of observations with a saved marker
    among the steps dealt with. An exception of the generator ends the
    loop like its return, with every step received passed on. *)
Theorem controller_forwards_each_step_once
    (generator : Gen W (option (outcome str)))
    (st0 : Controller.loop_state W) :
  let st := snd (for_each generator st0) in
  exists dealt_with dropped,
    received st = received st0 ++ dealt_with ++ dropped
    /\ forwarded st = forwarded st0 ++ shown dealt_with
    /\ saved_count st = (saved_count st0 + saved_among dealt_with)%Z
    /\ match fst (for_each generator st0) with
       | Controller.Exhausted =>
           dropped = [] /\ existsb is_completion dealt_with = false
       | Controller.Completed =>
           dropped = []
           /\ exists before last,
                dealt_with = before ++ [last]
                /\ is_completion last = true
                /\ existsb is_completion before = false
       | Controller.Cancelled =>
           Controller.cancellation_callback self <> None
           /\ (exists step, dropped = [step])
           /\ existsb is_completion dealt_with = false
       | Controller.Failed _ =>
           dropped = [] /\ existsb is_completion dealt_with = false
       end.
Proof.
  revert st0.
  induction generator as [a|X f k IH|step k IH]; intros st0.
  - exists [], [].
    destruct a as [[a|e]|]; simpl; rewrite !app_nil_r, Z.add_0_r;
      destruct (Controller.step_callback self); now rewrite ?app_nil_r.
  - exact (IH (fst (f (loop_world st0)))
             {| Controller.loop_world := snd (f (loop_world st0));
                Controller.received := received st0;
                Controller.forwarded := forwarded st0;
                Controller.saved_count := saved_count st0 |}).
  - cbn [Controller.for_each_step].
    destruct (match Controller.cancellation_callback self with
              | Some is_cancelled => is_cancelled (loop_world st0)
              | None => (false, loop_world st0)
              end) as [cancelled w] eqn:Hcheck.
    destruct cancelled.
    { exists [], [step]. simpl. rewrite Z.add_0_r.
      split; [reflexivity|].
      split; [destruct (Controller.step_callback self);
              now rewrite ?app_nil_r|].
      split; [reflexivity|].
      split; [|split; [now exists step | reflexivity]].
      destruct (Controller.cancellation_callback self);
        [discriminate | now injection Hcheck]. }
    set (st1 := {| Controller.loop_world := w;
                   Controller.received := received st0 ++ [step];
                   Controller.forwarded := forwarded st0;
                   Controller.saved_count := saved_count st0 |}).
    assert (Hnext : forall (st2 : Controller.loop_state W)
                           (saved completion : bool),
               received st2 = received st0 ++ [step] ->
               forwarded st2 = forwarded st0 ->
               saved_count st2
               = (saved_count st0 + if saved then 1 else 0)%Z ->
               is_saved step = saved ->
               is_completion step = completion ->
               let res :=
                 if completion
                 then (Controller.Completed, Controller.forward self step st2)
                 else for_each k (Controller.forward self step st2) in
               exists dealt_with dropped,
                 received (snd res) = received st0 ++ dealt_with ++ dropped
                 /\ forwarded (snd res) = forwarded st0 ++ shown dealt_with
                 /\ saved_count (snd res)
                    = (saved_count st0 + saved_among dealt_with)%Z
                 /\ match fst res with
                    | Controller.Exhausted =>
                        dropped = []
                        /\ existsb is_completion dealt_with = false
                    | Controller.Completed =>
                        dropped = []
                        /\ exists before last,
                             dealt_with = before ++ [last]
                             /\ is_completion last = true
                             /\ existsb is_completion before = false
                    | Controller.Cancelled =>
                        Controller.cancellation_callback self <> None
                        /\ (exists step, dropped = [step])
                        /\ existsb is_completion dealt_with = false
                    | Controller.Failed _ =>
                        dropped = []
                        /\ existsb is_completion dealt_with = false
                    end).
    { intros st2 saved completion Hr Hf Hs Hsaved Hcompletion res.
      destruct (forward_spec step st2) as (Fr & Ff & Fs).
      destruct completion; subst res.
      - exists [step], []. simpl. rewrite Fr, Ff, Fs, Hr, Hf, Hs, Hsaved.
        split; [reflexivity|]. split; [reflexivity|].
        split; [now destruct saved|].
        split; [reflexivity|]. exists [], step. now repeat split.
      - destruct (IH (Controller.forward self step st2))
          as (dealt & dropped & Ir & If & Is & Ie).
        exists (step :: dealt), dropped.
        rewrite Ir, If, Is, Fr, Ff, Fs, Hr, Hf, Hs. simpl.
        rewrite Hsaved, Hcompletion, <- !app_assoc. simpl.
        split; [reflexivity|].
        split; [now destruct (Controller.step_callback self)|].
        split; [destruct saved; simpl length; lia|].
        destruct (fst (for_each k (Controller.forward self step st2))).
        + exact Ie.
        + exact Ie.
        + destruct Ie as (Hd & before & last & -> & Hl & Hb).
          split; [exact Hd|]. exists (step :: before), last.
          simpl. rewrite Hcompletion.
          split; [reflexivity|]. split; [exact Hl | exact Hb].
        + exact Ie. }
    unfold Controller.is_completion, Controller.is_saved, is_observation_step,
      has_kind in Hnext.
    destruct (str_eqb (step_type step) (py "observation")) eqn:Hobs.
    + destruct (contains Controller.saved_marker (content step)
                || contains Controller.saved_message (content step)) eqn:Hsv.
      * apply (Hnext _ true _); try reflexivity; simpl; lia.
      * apply (Hnext st1 false _); try reflexivity; simpl; lia.
    + apply (Hnext st1 false false); try reflexivity; simpl; lia.
Qed.

Lemma for_each_bounded (generator : Gen W (option (outcome str))) :
  forall (n : nat) (st : Controller.loop_state W),
    yields_at_most n generator ->
    (length (received (snd (for_each generator st)))
     <= length (received st) + n)%nat.
Proof.
  induction generator as [a|X f k IH|step k IH]; intros n st Hn.
  - destruct a as [[a|e]|]; simpl; lia.
  - cbn [Controller.for_each_step]. simpl in Hn.
    etransitivity; [apply (IH _ n); apply Hn|]. simpl. lia.
  - cbn [Controller.for_each_step]. simpl in Hn.
    destruct n as [|n]; [destruct Hn|].
    destruct (match Controller.cancellation_callback self with
              | Some is_cancelled => is_cancelled (loop_world st)
              | None => (false, loop_world st)
              end) as [cancelled w].
    assert (Hfw : forall st2,
               received st2 = received st ++ [step] ->
               (length (received
                          (snd (for_each k (Controller.forward self step st2))))
                <= length (received st) + S n)%nat).
    { intros st2 Hr.
      etransitivity; [apply (IH n); exact Hn|].
      rewrite (proj1 (forward_spec step st2)), Hr, length_app. simpl. lia. }
    destruct cancelled; [simpl; rewrite length_app; simpl; lia|].
    destruct (str_eqb (step_type step) (py "observation")).
    + destruct (contains Controller.saved_marker (content step)
                || contains Controller.saved_message (content step));
        (destruct (contains Controller.completed_marker (content step));
         [cbn [snd]; rewrite (proj1 (forward_spec step _)); simpl;
          rewrite length_app; simpl; lia
         |now apply Hfw]).
    + now apply Hfw.
Qed.
End ControllerFacts.

Section ResearchFacts.
Variable W : Type.
Variable nesting_limit : nat.
Variable unicode_isalnum : char -> bool.
Variable json_dumps : value -> str.
Variable json_dumps_indent2 : value -> str.
Variable now_isoformat : W -> str * W.
Variable now_kolkata : W -> str * W.
Variable self : Controller.LeadResearchController W.

Local Abbreviation run_loop :=
  (Controller.run_loop nesting_limit unicode_isalnum json_dumps
     json_dumps_indent2 now_isoformat now_kolkata self).
Local Abbreviation max_steps := (Controller.max_iterations self * 15)%Z.
Local Abbreviation agent_run :=
  (run_streaming nesting_limit unicode_isalnum json_dumps json_dumps_indent2
     now_isoformat now_kolkata (Controller.agent self)
     (Controller.initial_prompt self) max_steps None None
     (Controller.cancellation_callback self)).

(** X17. The loop of the controller ends, whatever the model, the tools
    and the callbacks do, after receiving at most 45 steps for each of its
    [max_iterations], and one more. *)
Theorem research_loop_is_bounded (w : W) :
  (length (Controller.received (snd (run_loop w)))
   <= 45 * Z.to_nat (Controller.max_iterations self) + 1)%nat
  /\ (length (Controller.forwarded (snd (run_loop w)))
      <= 45 * Z.to_nat (Controller.max_iterations self) + 1)%nat.
Proof.
  unfold Controller.run_loop. cbv zeta.
  match goal with
  | |- context [Controller.for_each_step self ?g ?st] =>
      set (generator := g); set (st0 := st)
  end.
  assert (Hr : (length (Controller.received
                          (snd (Controller.for_each_step self generator st0)))
                <= 3 * Z.to_nat max_steps + 1)%nat).
  { apply (@for_each_bounded W self generator
             (3 * Z.to_nat max_steps + 1) st0).
    apply run_streaming_generator_yields. }
  split; [lia|].
  assert (Hf : forall (g : Gen W (option (outcome str))) st,
             (length (Controller.forwarded st)
              <= length (Controller.received st))%nat ->
             (length (Controller.forwarded
                        (snd (Controller.for_each_step self g st)))
              <= length (Controller.received
                           (snd (Controller.for_each_step self g st))))%nat).
  { clear. induction g as [a|X f k IH|step k IH]; intros st Hst.
    - now destruct a as [[a|e]|].
    - cbn [Controller.for_each_step]. now apply IH.
    - cbn [Controller.for_each_step].
      destruct (match Controller.cancellation_callback self with
                | Some is_cancelled => is_cancelled (Controller.loop_world st)
                | None => (false, Controller.loop_world st)
                end) as [cancelled w].
      assert (Hfw : forall st2,
                 Controller.received st2 = Controller.received st ++ [step] ->
                 Controller.forwarded st2 = Controller.forwarded st ->
                 (length (Controller.forwarded
                            (Controller.forward self step st2))
                  <= length (Controller.received
                               (Controller.forward self step st2)))%nat).
      { intros st2 Hr Hf.
        destruct (forward_spec self step st2) as (-> & -> & _).
        rewrite Hr, Hf, !length_app.
        destruct (Controller.step_callback self); simpl; lia. }
      destruct cancelled; [simpl; rewrite length_app; lia|].
      destruct (str_eqb (step_type step) (py "observation")).
      + destruct (contains Controller.saved_marker (content step)
                  || contains Controller.saved_message (content step));
          (destruct (contains Controller.completed_marker (content step));
           [cbn [snd] | apply IH]; now apply Hfw).
      + apply IH. now apply Hfw. }
  pose proof (Hf generator st0 (Nat.le_refl 0)) as H0. lia.
Qed.

(** X18. When the cancellation predicate holds whenever it is consulted,
    the controller passes nothing to [step_callback], not even the notice
    of the cancellation: the agent consults the predicate, yields its
    notice ['Task cancelled by user'] (or, with no iteration allowed, the
    cap-reached step), and the controller, consulting the predicate in
    turn, drops that step and stops. The model and the tools are never
    consulted. *)
Theorem standing_cancellation_forwards_nothing (w : W)
    (is_cancelled : W -> bool * W) :
  Controller.cancellation_callback self = Some is_cancelled ->
  (forall w', fst (is_cancelled w') = true) ->
  let positive := (0 <? Controller.max_iterations self)%Z in
  let w1 := snd (now_kolkata w) in
  let w2 := if positive then snd (is_cancelled w1) else w1 in
  let notice :=
    if positive then cancelled_text else max_iterations_text max_steps in
  run_loop w
  = (Controller.Cancelled,
     {| Controller.loop_world := snd (is_cancelled (snd (now_isoformat w2)));
        Controller.received :=
          [plain_step (py "final_answer") notice (fst (now_isoformat w2))];
        Controller.forwarded := [];
        Controller.saved_count := 0 |}).
Proof.
  intros Hc Halways positive w1 w2 notice.
  unfold Controller.run_loop, run_streaming_generator. cbv zeta.
  rewrite Hc. cbn [gbind gcall Controller.for_each_step].
  cbn [Controller.loop_world fst snd]. fold w1.
  replace (Z.to_nat max_steps) with (Z.to_nat max_steps) by reflexivity.
  cbn [generator_loop].
  replace (0 <? max_steps)%Z with positive
    by (unfold positive;
        destruct (Z.ltb_spec 0 (Controller.max_iterations self));
        destruct (Z.ltb_spec 0 max_steps); lia || reflexivity).
  subst w2 notice. destruct positive.
  - unfold generator_body, gcall, gyield.
    cbn [gbind Controller.for_each_step Controller.loop_world fst snd].
    rewrite (Halways w1).
    cbn [gbind Controller.for_each_step Controller.loop_world fst snd].
    rewrite Hc.
    rewrite (surjective_pairing (is_cancelled _)), Halways. reflexivity.
  - unfold gcall, gyield.
    cbn [gbind Controller.for_each_step Controller.loop_world fst snd].
    rewrite Hc.
    rewrite (surjective_pairing (is_cancelled _)), Halways. reflexivity.
Qed.
End ResearchFacts.

Section QuietResearch.
Variable W : Type.
Variable nesting_limit : nat.
Variable unicode_isalnum : char -> bool.
Variable json_dumps : value -> str.
Variable json_dumps_indent2 : value -> str.
Variable now_isoformat : W -> str * W.
Variable now_kolkata : W -> str * W.
Variable self : Controller.LeadResearchController W.
Hypothesis no_cancellation : Controller.cancellation_callback self = None.
Hypothesis no_step_callback : Controller.step_callback self = None.

(** With no callback of its own, the loop of the controller goes the way
    of the generator consumed to its end, up to the step at which it
    stops. *)
Lemma for_each_follows_drain (generator : Gen W (option (outcome str))) :
  forall (st : Controller.loop_state W) (dst : run_state W),
    Controller.loop_world st = world dst ->
    let res := Controller.for_each_step self generator st in
    exists new rest,
      emitted (snd (drain generator dst)) = emitted dst ++ new ++ rest
      /\ Controller.received (snd res) = Controller.received st ++ new
      /\ Controller.forwarded (snd res) = Controller.forwarded st
      /\ match fst res with
         | Controller.Exhausted =>
             rest = []
             /\ Controller.loop_world (snd res)
                = world (snd (drain generator dst))
             /\ forall x, fst (drain generator dst) <> Some (Raises x)
         | Controller.Completed =>
             exists before last,
               new = before ++ [last]
               /\ Controller.is_completion last = true
         | Controller.Cancelled => False
         | Controller.Failed x =>
             rest = []
             /\ Controller.loop_world (snd res)
                = world (snd (drain generator dst))
             /\ fst (drain generator dst) = Some (Raises x)
         end.
Proof.
  induction generator as [a|X f k IH|step k IH]; intros st dst Hw res;
    subst res.
  - exists [], [].
    destruct a as [[a|e]|]; simpl; rewrite !app_nil_r;
      repeat split; auto; discriminate.
  - cbn [Controller.for_each_step drain]. rewrite Hw.
    exact (IH (fst (f (world dst)))
             {| Controller.loop_world := snd (f (world dst));
                Controller.received := Controller.received st;
                Controller.forwarded := Controller.forwarded st;
                Controller.saved_count := Controller.saved_count st |}
             {| world := snd (f (world dst)); emitted := emitted dst |}
             eq_refl).
  - cbn [Controller.for_each_step drain].
    rewrite no_cancellation. cbv iota beta.
    set (dst1 := {| world := world dst; emitted := emitted dst ++ [step] |}).
    assert (Hfw : forall st2, Controller.forward self step st2 = st2).
    { intros st2. unfold Controller.forward. now rewrite no_step_callback. }
    assert (Hnext : forall st2,
               Controller.loop_world st2 = world dst ->
               Controller.received st2 = Controller.received st ++ [step] ->
               Controller.forwarded st2 = Controller.forwarded st ->
               exists new rest,
                 emitted (snd (drain k dst1)) = emitted dst ++ new ++ rest
                 /\ Controller.received
                      (snd (Controller.for_each_step self k st2))
                    = Controller.received st ++ new
                 /\ Controller.forwarded
                      (snd (Controller.for_each_step self k st2))
                    = Controller.forwarded st
                 /\ match fst (Controller.for_each_step self k st2) with
                    | Controller.Exhausted =>
                        rest = []
                        /\ Controller.loop_world
                             (snd (Controller.for_each_step self k st2))
                           = world (snd (drain k dst1))
                        /\ forall x, fst (drain k dst1) <> Some (Raises x)
                    | Controller.Completed =>
                        exists before last,
                          new = before ++ [last]
                          /\ Controller.is_completion last = true
                    | Controller.Cancelled => False
                    | Controller.Failed x =>
                        rest = []
                        /\ Controller.loop_world
                             (snd (Controller.for_each_step self k st2))
                           = world (snd (drain k dst1))
                        /\ fst (drain k dst1) = Some (Raises x)
                    end).
    { intros st2 H2w H2r H2f.
      destruct (IH st2 dst1 H2w) as (new & rest & He & Hr & Hf & Hend).
      exists (step :: new), rest. simpl in He.
      rewrite He, <- app_assoc, Hr, Hf, H2r, H2f, <- app_assoc.
      split; [reflexivity|]. split; [reflexivity|]. split; [reflexivity|].
      destruct (fst (Controller.for_each_step self k st2)); auto.
      destruct Hend as (before & last & -> & Hl).
      now exists (step :: before), last. }
    assert (Hstop : Controller.is_completion step = true ->
               forall st2 : Controller.loop_state W,
                 Controller.received st2 = Controller.received st ++ [step] ->
                 Controller.forwarded st2 = Controller.forwarded st ->
                 exists new rest,
                   emitted (snd (drain k dst1)) = emitted dst ++ new ++ rest
                   /\ Controller.received st2 = Controller.received st ++ new
                   /\ Controller.forwarded st2 = Controller.forwarded st
                   /\ exists before last,
                        new = before ++ [last]
                        /\ Controller.is_completion last = true).
    { intros Hcompletion st2 H2r H2f.
      destruct (IH st dst1 Hw) as (new & rest & He & _).
      exists [step], (new ++ rest). simpl in He.
      rewrite He, <- app_assoc.
      split; [reflexivity|]. split; [exact H2r|]. split; [exact H2f|].
      now exists [], step. }
    unfold Controller.is_completion, is_observation_step, has_kind in Hstop.
    destruct (str_eqb (step_type step) (py "observation")).
    + destruct (contains Controller.saved_marker (content step)
                || contains Controller.saved_message (content step));
        (destruct (contains Controller.completed_marker (content step));
         rewrite Hfw; [now apply Hstop | now apply Hnext]).
    + rewrite Hfw. now apply Hnext.
Qed.

Local Abbreviation run_loop :=
  (Controller.run_loop nesting_limit unicode_isalnum json_dumps
     json_dumps_indent2 now_isoformat now_kolkata self).
Local Abbreviation max_steps := (Controller.max_iterations self * 15)%Z.

(** X19. A controller with no cancellation predicate and no
    [step_callback] receives the steps of the run of its agent on the
    initial prompt, with a cap of fifteen times [max_iterations], as the
    run yields them when it is consumed to its end: all of them, leaving
    the world that the run leaves, unless an observation with the
    completion marker stops the loop; then it has received the steps up to
    that observation, and the rest of the run does not take place. The
    loop ends by an exception exactly when the run does. *)
Theorem quiet_research_follows_the_run (w : W) :
  exists e rest,
    run_streaming nesting_limit unicode_isalnum json_dumps json_dumps_indent2
      now_isoformat now_kolkata (Controller.agent self)
      (Controller.initial_prompt self) max_steps None None None w = Some e
    /\ yielded e = Controller.received (snd (run_loop w)) ++ rest
    /\ Controller.forwarded (snd (run_loop w)) = []
    /\ match fst (run_loop w) with
       | Controller.Exhausted =>
           rest = []
           /\ Controller.loop_world (snd (run_loop w)) = world_after e
           /\ exists r, e = Returned r
       | Controller.Completed =>
           exists before last,
             Controller.received (snd (run_loop w)) = before ++ [last]
             /\ Controller.is_completion last = true
       | Controller.Cancelled => False
       | Controller.Failed x =>
           rest = []
           /\ Controller.loop_world (snd (run_loop w)) = world_after e
           /\ exists iteration st, e = Raised x iteration st
       end.
Proof.
  assert (Hfuel : (Z.to_nat (max_steps - 0) < S (Z.to_nat max_steps))%nat)
    by lia.
  destruct (@loop_total W nesting_limit unicode_isalnum json_dumps
              json_dumps_indent2 now_isoformat (Controller.agent self)
              (Controller.initial_prompt self) max_steps None None None _
              (time_context_at now_kolkata w) 0%Z []
              (initial_state now_kolkata w) Hfuel) as [e Hr].
  pose proof (@drain_run_streaming_generator W nesting_limit unicode_isalnum
                json_dumps json_dumps_indent2 now_isoformat now_kolkata
                (Controller.agent self) (Controller.initial_prompt self)
                max_steps None None None w e Hr) as Hdrain.
  unfold Controller.run_loop. cbv zeta. rewrite no_cancellation.
  match goal with
  | |- context [Controller.for_each_step self ?g ?st] =>
      set (generator := g) in *; set (st0 := st)
  end.
  destruct (for_each_follows_drain generator st0
              {| world := w; emitted := [] |} eq_refl)
    as (new & rest & He & Hrec & Hf & Hend).
  rewrite Hdrain in He, Hend.
  cbn [fst snd emitted world app] in He, Hend.
  change (Controller.received st0) with (@nil ReActStep) in Hrec.
  change (Controller.forwarded st0) with (@nil ReActStep) in Hf.
  cbn [app] in Hrec.
  exists e, rest. split; [exact Hr|]. split; [now rewrite Hrec|].
  split; [exact Hf|]. rewrite Hrec.
  destruct (fst (Controller.for_each_step self generator st0)) as [| | |x].
  - destruct Hend as (H1 & H2 & H3). split; [exact H1|].
    split; [exact H2|].
    destruct e as [r|y it st]; [now exists r|]. now destruct (H3 y).
  - exact Hend.
  - exact Hend.
  - destruct Hend as (H1 & H2 & H3). split; [exact H1|].
    split; [exact H2|].
    destruct e as [r|y it st]; [discriminate|].
    injection H3 as ->. now exists it, st.
Qed.
End QuietResearch.

(** ** Observations and their actions *)

Lemma answered_app (pending : option str) (a b : list ReActStep) :
  answered pending a = true -> answered None b = true ->
  answered pending (a ++ b) = true.
Proof.
  revert pending; induction a as [|s a IH]; intros pending Ha Hb.
  - destruct pending; [discriminate | assumption].
  - simpl in *. destruct pending.
    + apply andb_true_iff in Ha as [Hs Ha]. rewrite Hs. now apply IH.
    + destruct (is_action_step s).
      * apply andb_true_iff in Ha as [Hs Ha]. rewrite Hs. now apply IH.
      * apply andb_true_iff in Ha as [Hs Ha]. rewrite Hs. now apply IH.
Qed.

Section AnsweredFacts.
Variable W : Type.
Variable nesting_limit : nat.
Variable unicode_isalnum : char -> bool.
Variable json_dumps : value -> str.
Variable json_dumps_indent2 : value -> str.
Variable now_isoformat : W -> str * W.
Variable now_kolkata : W -> str * W.
Variable self : ReActAgent W.
Variable user_input : str.
Variable max_iterations : Z.
Variable callback : option (ReActStep -> W -> W).
Variable conversation_history : option (list Message).
Variable cancellation_callback : option (W -> bool * W).

Lemma body_case_answered time_context agent_scratchpad (st : run_state W)
    fl new :
  body_case nesting_limit unicode_isalnum json_dumps json_dumps_indent2 self
    user_input conversation_history cancellation_callback time_context
    agent_scratchpad st fl new ->
  answered None new = true.
Proof.
  intros Hcase. inversion Hcase; subst; try reflexivity.
  destruct thought; cbn [app answered];
    change (is_action_step (action_step action action_input ts2)) with true;
    change (is_observation_step (observation_step action observation ts3))
      with true;
    cbn [tool_name tool_input tool_output content action_step
         observation_step plain_step opt_str_eqb answered];
    rewrite ?str_eqb_refl; reflexivity.
Qed.

(** X20. In every run, however it ends, each observation step belongs to
    the action step right before it: an action step names its tool and
    carries an input, the step after it is an observation that names the
    same tool and carries its own content as the output of the tool; no
    observation comes elsewhere, and thoughts, final answers and errors
    name no tool. *)
Theorem observations_report_their_actions (w : W) :
  exists e,
    run_streaming nesting_limit unicode_isalnum json_dumps json_dumps_indent2
      now_isoformat now_kolkata self user_input max_iterations callback
      conversation_history cancellation_callback w = Some e
    /\ answered None (yielded e) = true.
Proof.
  assert (Hfuel : (Z.to_nat (max_iterations - 0)
                   < S (Z.to_nat max_iterations))%nat) by lia.
  destruct (@loop_total W nesting_limit unicode_isalnum json_dumps
              json_dumps_indent2 now_isoformat self user_input
              max_iterations callback conversation_history
              cancellation_callback _
              (time_context_at now_kolkata w) 0%Z []
              (initial_state now_kolkata w) Hfuel) as [e He].
  exists e. split; [exact He|].
  assert (H := fun H1 H2 H3 =>
                 @loop_ends W nesting_limit unicode_isalnum json_dumps
                   json_dumps_indent2 now_isoformat self user_input
                   max_iterations callback conversation_history
                   cancellation_callback
                   (fun es => answered None es = true)
                   (fun es _ => answered None es = true) H1 H2 H3
                   _ _ _ _ (initial_state now_kolkata w) e eq_refl He).
  destruct e as [r|x it st]; apply H.
  all: try (intros tc sp st0 a new HI Hcase;
            apply answered_app;
            [assumption | now apply body_case_answered in Hcase]).
  all: intros es ts HI; now apply answered_app.
Qed.
End AnsweredFacts.

(** ** How often the model and the tools are consulted

    A quantity of the world that only the model raises, or only the
    tools, counts the consultations. *)

Lemma tool_map_In (W : Type) (self : ReActAgent W) (tool_name : str)
    (tool : Tool W) :
  dict_get tool_name (tool_map self) = Some tool -> In tool (tools self).
Proof.
  unfold tool_map. rewrite dict_of_pairs_lookup, <- map_rev, find_map.
  destruct (find _ (rev (tools self))) as [t|] eqn:E; [|discriminate].
  simpl. intros [= <-]. apply find_some in E as [Hin _].
  now apply in_rev in Hin.
Qed.

Section CostFacts.
Variable W : Type.
Variable measure : W -> nat.

Lemma bind_apply (A B : Type) (m : M W A) (f : A -> M W B)
    (st : run_state W) :
  bind m f st = f (fst (m st)) (snd (m st)).
Proof. reflexivity. Qed.

Lemma costs_ret (A : Type) (a : A) : costs measure 0 (ret (W := W) a).
Proof. intros st. simpl. lia. Qed.

Lemma costs_bind (A B : Type) (m : M W A) (f : A -> M W B) (h1 h2 : nat) :
  costs measure h1 m -> (forall a, costs measure h2 (f a)) ->
  costs measure (h1 + h2) (bind m f).
Proof.
  intros Hm Hf st. unfold bind.
  destruct (Hm st) as [H1 H2].
  destruct (Hf (fst (m st)) (snd (m st))) as [H3 H4]. lia.
Qed.

Lemma costs_bind_free (A B : Type) (m : M W A) (f : A -> M W B) (h : nat) :
  costs measure h m -> (forall a, costs measure 0 (f a)) ->
  costs measure h (bind m f).
Proof.
  intros Hm Hf. rewrite <- (Nat.add_0_r h). now apply costs_bind.
Qed.

Lemma costs_call (A : Type) (f : W -> A * W) (h : nat) :
  (forall w, (measure w <= measure (snd (f w)))%nat
             /\ (measure (snd (f w)) <= measure w + h)%nat) ->
  costs measure h (call f).
Proof. intros H st. apply H. Qed.

Lemma costs_yield callback (step : ReActStep) :
  (forall cb, callback = Some cb ->
              forall s w, measure (cb s w) = measure w) ->
  costs measure 0 (yield callback step).
Proof.
  intros H st. unfold yield. simpl.
  destruct callback as [cb|]; [rewrite (H cb eq_refl)|]; lia.
Qed.
End CostFacts.

Section Metering.
Variable W : Type.
Variable nesting_limit : nat.
Variable unicode_isalnum : char -> bool.
Variable json_dumps : value -> str.
Variable json_dumps_indent2 : value -> str.
Variable now_isoformat : W -> str * W.
Variable now_kolkata : W -> str * W.
Variable self : ReActAgent W.
Variable user_input : str.
Variable max_iterations : Z.
Variable callback : option (ReActStep -> W -> W).
Variable conversation_history : option (list Message).
Variable cancellation_callback : option (W -> bool * W).

Variable measure : W -> nat.
Variable model_cost tool_cost : nat.

Hypothesis clock_frame : forall w, measure (snd (now_isoformat w)) = measure w.
Hypothesis zone_frame : forall w, measure (snd (now_kolkata w)) = measure w.
Hypothesis callback_frame :
  forall cb, callback = Some cb -> forall s w, measure (cb s w) = measure w.
Hypothesis cancellation_frame :
  forall is_cancelled,
    cancellation_callback = Some is_cancelled ->
    forall w, measure (snd (is_cancelled w)) = measure w.
Hypothesis model_counts :
  forall prompt w,
    measure (snd (llm self prompt w)) = (measure w + model_cost)%nat.
Hypothesis tools_count :
  forall tool,
    In tool (tools self) ->
    forall tool_input w,
      measure (snd (invoke tool tool_input w)) = (measure w + tool_cost)%nat.

Local Abbreviation body :=
  (iteration_body nesting_limit unicode_isalnum json_dumps json_dumps_indent2
     now_isoformat self user_input callback conversation_history
     cancellation_callback).
Local Abbreviation case_of :=
  (body_case nesting_limit unicode_isalnum json_dumps json_dumps_indent2 self
     user_input conversation_history cancellation_callback).
Local Abbreviation loop :=
  (while_loop nesting_limit unicode_isalnum json_dumps json_dumps_indent2
     now_isoformat self user_input max_iterations callback
     conversation_history cancellation_callback).
Local Abbreviation check := (cancellation_requested cancellation_callback).

Local Arguments _parse_react_output : simpl never.
Local Arguments full_prompt : simpl never.
Local Arguments llm_error_content : simpl never.
Local Arguments scratchpad_after_action : simpl never.
Local Arguments max_iterations_text : simpl never.
Local Arguments _execute_tool : simpl never.

Lemma execute_cost (tool_name : str) (tool_input : value) :
  costs measure tool_cost
    (call (_execute_tool nesting_limit json_dumps_indent2 self tool_name
             tool_input)).
Proof.
  apply costs_call. intros w. unfold _execute_tool.
  destruct (dict_get tool_name (tool_map self)) as [tool|] eqn:E;
    [|simpl; lia].
  apply tool_map_In in E.
  pose proof (tools_count tool E tool_input w) as H.
  destruct (invoke tool tool_input w) as [[e|items|items|s] w']; simpl in *;
    try lia.
  destruct (json_loads nesting_limit s); simpl; lia.
Qed.

Lemma forward_cost (step : ReActStep) (w : W) :
  measure match callback with
          | Some cb => cb step w
          | None => w
          end = measure w.
Proof.
  destruct callback as [cb|] eqn:E; [|reflexivity].
  now apply callback_frame.
Qed.

Lemma clock_cost : costs measure 0 (call now_isoformat).
Proof. apply costs_call. intros w. rewrite clock_frame. lia. Qed.

Lemma check_cost (st : run_state W) :
  measure (world (snd (check st))) = measure (world st).
Proof.
  unfold cancellation_requested.
  destruct cancellation_callback as [c|] eqn:E; [|reflexivity].
  simpl. now apply cancellation_frame.
Qed.

Ltac free :=
  repeat first
    [ apply costs_ret
    | apply clock_cost
    | apply costs_yield; exact callback_frame
    | apply (@costs_bind W measure _ _ _ _ 0 0); [|intros] ].

(** What a pass through the loop body costs: nothing when it is
    cancelled, and then it returns; else one consultation of the model
    and, if the reply is an action, at most one of a tool. *)
Lemma body_world_cost time_context agent_scratchpad (st : run_state W) :
  let st' := snd (body time_context agent_scratchpad st) in
  if fst (check st) then
    (exists a, fst (body time_context agent_scratchpad st) = Return a)
    /\ measure (world st') = measure (world st)
  else
    (measure (world st) + model_cost <= measure (world st'))%nat
    /\ (measure (world st')
        <= measure (world st) + model_cost
           + match fst (llm self
                          (full_prompt self user_input conversation_history
                             time_context agent_scratchpad)
                          (world (snd (check st)))) with
             | LLMContent content =>
                 match
                   _parse_react_output nesting_limit unicode_isalnum
                     (strip content)
                 with
                 | P_action _ _ _ => tool_cost
                 | _ => 0
                 end
             | LLMRaised _ => 0
             end)%nat.
Proof.
  unfold iteration_body. rewrite bind_apply. cbv beta.
  pose proof (check_cost st) as Hc.
  destruct (fst (check st)).
  - split; [now eexists|].
    match goal with
    | |- measure (world (snd (?K ?s))) = _ =>
        assert (HK : costs measure 0 K) by free;
          destruct (HK s)
    end. lia.
  - rewrite bind_apply. cbv beta. cbn [call fst snd world].
    pose proof (model_counts
                  (full_prompt self user_input conversation_history
                     time_context agent_scratchpad)
                  (world (snd (check st)))) as Hm.
    destruct (llm self _ (world (snd (check st)))) as [[content|e] w];
      cbn [fst snd] in *.
    + destruct (_parse_react_output nesting_limit unicode_isalnum
                  (strip content))
        as [answer|thought action action_input|thought|raw|x];
        [| | | |cbn; lia].
      * match goal with
        | |- context [measure (world (snd (?K ?s)))] =>
            assert (HK : costs measure 0 K) by free;
              destruct (HK s)
        end. cbn [world] in *. lia.
      * match goal with
        | |- context [measure (world (snd (?K ?s)))] =>
            assert (HK : costs measure tool_cost K);
              [|destruct (HK s)]
        end.
        { apply (@costs_bind W measure _ _ _ _ 0 tool_cost);
            [destruct thought; free|intros].
          apply (@costs_bind W measure _ _ _ _ 0 tool_cost); [free|intros].
          apply (@costs_bind W measure _ _ _ _ 0 tool_cost); [free|intros].
          apply costs_bind_free; [apply execute_cost|intros]. free. }
        cbn [world] in *. lia.
      * match goal with
        | |- context [measure (world (snd (?K ?s)))] =>
            assert (HK : costs measure 0 K) by free;
              destruct (HK s)
        end. cbn [world] in *. lia.
      * cbn. lia.
    + match goal with
      | |- context [measure (world (snd (?K ?s)))] =>
          assert (HK : costs measure 0 K) by free;
            destruct (HK s)
      end. cbn [world] in *. lia.
Qed.

Lemma body_cost time_context agent_scratchpad (st : run_state W) :
  let st' := snd (body time_context agent_scratchpad st) in
  exists new,
    emitted st' = emitted st ++ new
    /\ if fst (check st) then
         (exists a, fst (body time_context agent_scratchpad st) = Return a)
         /\ measure (world st') = measure (world st)
       else
         (measure (world st) + model_cost <= measure (world st'))%nat
         /\ (measure (world st')
             <= measure (world st) + model_cost
                + tool_cost * count_kind (py "action") new)%nat.
Proof.
  intros st'.
  destruct (iteration_body_case nesting_limit unicode_isalnum json_dumps
              json_dumps_indent2 now_isoformat self user_input callback
              conversation_history cancellation_callback time_context
              agent_scratchpad st) as (new & Hcase & Hnew).
  exists new. split; [exact Hnew|].
  pose proof (body_world_cost time_context agent_scratchpad st) as Hcost.
  cbv zeta in Hcost. fold st' in Hcost.
  destruct (fst (check st)) eqn:Hcheck; [exact Hcost|].
  destruct Hcost as [Hlo Hhi]. split; [exact Hlo|].
  inversion Hcase; subst; try congruence;
    match goal with
    | H : llm _ _ _ = _ |- _ => rewrite H in Hhi; cbn [fst] in Hhi
    end;
    try match goal with
        | H : _parse_react_output _ _ _ = _ |- _ => rewrite H in Hhi
        end;
    try lia.
  destruct thought;
    [change (count_kind (py "action") ([] ++ [_; _])) with 1%nat
    |change (count_kind (py "action") ([_] ++ [_; _])) with 1%nat]; lia.
Qed.

Lemma loop_cost (fuel : nat) :
  forall time_context iteration agent_scratchpad (st : run_state W) e,
    loop fuel time_context iteration agent_scratchpad st = Some e ->
    exists new,
      yielded e = emitted st ++ new
      /\ (measure (world st)
          + model_cost * (Z.to_nat (counter e - iteration) - 1)
          <= measure (world_after e))%nat
      /\ (measure (world_after e)
          <= measure (world st)
             + model_cost * Z.to_nat (counter e - iteration)
             + tool_cost * count_kind (py "action") new)%nat.
Proof.
  induction fuel as [|fuel IH]; intros tc it sp st e Hrun; [discriminate|].
  cbn [while_loop] in Hrun.
  destruct (it <? max_iterations)%Z eqn:Hlt.
  - destruct (body_cost tc sp st) as (new & Hnew & Hcost).
    destruct (body tc sp st) as [[a|sp'|x] st'] eqn:Hbody;
      cbn [fst snd] in *.
    + injection Hrun as <-. exists new.
      cbn [yielded counter world_after steps finish iterations
           final_world].
      split; [exact Hnew|].
      replace (Z.to_nat (it + 1 - it)) with 1%nat by lia.
      destruct (fst (check st)); [destruct Hcost as [_ ->]|]; lia.
    + destruct (IH _ _ _ _ _ Hrun) as (new' & Hs & Hlo & Hhi).
      assert (Hit : (it + 1 <= counter e)%Z).
      { destruct (loop_bounds nesting_limit unicode_isalnum json_dumps
                    json_dumps_indent2 now_isoformat self user_input
                    max_iterations callback conversation_history
                    cancellation_callback fuel tc (it + 1)%Z sp' st' Hrun)
          as (_ & _ & H & _). exact H. }
      exists (new ++ new'). rewrite Hs, Hnew, app_assoc, count_kind_app.
      split; [reflexivity|].
      destruct (fst (check st));
        [destruct Hcost as [[a Ha] _]; discriminate|].
      replace (Z.to_nat (counter e - it))
        with (S (Z.to_nat (counter e - (it + 1)))) by lia.
      nia.
    + injection Hrun as <-. exists new.
      cbn [yielded counter world_after].
      split; [exact Hnew|].
      replace (Z.to_nat (it + 1 - it)) with 1%nat by lia.
      destruct (fst (check st));
        [destruct Hcost as [[a Ha] _]; discriminate|]. lia.
  - unfold max_iterations_reached, bind in Hrun.
    injection Hrun as <-. eexists.
    cbn [yielded counter world_after finish steps iterations final_world
         call yield ret fst snd world emitted].
    split; [reflexivity|].
    replace (Z.to_nat (it - it)) with 0%nat by lia.
    rewrite forward_cost, clock_frame.
    change (count_kind (py "action") [_]) with 0%nat. lia.
Qed.

(** X21. Consultations are paid once. Let a quantity of the world be
    raised by [model_cost] whenever the model is consulted, by [tool_cost]
    whenever a tool of the agent is invoked, and be left as it is by the
    clock and the callbacks. Over a run, however it ends, it rises by at
    least [model_cost] for each iteration but the last and by at most
    [model_cost] for each iteration, plus [tool_cost] for each action
    step: the model is consulted once in each iteration, except one that
    ends the run before the model is reached, and a tool is invoked at
    most once for each action step. *)
Theorem consultations_are_paid_once (w : W) :
  exists e,
    run_streaming nesting_limit unicode_isalnum json_dumps json_dumps_indent2
      now_isoformat now_kolkata self user_input max_iterations callback
      conversation_history cancellation_callback w = Some e
    /\ (measure w + model_cost * (Z.to_nat (counter e) - 1)
        <= measure (world_after e))%nat
    /\ (measure (world_after e)
        <= measure w + model_cost * Z.to_nat (counter e)
           + tool_cost * count_kind (py "action") (yielded e))%nat
    /\ (Z.to_nat (counter e) <= Z.to_nat max_iterations)%nat
    /\ (count_kind (py "action") (yielded e) <= Z.to_nat (counter e))%nat.
Proof.
  assert (Hfuel : (Z.to_nat (max_iterations - 0)
                   < S (Z.to_nat max_iterations))%nat) by lia.
  destruct (@loop_total W nesting_limit unicode_isalnum json_dumps
              json_dumps_indent2 now_isoformat self user_input
              max_iterations callback conversation_history
              cancellation_callback _
              (time_context_at now_kolkata w) 0%Z []
              (initial_state now_kolkata w) Hfuel) as [e He].
  exists e. split; [exact He|].
  destruct (loop_cost _ _ _ _ _ He) as (new & Hs & Hlo & Hhi).
  destruct (loop_bounds nesting_limit unicode_isalnum json_dumps
              json_dumps_indent2 now_isoformat self user_input
              max_iterations callback conversation_history
              cancellation_callback _ _ _ _ _ He)
    as (new' & Hs' & H1 & H2 & _ & H5 & _).
  cbn [initial_state world emitted app] in *. subst new.
  rewrite Hs' in *.
  rewrite Z.sub_0_r in *. rewrite zone_frame in Hlo, Hhi.
  repeat split; try assumption. lia.
Qed.
End Metering.

(** ** Tools and the observations that the controller receives *)

Section Settling.
Variable W : Type.
Variable measure : W -> nat.
Variable tool_cost : nat.

Lemma settles_gbind (A B : Type) (m : Gen W A) (f : A -> Gen W B) :
  forall debt,
    settles measure tool_cost debt m ->
    (forall a, settles measure tool_cost 0 (f a)) ->
    settles measure tool_cost debt (gbind m f).
Proof.
  induction m as [a|X g k IH|step k IH]; intros debt Hm Hf; simpl in *.
  - subst debt. apply Hf.
  - destruct Hm as (c & Hc & Hk). exists c. split; [exact Hc|].
    intros x. now apply IH.
  - destruct Hm as [Hd Hk]. split; [exact Hd|]. now apply IH.
Qed.

Variable nesting_limit : nat.
Variable unicode_isalnum : char -> bool.
Variable json_dumps : value -> str.
Variable json_dumps_indent2 : value -> str.
Variable now_isoformat : W -> str * W.
Variable now_kolkata : W -> str * W.
Variable self : ReActAgent W.
Variable user_input : str.
Variable max_iterations : Z.
Variable conversation_history : option (list Message).
Variable cancellation_callback : option (W -> bool * W).

Hypothesis clock_frame : forall w, measure (snd (now_isoformat w)) = measure w.
Hypothesis zone_frame : forall w, measure (snd (now_kolkata w)) = measure w.
Hypothesis cancellation_frame :
  forall is_cancelled,
    cancellation_callback = Some is_cancelled ->
    forall w, measure (snd (is_cancelled w)) = measure w.
Hypothesis model_frame :
  forall prompt w, measure (snd (llm self prompt w)) = measure w.
Hypothesis tools_count :
  forall tool,
    In tool (tools self) ->
    forall tool_input w,
      measure (snd (invoke tool tool_input w)) = (measure w + tool_cost)%nat.

Local Arguments _parse_react_output : simpl never.
Local Arguments full_prompt : simpl never.
Local Arguments llm_error_content : simpl never.
Local Arguments scratchpad_after_action : simpl never.
Local Arguments max_iterations_text : simpl never.
Local Arguments _execute_tool : simpl never.

Lemma execute_raises (tool_name : str) (tool_input : value) (w : W) :
  (measure (snd (_execute_tool nesting_limit json_dumps_indent2 self tool_name
                   tool_input w))
   <= measure w + tool_cost)%nat.
Proof.
  unfold _execute_tool.
  destruct (dict_get tool_name (tool_map self)) as [tool|] eqn:E;
    [|simpl; lia].
  apply tool_map_In in E.
  pose proof (tools_count tool E tool_input w) as H.
  destruct (invoke tool tool_input w) as [[e|items|items|s] w']; simpl in *;
    try lia.
  destruct (json_loads nesting_limit s); simpl; lia.
Qed.

Ltac frame_call :=
  exists 0%nat; split;
  [intros ?w; rewrite ?clock_frame, ?zone_frame, ?model_frame; cbn [snd]; lia
  |intros ?x; cbn [Nat.add]].

(** The generator of a run without [callback] settles its debts. *)
Lemma generator_body_settles time_context agent_scratchpad :
  settles measure tool_cost 0
    (generator_body nesting_limit unicode_isalnum json_dumps
       json_dumps_indent2 now_isoformat self user_input None
       conversation_history cancellation_callback time_context
       agent_scratchpad).
Proof.
  unfold generator_body, gcall, gyield.
  assert (Hcheck : forall k : bool -> Gen W flow,
             (forall c, settles measure tool_cost 0 (k c)) ->
             settles measure tool_cost 0
               (gbind match cancellation_callback with
                      | Some is_cancelled =>
                          GCall is_cancelled (fun x => GRet x)
                      | None => GRet false
                      end k)).
  { intros k Hk. pose proof cancellation_frame as Hframe.
    destruct cancellation_callback as [c|]; cbn.
    - exists 0%nat. split; [intros w; rewrite (Hframe c eq_refl); lia|].
      intros x. apply Hk.
    - apply Hk. }
  apply Hcheck. intros [|]; cbn.
  - frame_call. now repeat split.
  - frame_call. destruct x as [content|e]; cbn.
    + destruct (_parse_react_output nesting_limit unicode_isalnum
                  (strip content))
        as [answer|thought action action_input|thought|raw|e]; cbn;
        [| | | |reflexivity].
      * frame_call. now repeat split.
      * assert (Hact : settles measure tool_cost 0
                         (GCall now_isoformat
                            (fun ts =>
                               GYield (action_step action action_input ts)
                                 (GCall (_execute_tool nesting_limit
                                           json_dumps_indent2 self action
                                           action_input)
                                    (fun observation =>
                                       GCall now_isoformat
                                         (fun ts0 =>
                                            GYield
                                              (observation_step action
                                                 observation ts0)
                                              (GRet
                                                 (Continue
                                                    (scratchpad_after_action
                                                       json_dumps
                                                       agent_scratchpad
                                                       thought action
                                                       action_input
                                                       observation))))))))).
        { frame_call. split; [reflexivity|].
          exists tool_cost. split; [intros w; apply execute_raises|].
          intros observation. cbn [Nat.add].
          exists 0%nat. split; [intros w; rewrite clock_frame; lia|].
          intros ts0. rewrite Nat.add_0_r.
          split; [apply Nat.le_refl | reflexivity]. }
        destruct thought as [|c thought]; cbn; [exact Hact|].
        frame_call. split; [reflexivity | exact Hact].
      * frame_call. now repeat split.
      * reflexivity.
    + frame_call. now repeat split.
Qed.

Lemma generator_loop_settles (fuel : nat) :
  forall time_context iteration agent_scratchpad,
    settles measure tool_cost 0
      (generator_loop nesting_limit unicode_isalnum json_dumps
         json_dumps_indent2 now_isoformat self user_input max_iterations
         None conversation_history cancellation_callback fuel time_context
         iteration agent_scratchpad).
Proof.
  induction fuel as [|fuel IH]; intros tc it sp; [reflexivity|].
  cbn [generator_loop].
  destruct (it <? max_iterations)%Z.
  - apply settles_gbind; [apply generator_body_settles|].
    intros [a|sp'|e]; [reflexivity | apply IH | reflexivity].
  - unfold gcall, gyield. cbn. frame_call. now repeat split.
Qed.

Lemma run_streaming_generator_settles :
  settles measure tool_cost 0
    (run_streaming_generator nesting_limit unicode_isalnum json_dumps
       json_dumps_indent2 now_isoformat now_kolkata self user_input
       max_iterations None conversation_history cancellation_callback).
Proof.
  unfold run_streaming_generator, gcall. cbn [gbind].
  frame_call. apply generator_loop_settles.
Qed.
End Settling.

Section ResearchCost.
Variable W : Type.
Variable nesting_limit : nat.
Variable unicode_isalnum : char -> bool.
Variable json_dumps : value -> str.
Variable json_dumps_indent2 : value -> str.
Variable now_isoformat : W -> str * W.
Variable now_kolkata : W -> str * W.
Variable self : Controller.LeadResearchController W.
Variable measure : W -> nat.
Variable tool_cost : nat.

Hypothesis clock_frame : forall w, measure (snd (now_isoformat w)) = measure w.
Hypothesis zone_frame : forall w, measure (snd (now_kolkata w)) = measure w.
Hypothesis cancellation_frame :
  forall is_cancelled,
    Controller.cancellation_callback self = Some is_cancelled ->
    forall w, measure (snd (is_cancelled w)) = measure w.
Hypothesis step_callback_frame :
  forall cb,
    Controller.step_callback self = Some cb ->
    forall s w, measure (cb s w) = measure w.
Hypothesis model_frame :
  forall prompt w,
    measure (snd (llm (Controller.agent self) prompt w)) = measure w.
Hypothesis tools_count :
  forall tool,
    In tool (tools (Controller.agent self)) ->
    forall tool_input w,
      measure (snd (invoke tool tool_input w)) = (measure w + tool_cost)%nat.

Local Abbreviation observations l := (count_kind (py "observation") l).

Lemma forward_frame (step : ReActStep) (st : Controller.loop_state W) :
  measure (Controller.loop_world (Controller.forward self step st))
  = measure (Controller.loop_world st).
Proof.
  unfold Controller.forward. pose proof step_callback_frame as Hframe.
  destruct (Controller.step_callback self) as [cb|]; [|reflexivity].
  simpl. now apply Hframe.
Qed.

(** The loop keeps the account: the quantity has risen by the price of
    one tool for each observation received, and by the debt of the
    generator. *)
Lemma for_each_settles (base : nat)
    (generator : Gen W (option (outcome str))) :
  forall (debt : nat) (st : Controller.loop_state W),
    settles measure tool_cost debt generator ->
    (measure (Controller.loop_world st)
     <= base + tool_cost * observations (Controller.received st) + debt)%nat ->
    let st' := snd (Controller.for_each_step self generator st) in
    (measure (Controller.loop_world st')
     <= base + tool_cost * observations (Controller.received st'))%nat.
Proof.
  induction generator as [a|X f k IH|step k IH]; intros debt st Hg Hst.
  - destruct a as [[a|e]|]; simpl in *; subst debt; lia.
  - cbn [Controller.for_each_step]. simpl in Hg.
    destruct Hg as (c & Hc & Hk).
    apply (IH _ (debt + c)%nat); [apply Hk|].
    cbn [Controller.loop_world Controller.received].
    specialize (Hc (Controller.loop_world st)). lia.
  - cbn [Controller.for_each_step]. simpl in Hg. destruct Hg as [Hd Hk].
    pose proof cancellation_frame as Hframe.
    assert (Hcheck :
              measure (snd match Controller.cancellation_callback self with
                           | Some is_cancelled =>
                               is_cancelled (Controller.loop_world st)
                           | None => (false, Controller.loop_world st)
                           end)
              = measure (Controller.loop_world st)).
    { destruct (Controller.cancellation_callback self) as [c|];
        [now apply Hframe | reflexivity]. }
    destruct (match Controller.cancellation_callback self with
              | Some is_cancelled => is_cancelled (Controller.loop_world st)
              | None => (false, Controller.loop_world st)
              end) as [cancelled w]. cbn [snd] in Hcheck.
    assert (Hpaid : (measure w
                     <= base
                        + tool_cost
                          * observations (Controller.received st ++ [step]))%nat).
    { rewrite count_kind_app. unfold count_kind at 2. cbn [filter].
      fold (is_observation_step step).
      destruct (is_observation_step step); cbn [length]; subst; lia. }
    assert (Hnext : forall st2 : Controller.loop_state W,
               Controller.loop_world st2 = w ->
               Controller.received st2 = Controller.received st ++ [step] ->
               let st' :=
                 snd (Controller.for_each_step self k
                        (Controller.forward self step st2)) in
               (measure (Controller.loop_world st')
                <= base + tool_cost * observations (Controller.received st'))%nat).
    { intros st2 Hw Hr. apply (IH 0%nat); [exact Hk|].
      rewrite forward_frame, (proj1 (forward_spec self step st2)), Hw, Hr.
      lia. }
    assert (Hstop : forall st2 : Controller.loop_state W,
               Controller.loop_world st2 = w ->
               Controller.received st2 = Controller.received st ++ [step] ->
               (measure (Controller.loop_world
                           (Controller.forward self step st2))
                <= base
                   + tool_cost
                     * observations
                         (Controller.received
                            (Controller.forward self step st2)))%nat).
    { intros st2 Hw Hr.
      now rewrite forward_frame, (proj1 (forward_spec self step st2)), Hw, Hr. }
    destruct cancelled; [exact Hpaid|].
    destruct (str_eqb (step_type step) (py "observation")).
    + destruct (contains Controller.saved_marker (content step)
                || contains Controller.saved_message (content step));
        (destruct (contains Controller.completed_marker (content step));
         [now apply Hstop | now apply Hnext]).
    + now apply Hnext.
Qed.

(** X22. In the loop of the controller, tools have run only for the
    observations that the controller has received. Let a quantity of the
    world be raised by [tool_cost] whenever a tool of the agent is invoked
    and be left as it is by the model, the clock and the callbacks. When
    the loop ends, however it ends, the quantity has risen by at most
    [tool_cost] for each observation step received: the action of a step
    that was dropped on cancellation has not been carried out. *)
Theorem tools_run_only_for_received_observations (w : W) :
  let st :=
    snd (Controller.run_loop nesting_limit unicode_isalnum json_dumps
           json_dumps_indent2 now_isoformat now_kolkata self w) in
  (measure (Controller.loop_world st)
   <= measure w + tool_cost * observations (Controller.received st))%nat.
Proof.
  unfold Controller.run_loop. cbv zeta.
  apply (@for_each_settles (measure w) _ 0%nat).
  - apply run_streaming_generator_settles; auto.
  - simpl. lia.
Qed.
End ResearchCost.

(** ** The further properties on sample inputs *)

Lemma action_name_is_usable_witness :
  _parse_react_output sample_nesting_limit isalnum_below_256 sample_no_input
  = P_action (py "look it up") (py "search") (VDict [])
  /\ py "search" <> [] /\ ~ In 40 (py "search")
  /\ ~ In newline (py "search").
Proof.
  split; [reflexivity|].
  exact (@action_name_is_usable sample_nesting_limit isalnum_below_256
           sample_no_input
           (py "look it up") (py "search") (VDict []) eq_refl).
Defined.

Lemma action_input_is_a_mapping_witness :
  _parse_react_output sample_nesting_limit isalnum_below_256
    sample_double_quoted
  = P_action (py "t") (py "lookup") ok_true_v_null
  /\ is_dict ok_true_v_null = true /\ well_formed ok_true_v_null = true.
Proof.
  split; [reflexivity|].
  exact (@action_input_is_a_mapping sample_nesting_limit isalnum_below_256
           sample_double_quoted
           (py "t") (py "lookup") ok_true_v_null eq_refl).
Defined.

Lemma clean_action_name_recovers_name_witness :
  clean_action_name (py "`search`") = py "search"
  /\ clean_action_name (py "`search(query)`") = py "search".
Proof.
  assert (Hnot : ~ In 40 (py "search")).
  { cbv. intros H. repeat (destruct H as [H|H]; [discriminate H|]).
    exact H. }
  destruct (@clean_action_name_recovers_name (py "`") (py "search")
              eq_refl eq_refl eq_refl Hnot) as [Hquotes Hcall].
  split.
  - exact (Hquotes (py "`") eq_refl).
  - exact (Hcall (py "query)`") eq_refl).
Defined.

Lemma tool_map_holds_the_last_of_a_name_witness :
  dict_get (py "fetch_email") (tool_map mail_agent) = Some fetch_email_tool
  /\ (In (py "search") (keys (tool_map mail_agent))
      <-> exists tool, In tool (tools mail_agent) /\ name tool = py "search").
Proof.
  destruct (tool_map_holds_the_last_of_a_name mail_agent)
    as (Hget & _ & Hkeys).
  split; [exact (Hget (py "fetch_email")) | exact (Hkeys (py "search"))].
Defined.


Lemma nonpositive_cap_yields_only_the_notice_witness :
  (0 <= 0)%Z
  /\ sample_run acting_agent 0 None
     = Some (Returned
               {| steps := [plain_step (py "final_answer")
                              (max_iterations_text 0)
                              (py "2026-01-05T09:00:00")];
                  answer := max_iterations_text 0;
                  iterations := 0;
                  final_world := 0%nat |}).
Proof.
  split; [lia|].
  refine (@nonpositive_cap_yields_only_the_notice nat sample_nesting_limit
           isalnum_below_256 sample_dumps sample_dumps sample_now sample_now
           acting_agent (py "What is new?") 0%Z None None None 0%nat _).
  lia.
Defined.

Lemma first_return_ends_the_run_witness :
  exists iteration agent_scratchpad st,
    first_passes sample_nesting_limit isalnum_below_256 sample_dumps
      sample_dumps sample_now
      sample_now patient_agent (py "What is new?") 10 None None
      (Some count_checks) 2 0%nat
    = Some (iteration, agent_scratchpad, st)
    /\ (iteration < 10)%Z
    /\ exists last r,
         sample_run patient_agent 10 (Some count_checks) = Some (Returned r)
         /\ steps r = emitted st ++ [last]
         /\ List.map step_type (emitted st) = [py "thought"; py "thought"]
         /\ content last = py "done"
         /\ answer r = py "done"
         /\ iterations r = 3%Z.
Proof.
  eexists. eexists. eexists.
  split; [vm_compute; reflexivity|]. split; [reflexivity|].
  edestruct (@first_return_ends_the_run nat sample_nesting_limit
               isalnum_below_256 sample_dumps sample_dumps sample_now sample_now
               patient_agent
               (py "What is new?") 10%Z None None (Some count_checks)
               0%nat 2%nat)
    as (last & r & Hr & Hs & _ & Hc & _ & Ha & Hi & _).
  - vm_compute. reflexivity.
  - reflexivity.
  - vm_compute. reflexivity.
  - exists last, r. split; [exact Hr|]. split; [exact Hs|].
    split; [reflexivity|]. split; [exact Hc|]. split; [exact Ha | exact Hi].
Defined.

Lemma run_returns_the_last_final_answer_witness :
  exists r before last,
    sample_run failing_agent 5 None = Some (Returned r)
    /\ steps r = before ++ [last]
    /\ run sample_nesting_limit isalnum_below_256 sample_dumps
         sample_dumps sample_now sample_now failing_agent
         (py "What is new?") 5 0%nat
       = Some (Returns (if is_error_step last
                        then py "No answer generated."
                        else answer r), final_world r).
Proof.
  destruct (@run_returns_the_last_final_answer nat sample_nesting_limit
              isalnum_below_256 sample_dumps sample_dumps sample_now
              sample_now failing_agent (py "What is new?") 5%Z 0%nat)
    as (e & He & H).
  destruct e as [r|x it st]; [|vm_compute in He; discriminate].
  destruct H as (before & last & Hs & _ & Hrun & _).
  exists r, before, last.
  split; [exact He|]. split; [exact Hs | exact Hrun].
Defined.

(** The reply with the integer of 4301 digits ends the run in its first
    iteration, before a step is yielded, and the exception leaves [run]
    and the loop of the controller. *)
Lemma oversized_integer_ends_the_run (nesting_limit : nat)
    (unicode_isalnum : char -> bool) :
  run_streaming nesting_limit unicode_isalnum sample_dumps sample_dumps
    sample_now sample_now overflowing_agent (py "What is new?") 5 None None
    None 0%nat
  = Some (Raised ValueError 1 {| world := 0%nat; emitted := [] |})
  /\ run nesting_limit unicode_isalnum sample_dumps sample_dumps sample_now
       sample_now overflowing_agent (py "What is new?") 5 0%nat
     = Some (Raises ValueError, 0%nat)
  /\ Controller.run_loop nesting_limit unicode_isalnum sample_dumps
       sample_dumps sample_now sample_now overflowing_controller 0%nat
     = (Controller.Failed ValueError,
        {| Controller.loop_world := 0%nat;
           Controller.received := [];
           Controller.forwarded := [];
           Controller.saved_count := 0 |}).
Proof.
  split; [vm_compute; reflexivity|]. split; vm_compute; reflexivity.
Qed.

Lemma prompt_shows_its_parts_witness :
  In fetch_email_tool (tools mail_agent)
  /\ contains (py "- fetch_email: ")
       (full_prompt mail_agent (py "What is new?") None
          (py "**CURRENT TIME:** now") [])
     = true.
Proof.
  assert (Hin : In fetch_email_tool (tools mail_agent)).
  { right. left. reflexivity. }
  split; [exact Hin|].
  exact (proj2 (proj2 (proj2 (proj2 (proj2
           (@prompt_shows_its_parts nat mail_agent (py "What is new?") None
              (py "**CURRENT TIME:** now") []))))) fetch_email_tool Hin).
Defined.

Lemma prompt_keeps_the_observations_witness :
  exists iteration' agent_scratchpad' st',
    passes sample_nesting_limit isalnum_below_256 sample_dumps sample_dumps
      sample_now
      thinking_agent (py "What is new?") 10 None None None 1 [] 1
      (scratchpad_after_action sample_dumps [] (py "dig") (py "search")
         (VDict []) (py "3 results"))
      {| world := 0%nat; emitted := [] |}
    = Some (iteration', agent_scratchpad', st')
    /\ contains (py "Observation: 3 results" ++ nl)
         (full_prompt thinking_agent (py "What is new?") None []
            agent_scratchpad')
       = true.
Proof.
  eexists. eexists. eexists.
  split; [vm_compute; reflexivity|].
  refine (proj2 (proj2 (proj2 (proj2
           (@prompt_keeps_the_observations nat sample_nesting_limit
              isalnum_below_256 sample_dumps sample_dumps sample_now
              thinking_agent
              (py "What is new?") 10%Z None None None [] 1%Z [] (py "dig")
              (py "search") (VDict []) (py "3 results")
              {| world := 0%nat; emitted := [] |} 1%nat _ _ _ _))))).
  vm_compute. reflexivity.
Defined.

Lemma conversation_context_uses_the_last_six_witness :
  let recent :=
    repeat {| is_human := true; message_content := Some (py "hello") |} 6 in
  let old := [{| is_human := false; message_content := Some (py "bye") |}] in
  length recent = 6%nat
  /\ conversation_context (Some (old ++ recent))
     = conversation_context (Some recent).
Proof.
  intros recent old. split; [reflexivity|].
  exact (proj2 (conversation_context_uses_the_last_six []) old recent
           eq_refl).
Defined.

Lemma standing_cancellation_forwards_nothing_witness :
  Controller.cancellation_callback (sample_controller (Some always_cancelled))
  = Some always_cancelled
  /\ (forall w, fst (always_cancelled w) = true)
  /\ sample_research (Some always_cancelled)
     = (Controller.Cancelled,
        {| Controller.loop_world := 2%nat;
           Controller.received :=
             [plain_step (py "final_answer") cancelled_text
                (py "2026-01-05T09:00:00")];
           Controller.forwarded := [];
           Controller.saved_count := 0 |}).
Proof.
  split; [reflexivity|]. split; [reflexivity|].
  exact (@standing_cancellation_forwards_nothing nat sample_nesting_limit
           isalnum_below_256 sample_dumps sample_dumps sample_now sample_now
           (sample_controller (Some always_cancelled)) 0%nat always_cancelled
           eq_refl (fun w => eq_refl)).
Defined.

Lemma quiet_research_follows_the_run_witness :
  Controller.cancellation_callback (sample_controller None) = None
  /\ Controller.step_callback (sample_controller None) = None
  /\ fst (sample_research None) = Controller.Completed
  /\ List.map step_type (Controller.received (snd (sample_research None)))
     = [py "thought"; py "action"; py "observation"]
  /\ exists e rest,
       run_streaming sample_nesting_limit isalnum_below_256 sample_dumps
         sample_dumps sample_now sample_now completing_agent
         (Controller.initial_prompt (sample_controller None)) 30 None None
         None 0%nat = Some e
       /\ yielded e
          = Controller.received (snd (sample_research None)) ++ rest.
Proof.
  split; [reflexivity|]. split; [reflexivity|].
  split; [vm_compute; reflexivity|]. split; [vm_compute; reflexivity|].
  destruct (@quiet_research_follows_the_run nat sample_nesting_limit
              isalnum_below_256 sample_dumps sample_dumps sample_now
              sample_now (sample_controller None) eq_refl eq_refl 0%nat)
    as (e & rest & Hr & Hs & _).
  exists e, rest. split; [exact Hr | exact Hs].
Defined.

Lemma consultations_are_paid_once_witness :
  exists r,
    sample_run metered_agent 3 None = Some (Returned r)
    /\ final_world r = 33%nat
    /\ (0 + 1 * (Z.to_nat (iterations r) - 1) <= final_world r)%nat
    /\ (final_world r
        <= 0 + 1 * Z.to_nat (iterations r)
           + 10 * count_kind (py "action") (steps r))%nat.
Proof.
  assert (Htools : forall tool,
             In tool (tools metered_agent) ->
             forall (tool_input : value) (w : nat),
               snd (invoke tool tool_input w) = (w + 10)%nat).
  { intros tool [<-|[]] tool_input w. reflexivity. }
  destruct (@consultations_are_paid_once nat sample_nesting_limit
              isalnum_below_256 sample_dumps sample_dumps sample_now sample_now
              metered_agent
              (py "What is new?") 3%Z None None None (fun w => w) 1%nat
              10%nat (fun w => eq_refl) (fun w => eq_refl)
              (fun cb H => ltac:(discriminate H))
              (fun c H => ltac:(discriminate H))
              (fun prompt w => eq_sym (Nat.add_1_r w)) Htools 0%nat)
    as (e & Hr & Hlo & Hhi & _).
  destruct e as [r|x it st]; [|vm_compute in Hr; discriminate].
  exists r. split; [exact Hr|].
  split; [|split; [exact Hlo | exact Hhi]].
  unfold sample_run in Hr. vm_compute in Hr. now injection Hr as <-.
Defined.

Lemma tools_run_only_for_received_observations_witness :
  fst stopped_research = Controller.Cancelled
  /\ List.map step_type (Controller.received (snd stopped_research))
     = [py "thought"; py "action"]
  /\ (snd (Controller.loop_world (snd stopped_research))
      <= 0 + 1 * count_kind (py "observation")
                   (Controller.received (snd stopped_research)))%nat.
Proof.
  assert (Htools : forall tool,
             In tool (tools (Controller.agent stopped_controller)) ->
             forall (tool_input : value) (w : nat * nat),
               snd (snd (invoke tool tool_input w)) = (snd w + 1)%nat).
  { intros tool [<-|[]] tool_input w. simpl. lia. }
  split; [vm_compute; reflexivity|]. split; [vm_compute; reflexivity|].
  exact (@tools_run_only_for_received_observations (nat * nat)
           sample_nesting_limit isalnum_below_256 sample_dumps sample_dumps
             standing_clock
           standing_clock stopped_controller (@snd nat nat) 1%nat
           (fun w => eq_refl) (fun w => eq_refl)
           (fun c H w => ltac:(injection H as <-; reflexivity))
           (fun cb H => ltac:(discriminate H))
           (fun prompt w => eq_refl) Htools (0%nat, 0%nat)).
Defined.
